(** * parambuster: a shallow embedding of [WebParameterFinder]

    The development follows [parambuster.py].  Python [str] values are Rocq
    strings; the text handled is ASCII, on which [str.isdigit], [str.lower]
    and the character classes of [re] ([\s], [\d], [\w], [\b]) are the ASCII
    ones written out below.  A Python [set] of strings is a [gset string], a
    [dict] from attribute names to values a [gmap string string]. *)

From Stdlib Require Import Ascii String ZArith Lia.
From stdpp Require Import gmap strings list sorting pretty.

Local Open Scope char_scope.
Local Open Scope stdpp_scope.

#[local] Set Warnings "-clear-no-such-hyp".

(** ** Python string methods *)

Module PyStr.

Definition between (lo hi c : ascii) : bool :=
  (N_of_ascii lo <=? N_of_ascii c)%N && (N_of_ascii c <=? N_of_ascii hi)%N.

Definition is_digit (c : ascii) : bool := between "0" "9" c.
Definition is_lower (c : ascii) : bool := between "a" "z" c.
Definition is_upper (c : ascii) : bool := between "A" "Z" c.
Definition is_alpha (c : ascii) : bool := is_lower c || is_upper c.

Definition one_of (chars : string) (c : ascii) : bool :=
  existsb (Ascii.eqb c) (list_ascii_of_string chars).

Definition len (s : string) : nat := String.length s.

Fixpoint all (p : ascii -> bool) (s : string) : bool :=
  match s with
  | EmptyString => true
  | String c s' => p c && all p s'
  end.

(** [c in s] for a one-character [c]. *)
Fixpoint contains (c : ascii) (s : string) : bool :=
  match s with
  | EmptyString => false
  | String d s' => Ascii.eqb c d || contains c s'
  end.

(** [s.isdigit()]: false on the empty string. *)
Definition isdigit (s : string) : bool :=
  match s with
  | EmptyString => false
  | _ => all is_digit s
  end.

Definition lower_char (c : ascii) : ascii :=
  if is_upper c then ascii_of_N (N_of_ascii c + 32) else c.

(** [s.lower()] *)
Fixpoint lower (s : string) : string :=
  match s with
  | EmptyString => EmptyString
  | String c s' => String (lower_char c) (lower s')
  end.

(** [s.startswith(p)] and [s.endswith(p)] *)
Definition startswith (s p : string) : bool := String.prefix p s.

Definition endswith (s p : string) : bool :=
  (len p <=? len s)%nat && String.eqb (substring (len s - len p) (len p) s) p.

(** [s[:-1]] *)
Definition drop_last (s : string) : string := substring 0 (len s - 1) s.

(** [s.split(sep)] for a one-character separator: never an empty list. *)
Fixpoint split (sep : ascii) (s : string) : list string :=
  match s with
  | EmptyString => [EmptyString]
  | String c s' =>
      if Ascii.eqb c sep then EmptyString :: split sep s'
      else match split sep s' with
           | w :: ws => String c w :: ws
           | [] => [String c EmptyString]
           end
  end.

(** [s.split(sep, 1)]: the text before the first [sep], and the text after
    it when there is one. *)
Fixpoint split1 (sep : ascii) (s : string) : string * option string :=
  match s with
  | EmptyString => (EmptyString, None)
  | String c s' =>
      if Ascii.eqb c sep then (EmptyString, Some s')
      else let '(a, b) := split1 sep s' in (String c a, b)
  end.

(** [s.replace(a, b)] for one-character [a]. *)
Fixpoint replace (a : ascii) (b : string) (s : string) : string :=
  match s with
  | EmptyString => EmptyString
  | String c s' =>
      if Ascii.eqb c a then b +:+ replace a b s' else String c (replace a b s')
  end.

(** [x in [..]] on a list of strings. *)
Definition among (x : string) (l : list string) : bool :=
  existsb (String.eqb x) l.

(** Truthiness of a string. *)
Definition nonempty (s : string) : bool :=
  match s with EmptyString => false | _ => true end.

(** [sep.join(l)] *)
Fixpoint join (sep : string) (l : list string) : string :=
  match l with
  | [] => EmptyString
  | [x] => x
  | x :: rest => x +:+ sep +:+ join sep rest
  end.

End PyStr.

(** ** The fragment of [re] the script uses

    Patterns are matched by backtracking, greedily and leftmost-first, as
    [re] does.  Every repetition in the script's patterns is over a character
    class, so [Star] takes a class. *)

Module Re.

Inductive pattern : Type :=
| Empty
| Class (p : ascii -> bool)
| Seq (a b : pattern)
| Alt (a b : pattern)
| Opt (a : pattern)
| Star (p : ascii -> bool)
| Group (n : nat) (a : pattern)
| WordBoundary
| Bol
| Eol.

Definition Plus (p : ascii -> bool) : pattern := Seq (Class p) (Star p).
Definition Chr (c : ascii) : pattern := Class (Ascii.eqb c).

Fixpoint Lit (s : string) : pattern :=
  match s with
  | EmptyString => Empty
  | String c s' => Seq (Chr c) (Lit s')
  end.

Fixpoint seq (l : list pattern) : pattern :=
  match l with
  | [] => Empty
  | [a] => a
  | a :: l' => Seq a (seq l')
  end.

(** Character classes. *)
Definition word (c : ascii) : bool :=
  PyStr.is_alpha c || PyStr.is_digit c || Ascii.eqb c "_".
Definition space (c : ascii) : bool :=
  PyStr.between "009" "013" c || PyStr.between "028" "032" c.
Definition digit (c : ascii) : bool := PyStr.is_digit c.

(** The position of the matcher: the character just before it, if any, and
    the text still ahead. *)
Record cursor : Type := Cursor { before : option ascii; ahead : string }.

Definition captures : Type := list (nat * string).

Definition consumed (from to : cursor) : string :=
  substring 0 (PyStr.len (ahead from) - PyStr.len (ahead to)) (ahead from).

Definition at_boundary (cur : cursor) : bool :=
  let l := match before cur with Some c => word c | None => false end in
  let r := match ahead cur with String c _ => word c | EmptyString => false end in
  xorb l r.

(** [$] without MULTILINE: the end, or just before a final newline. *)
Definition at_end (cur : cursor) : bool :=
  match ahead cur with
  | EmptyString => true
  | String c EmptyString => Ascii.eqb c "010"
  | _ => false
  end.

Section Matcher.
Context {R : Type}.

Fixpoint star (p : ascii -> bool) (k : cursor -> option R)
    (b : option ascii) (s : string) : option R :=
  match s with
  | String c s' =>
      if p c then
        match star p k (Some c) s' with
        | Some r => Some r
        | None => k (Cursor b s)
        end
      else k (Cursor b s)
  | EmptyString => k (Cursor b s)
  end.

Fixpoint run (r : pattern) (cur : cursor) (cs : captures)
    (k : cursor -> captures -> option R) : option R :=
  match r with
  | Empty => k cur cs
  | Class p =>
      match ahead cur with
      | String c s' => if p c then k (Cursor (Some c) s') cs else None
      | EmptyString => None
      end
  | Seq a b => run a cur cs (fun cur' cs' => run b cur' cs' k)
  | Alt a b =>
      match run a cur cs k with
      | Some x => Some x
      | None => run b cur cs k
      end
  | Opt a =>
      match run a cur cs k with
      | Some x => Some x
      | None => k cur cs
      end
  | Star p => star p (fun cur' => k cur' cs) (before cur) (ahead cur)
  | Group n a =>
      run a cur cs (fun cur' cs' => k cur' ((n, consumed cur cur') :: cs'))
  | WordBoundary => if at_boundary cur then k cur cs else None
  | Bol => match before cur with None => k cur cs | Some _ => None end
  | Eol => if at_end cur then k cur cs else None
  end.
End Matcher.

(** A match object: the groups that took part, and where the match ended. *)
Record match_object : Type := Match { groups : captures; stop : cursor }.

Definition match_at (r : pattern) (cur : cursor) : option match_object :=
  run r cur [] (fun cur' cs => Some (Match cs cur')).

(** [re.match(r, s)] *)
Definition match_ (r : pattern) (s : string) : option match_object :=
  match_at r (Cursor None s).

(** [m.group(n)]: [None] when the group took no part in the match. *)
Definition group (n : nat) (m : match_object) : option string :=
  snd <$> List.find (fun g => Nat.eqb (fst g) n) (groups m).

(** [re.finditer(r, s)]: the matches found scanning left to right, each
    attempt starting where the previous match ended. *)
Fixpoint scan (r : pattern) (b : option ascii) (skip : nat) (s : string)
    : list match_object :=
  match skip, s with
  | S n, String c s' => scan r (Some c) n s'
  | S _, EmptyString => []
  | O, _ =>
      let cur := Cursor b s in
      match match_at r cur, s with
      | Some m, String c s' =>
          m :: scan r (Some c) (PyStr.len (consumed cur (stop m)) - 1) s'
      | None, String c s' => scan r (Some c) 0 s'
      | Some m, EmptyString => [m]
      | None, EmptyString => []
      end
  end.

Definition finditer (r : pattern) (s : string) : list match_object :=
  scan r None 0 s.

(** [re.findall(r, s)] for a pattern with one group, and with two: a group
    that took no part gives the empty string. *)
Definition findall1 (r : pattern) (s : string) : list string :=
  (fun m => default EmptyString (group 1 m)) <$> finditer r s.

Definition findall2 (r : pattern) (s : string) : list (string * string) :=
  (fun m => (default EmptyString (group 1 m), default EmptyString (group 2 m)))
    <$> finditer r s.

End Re.

(** ** [urllib.parse]: [urlparse] and [parse_qs]

    Written after the CPython 3.11 library.  [urlparse] raises [ValueError]
    on a malformed bracketed host; recent versions of the library then
    validate a bracketed host with the [ipaddress] module, which is not
    modelled: [urlparse] below gives [None] (the [ValueError]) for every
    netloc that holds a bracket. *)

Module Url.

Record ParseResult : Type := {
  scheme : string;
  netloc : string;
  path : string;
  params : string;
  query : string;
  fragment : string
}.

Definition scheme_char (c : ascii) : bool :=
  PyStr.is_alpha c || PyStr.is_digit c || PyStr.one_of "+-." c.

Definition uses_params : list string :=
  [""; "ftp"; "hdl"; "prospero"; "http"; "imap"; "https"; "shttp"; "rtsp";
   "rtspu"; "sip"; "sips"; "mms"; "sftp"; "tel"].

(** [url.lstrip(_WHATWG_C0_CONTROL_OR_SPACE)] *)
Fixpoint lstrip_c0 (s : string) : string :=
  match s with
  | String c s' => if PyStr.between "000" " " c then lstrip_c0 s' else s
  | EmptyString => s
  end.

Definition remove_unsafe (s : string) : string :=
  PyStr.replace "009" "" (PyStr.replace "013" "" (PyStr.replace "010" "" s)).

(** The longest prefix whose characters all satisfy [p], and the rest. *)
Fixpoint span (p : ascii -> bool) (s : string) : string * string :=
  match s with
  | String c s' =>
      if p c then let '(a, b) := span p s' in (String c a, b) else (EmptyString, s)
  | EmptyString => (EmptyString, EmptyString)
  end.

(** [_splitnetloc(url, 2)], for a [url] that starts with two slashes. *)
Definition _splitnetloc (url : string) : string * string :=
  span (fun c => negb (PyStr.one_of "/?#" c)) (substring 2 (PyStr.len url - 2) url).

(** [url[:j], url[j:]] for [j = url.rfind('/')], when there is a slash. *)
Fixpoint rsplit_slash (s : string) : option (string * string) :=
  match s with
  | EmptyString => None
  | String c s' =>
      match rsplit_slash s' with
      | Some (a, b) => Some (String c a, b)
      | None => if Ascii.eqb c "/" then Some (EmptyString, s) else None
      end
  end.

Definition _splitparams (url : string) : string * string :=
  match rsplit_slash url with
  | Some (a, b) =>
      match PyStr.split1 ";" b with
      | (b1, Some p) => (a +:+ b1, p)
      | (_, None) => (url, EmptyString)
      end
  | None =>
      match PyStr.split1 ";" url with
      | (u, Some p) => (u, p)
      | (u, None) => (u, EmptyString)
      end
  end.

(** [urlsplit(url)]: scheme, netloc, path, query, fragment. *)
Definition urlsplit (url : string)
    : option (string * string * string * string * string) :=
  let url := remove_unsafe (lstrip_c0 url) in
  let '(scheme, url) :=
    match PyStr.split1 ":" url with
    | (String c0 pre', Some post) =>
        if PyStr.is_alpha c0 && PyStr.all scheme_char (String c0 pre')
        then (PyStr.lower (String c0 pre'), post)
        else (EmptyString, url)
    | _ => (EmptyString, url)
    end in
  let '(netloc, url) :=
    if PyStr.startswith url "//" then _splitnetloc url else (EmptyString, url) in
  if PyStr.contains "[" netloc || PyStr.contains "]" netloc then None
  else
    let '(url, fragment) :=
      match PyStr.split1 "#" url with
      | (u, Some f) => (u, f)
      | (u, None) => (u, EmptyString)
      end in
    let '(url, query) :=
      match PyStr.split1 "?" url with
      | (u, Some q) => (u, q)
      | (u, None) => (u, EmptyString)
      end in
    Some (scheme, netloc, url, query, fragment).

Definition urlparse (url : string) : option ParseResult :=
  match urlsplit url with
  | Some (scheme, netloc, url, query, fragment) =>
      let '(url, params) :=
        if PyStr.among scheme uses_params && PyStr.contains ";" url
        then _splitparams url else (url, EmptyString) in
      Some {| scheme := scheme; netloc := netloc; path := url;
              params := params; query := query; fragment := fragment |}
  | None => None
  end.

(** *** Percent decoding *)

Definition hex_value (c : ascii) : option N :=
  if PyStr.is_digit c then Some (N_of_ascii c - 48)%N
  else if PyStr.between "a" "f" c then Some (N_of_ascii c - 87)%N
  else if PyStr.between "A" "F" c then Some (N_of_ascii c - 55)%N
  else None.

(** One piece of [string.split('%')] after the first: a two-digit escape
    becomes its byte, anything else keeps its percent sign. *)
Definition unquote_item (item : string) : string :=
  match item with
  | String h (String l rest) =>
      match hex_value h, hex_value l with
      | Some a, Some b => String (ascii_of_N (16 * a + b)) rest
      | _, _ => String "%" item
      end
  | _ => String "%" item
  end.

(** [unquote(string)].  The library decodes the unescaped bytes as UTF-8;
    on escapes up to [%7F] that changes nothing, and for an escape above it
    the model keeps the byte. *)
Definition unquote (s : string) : string :=
  if negb (PyStr.contains "%" s) then s
  else
    match PyStr.split "%" s with
    | first :: items => first +:+ PyStr.join "" (unquote_item <$> items)
    | [] => s
    end.

(** [parse_qsl(qs)] with the defaults [keep_blank_values=False],
    [strict_parsing=False], [separator='&']. *)
Definition parse_field (name_value : string) : option (string * string) :=
  if negb (PyStr.nonempty name_value) then None
  else
    match PyStr.split1 "=" name_value with
    | (_, None) => None
    | (n, Some v) =>
        if PyStr.nonempty v
        then Some (unquote (PyStr.replace "+" " " n), unquote (PyStr.replace "+" " " v))
        else None
    end.

Definition parse_qsl (qs : string) : list (string * string) :=
  let query_args := if PyStr.nonempty qs then PyStr.split "&" qs else [] in
  omap parse_field query_args.

(** A [dict] from names to lists of values, in insertion order. *)
Fixpoint dict_append (name value : string) (d : list (string * list string))
    : list (string * list string) :=
  match d with
  | [] => [(name, [value])]
  | (n, vs) :: d' =>
      if String.eqb n name then (n, vs ++ [value]) :: d'
      else (n, vs) :: dict_append name value d'
  end.

Definition parse_qs (qs : string) : list (string * list string) :=
  foldl (fun parsed_result '(name, value) => dict_append name value parsed_result)
    [] (parse_qsl qs).

Definition keys {V : Type} (d : list (string * V)) : list string := fst <$> d.

End Url.

(** ** The regular expressions of the script

    In the patterns quoted below [\x22] stands for the double quote, [IDENT]
    for [[a-zA-Z_$][a-zA-Z0-9_$]*] and [NAME] for [[a-zA-Z_][a-zA-Z0-9_]*]. *)

Module Patterns.
Import Re.

Definition quote (c : ascii) : bool := Ascii.eqb c "034" || Ascii.eqb c "039".

(** [[a-zA-Z_$]] and [[a-zA-Z0-9_$]] *)
Definition ident_start (c : ascii) : bool := PyStr.is_alpha c || PyStr.one_of "_$" c.
Definition ident_char (c : ascii) : bool := ident_start c || PyStr.is_digit c.

(** [[a-zA-Z_]] and [[a-zA-Z0-9_]] *)
Definition name_start (c : ascii) : bool := PyStr.is_alpha c || Ascii.eqb c "_".
Definition name_char (c : ascii) : bool := name_start c || PyStr.is_digit c.

(** [[a-zA-Z0-9_-]], [[a-zA-Z0-9_\-./]] and [[a-zA-Z0-9_.-]] *)
Definition slug_char (c : ascii) : bool := name_char c || Ascii.eqb c "-".
Definition url_char (c : ascii) : bool := name_char c || PyStr.one_of "-./" c.
Definition value_char (c : ascii) : bool := name_char c || PyStr.one_of ".-" c.

(** Pattern: [r'[{:]?(IDENT)[}]?'] *)
Definition explicit_placeholder : pattern :=
  seq [Opt (Class (PyStr.one_of "{:"));
       Group 1 (Seq (Class ident_start) (Star ident_char));
       Opt (Chr "}")].

(** Pattern: [r'^[a-zA-Z0-9_-]+$'] *)
Definition slug : pattern := seq [Bol; Plus slug_char; Eol].

(** Pattern: [r'(?:[\x22\'])(/?[a-zA-Z0-9_\-./]+)(?:[\x22\'])'] *)
Definition js_url : pattern :=
  seq [Class quote; Group 1 (Seq (Opt (Chr "/")) (Plus url_char)); Class quote].

(** Pattern: [r'(?:var|let|const|\bthis\.)\s*(IDENT)\s*=|(IDENT)\s*:\s*(?:[\x22\']|\d)'] *)
Definition js_param : pattern :=
  Alt (seq [Alt (Lit "var") (Alt (Lit "let") (Alt (Lit "const")
              (Seq WordBoundary (Lit "this."))));
            Star space;
            Group 1 (Seq (Class ident_start) (Star ident_char));
            Star space; Chr "="])
      (seq [Group 2 (Seq (Class ident_start) (Star ident_char));
            Star space; Chr ":"; Star space;
            Alt (Class quote) (Class digit)]).

(** Pattern: [r'name=[\x22\'](IDENT)[\x22\']'] *)
Definition js_name_attribute : pattern :=
  seq [Lit "name="; Class quote;
       Group 1 (Seq (Class ident_start) (Star ident_char)); Class quote].

(** Pattern: [r'\b(NAME)\s*=\s*(?:[\x22\']?[a-zA-Z0-9_.-]+[\x22\']?|\d+)'] *)
Definition comment_assignment : pattern :=
  seq [WordBoundary; Group 1 (Seq (Class name_start) (Star name_char));
       Star space; Chr "="; Star space;
       Alt (seq [Opt (Class quote); Plus value_char; Opt (Class quote)])
           (Plus digit)].

(** Pattern: [r'\b(NAME)\b'] *)
Definition comment_word : pattern :=
  seq [WordBoundary; Group 1 (Seq (Class name_start) (Star name_char));
       WordBoundary].

End Patterns.

(** ** The document tree built by [BeautifulSoup] *)

Module Bs4.

#[local] Set Warnings "-register-all".
Inductive node : Type :=
| Tag (name : string) (attrs : gmap string string) (contents : list node)
| NavigableString (text : string)
| Comment (text : string).

(** The nodes below a node, in document order. *)
Fixpoint descendants (n : node) : list node :=
  match n with
  | Tag _ _ contents => flat_map (fun c => c :: descendants c) contents
  | _ => []
  end.

(** A parsed document: its top-level nodes. *)
Definition soup : Type := list node.

Definition nodes (doc : soup) : list node :=
  flat_map (fun c => c :: descendants c) doc.

(** [element.name], for a tag. *)
Definition name_of (n : node) : option string :=
  match n with Tag name _ _ => Some name | _ => None end.

(** [element.get(key)] *)
Definition get (n : node) (key : string) : option string :=
  match n with Tag _ attrs _ => attrs !! key | _ => None end.

Definition named (names : list string) (n : node) : bool :=
  match n with Tag name _ _ => PyStr.among name names | _ => false end.

(** [soup.find_all(name)] and [soup.find_all(name, attr=True)] *)
Definition find_all (name : string) (doc : soup) : list node :=
  List.filter (named [name]) (nodes doc).

Definition find_all_with (name attr : string) (doc : soup) : list node :=
  List.filter (fun n => named [name] n && bool_decide (is_Some (get n attr)))
    (nodes doc).

(** [tag.find_all([name, ...])] *)
Definition find_all_in (names : list string) (n : node) : list node :=
  List.filter (named names) (descendants n).

(** [soup.find_all(string=lambda text: isinstance(text, Comment))] *)
Definition find_comments (doc : soup) : list string :=
  omap (fun n => match n with Comment text => Some text | _ => None end) (nodes doc).

(** [tag.string]: the text of the only child, looked up through
    single-child tags. *)
Fixpoint string_ (n : node) : option string :=
  match n with
  | NavigableString text | Comment text => Some text
  | Tag _ _ [child] => string_ child
  | Tag _ _ _ => None
  end.

End Bs4.

(** ** [repr] of strings and of lists of strings, as f-strings print them *)

Module PyRepr.

Definition hex_digit (n : N) : ascii :=
  if (n <? 10)%N then ascii_of_N (48 + n) else ascii_of_N (87 + n).

Definition escape (q c : ascii) : string :=
  if Ascii.eqb c q || Ascii.eqb c "\" then String "\" (String c EmptyString)
  else if Ascii.eqb c "009" then "\t"
  else if Ascii.eqb c "010" then "\n"
  else if Ascii.eqb c "013" then "\r"
  else if PyStr.between "000" "031" c || Ascii.eqb c "127" then
    String "\" (String "x" (String (hex_digit (N_of_ascii c / 16))
      (String (hex_digit (N_of_ascii c mod 16)) EmptyString)))
  else String c EmptyString.

Fixpoint escape_all (q : ascii) (s : string) : string :=
  match s with
  | EmptyString => EmptyString
  | String c s' => escape q c +:+ escape_all q s'
  end.

(** Double quotes are chosen only for a string that holds a single quote
    and no double quote. *)
Definition repr (s : string) : string :=
  let q : ascii :=
    if PyStr.contains "039" s && negb (PyStr.contains "034" s)
    then "034"%char else "039"%char in
  String q (escape_all q s +:+ String q EmptyString).

Definition repr_list (l : list string) : string :=
  "[" +:+ PyStr.join ", " (repr <$> l) +:+ "]".

End PyRepr.

(** ** The finder object and the effects of the script *)

Inductive category : Type :=
| UrlQuery | PathRoute | FormVisible | FormHidden | JavaScriptLike | CommentWords.

Global Instance category_eq_dec : EqDecision category.
Proof. solve_decision. Defined.

(** The keys of [found_parameters], in the order [__init__] inserts them. *)
Definition categories : list category :=
  [UrlQuery; PathRoute; FormVisible; FormHidden; JavaScriptLike; CommentWords].

Definition key (c : category) : string :=
  match c with
  | UrlQuery => "URL Query Parameters"
  | PathRoute => "Potential Path/Route Parameters"
  | FormVisible => "Form Parameters (Visible)"
  | FormHidden => "Form Parameters (Hidden)"
  | JavaScriptLike => "JavaScript-like Parameters"
  | CommentWords => "Comment Parameters"
  end.

(** [found_parameters]: one set per key. *)
Record parameters : Type := {
  url_query : gset string;
  path_route : gset string;
  form_visible : gset string;
  form_hidden : gset string;
  javascript_like : gset string;
  comment_words : gset string
}.

Definition bucket (c : category) (p : parameters) : gset string :=
  match c with
  | UrlQuery => url_query p
  | PathRoute => path_route p
  | FormVisible => form_visible p
  | FormHidden => form_hidden p
  | JavaScriptLike => javascript_like p
  | CommentWords => comment_words p
  end.

(** [found_parameters[key].update(xs)]; [add(x)] is the update by [{x}]. *)
Definition update (c : category) (xs : gset string) (p : parameters) : parameters :=
  {| url_query := if decide (c = UrlQuery) then url_query p ∪ xs else url_query p;
     path_route := if decide (c = PathRoute) then path_route p ∪ xs else path_route p;
     form_visible := if decide (c = FormVisible) then form_visible p ∪ xs else form_visible p;
     form_hidden := if decide (c = FormHidden) then form_hidden p ∪ xs else form_hidden p;
     javascript_like :=
       if decide (c = JavaScriptLike) then javascript_like p ∪ xs else javascript_like p;
     comment_words :=
       if decide (c = CommentWords) then comment_words p ∪ xs else comment_words p |}.

(** [found_parameters.items()] *)
Definition items (p : parameters) : list (string * gset string) :=
  (fun c => (key c, bucket c p)) <$> categories.

Record finder : Type := {
  url : string;
  html_content : option string;
  found_parameters : parameters;
  processed_urls : gset string
}.

Definition no_parameters : parameters :=
  {| url_query := ∅; path_route := ∅; form_visible := ∅; form_hidden := ∅;
     javascript_like := ∅; comment_words := ∅ |}.

Definition __init__ (url : string) : finder :=
  {| url := url; html_content := None; found_parameters := no_parameters;
     processed_urls := ∅ |}.

(** How a call ends: it returns, [sys.exit] is called, or an exception
    nothing catches is raised. *)
Inductive outcome (A : Type) : Type :=
| Returned (a : A)
| SystemExit (code : Z)
| Raised (exception : string).
Arguments Returned {A} a.
Arguments SystemExit {A} code.
Arguments Raised {A} exception.

(** The result of running a method: how it ended, the object it leaves and
    the texts it passed to [print], one entry per call, in order. *)
Record result (A : Type) : Type := Result {
  out : outcome A;
  self : finder;
  printed : list string
}.
Arguments Result {A} out self printed.
Arguments out {A} r.
Arguments self {A} r.
Arguments printed {A} r.

Definition Run (A : Type) : Type := finder -> result A.

Global Instance Run_ret : MRet Run := fun A a st => Result (Returned a) st [].

Global Instance Run_bind : MBind Run := fun A B f m st =>
  let r := m st in
  match out r with
  | Returned a => let r' := f a (self r) in
                  Result (out r') (self r') (printed r ++ printed r')
  | SystemExit code => Result (SystemExit code) (self r) (printed r)
  | Raised e => Result (Raised e) (self r) (printed r)
  end.

Definition get_self : Run finder := fun st => Result (Returned st) st [].
Definition modify (f : finder -> finder) : Run unit :=
  fun st => Result (Returned tt) (f st) [].
Definition print (text : string) : Run unit :=
  fun st => Result (Returned tt) st [text].
Definition sys_exit {A : Type} (code : Z) : Run A :=
  fun st => Result (SystemExit code) st [].
Definition raise {A : Type} (exception : string) : Run A :=
  fun st => Result (Raised exception) st [].

(** A call of a library function that may raise [ValueError]. *)
Definition value_or_raise {A : Type} (v : option A) : Run A :=
  match v with Some a => mret a | None => raise "ValueError" end.

(** [for x in l: acc = body(acc, x)] *)
Fixpoint for_each {A B : Type} (body : B -> A -> Run B) (acc : B) (l : list A)
    : Run B :=
  match l with
  | [] => mret acc
  | x :: l' => acc' ← body acc x; for_each body acc' l'
  end.

Definition set_html_content (text : string) (st : finder) : finder :=
  {| url := url st; html_content := Some text;
     found_parameters := found_parameters st; processed_urls := processed_urls st |}.

Definition mark_processed (url_str : string) (st : finder) : finder :=
  {| url := url st; html_content := html_content st;
     found_parameters := found_parameters st;
     processed_urls := processed_urls st ∪ {[url_str]} |}.

Definition update_found (c : category) (xs : gset string) (st : finder) : finder :=
  {| url := url st; html_content := html_content st;
     found_parameters := update c xs (found_parameters st);
     processed_urls := processed_urls st |}.

(** ** [requests]: what [requests.get] can give back *)

Module Requests.

Record Response : Type := {
  status_code : Z;
  reason : string;
  url : string;
  text : string
}.

(** The subclasses of [RequestException] a failed request raises. *)
Inductive failure : Type := ConnectionError | Timeout | OtherRequestException.

Inductive reply : Type :=
| Failed (kind : failure) (message : string)
| Replied (response : Response).

(** [response.raise_for_status()]: the message of the [HTTPError] it raises
    on a 4xx or 5xx status. *)
Definition raise_for_status (r : Response) : option string :=
  if bool_decide (400 ≤ status_code r < 500)%Z then
    Some (pretty (status_code r) +:+ " Client Error: " +:+ reason r
          +:+ " for url: " +:+ url r)
  else if bool_decide (500 ≤ status_code r < 600)%Z then
    Some (pretty (status_code r) +:+ " Server Error: " +:+ reason r
          +:+ " for url: " +:+ url r)
  else None.

End Requests.

(** ** The three heuristics on a path segment (source lines 101-140) *)

(** Heuristic 1: the identifier of an explicit placeholder. *)
Definition explicit_placeholder (segment : string) : option string :=
  match Re.match_ Patterns.explicit_placeholder segment with
  | Some m =>
      match Re.group 1 m with
      | Some g => if negb (String.eqb g segment) then Some g else None
      | None => None
      end
  | None => None
  end.

(** Heuristic 2: the name hinted by a numeric segment.  The index [i] is that
    of [enumerate(path_segments)], so [i - 1] is in range whenever [0 < i]. *)
Definition numeric_hint (path_segments : list string) (i : nat) (segment : string)
    : option string :=
  if PyStr.isdigit segment && (1 <? PyStr.len segment)%nat then
    Some (if (0 <? i)%nat then
            match path_segments !! (i - 1)%nat with
            | Some p =>
                let prev_segment := PyStr.lower p in
                if PyStr.among prev_segment ["users"; "products"; "items"; "posts"; "orders"]
                then prev_segment +:+ "_id"
                else if PyStr.endswith prev_segment "s"
                then PyStr.drop_last prev_segment +:+ "_id"
                else "id"
            | None => "id"
            end
          else "id")
  else None.

Definition common_static_segments : list string :=
  ["api"; "v1"; "v2"; "css"; "js"; "img"; "images"; "static"; "assets"; "admin";
   "dashboard"; "new"; "edit"; "delete"; "view"; "index"; "home"].

(** Heuristic 3: the name hinted by a slug-like segment. *)
Definition slug_hint (path_segments : list string) (i : nat) (segment : string)
    : option string :=
  if bool_decide (is_Some (Re.match_ Patterns.slug segment))
     && negb (PyStr.isdigit segment)
     && (2 <? PyStr.len segment)%nat
     && negb (PyStr.among (PyStr.lower segment) common_static_segments)
  then
    Some (if (0 <? i)%nat then
            match path_segments !! (i - 1)%nat with
            | Some p =>
                let prev_segment := PyStr.lower p in
                if PyStr.among prev_segment
                     ["products"; "articles"; "posts"; "categories"; "users"]
                then if PyStr.endswith prev_segment "s"
                     then PyStr.drop_last prev_segment +:+ "_slug"
                     else prev_segment +:+ "_name"
                else "slug"
            | None => "slug"
            end
          else "slug")
  else None.

(** [[s for s in path.split('/') if s]] *)
Definition segments_of (path : string) : list string :=
  List.filter PyStr.nonempty (PyStr.split "/" path).

(** [enumerate(l)] *)
Definition enumerate {A : Type} (l : list A) : list (nat * A) :=
  imap (fun i x => (i, x)) l.

(** The names one segment adds to [potential_path_params], in order. *)
Definition segment_hints (path_segments : list string) (i : nat) (segment : string)
    : list string :=
  option_list (explicit_placeholder segment)
  ++ option_list (numeric_hint path_segments i segment)
  ++ option_list (slug_hint path_segments i segment).

(** The names all the segments of a path add. *)
Definition path_hints (path : string) : list string :=
  let path_segments := segments_of path in
  mjoin (imap (segment_hints path_segments) path_segments).

(** The body of the loop over the segments, with its progress lines. *)
Definition analyze_segment (url_str : string) (path_segments : list string)
    (potential_path_params : gset string) (entry : nat * string) : Run (gset string) :=
  let '(i, segment) := entry in
  acc ← match explicit_placeholder segment with
        | Some g =>
            print ("    [+] Found explicit path placeholder: " +:+ g +:+ " in " +:+ url_str);;
            mret (potential_path_params ∪ {[g]})
        | None => mret potential_path_params
        end;
  acc ← match numeric_hint path_segments i segment with
        | Some param_name_hint =>
            print ("    [+] Found numeric path segment (potential " +:+ param_name_hint
                   +:+ "): " +:+ segment +:+ " in " +:+ url_str);;
            mret (acc ∪ {[param_name_hint]})
        | None => mret acc
        end;
  match slug_hint path_segments i segment with
  | Some param_name_hint =>
      print ("    [+] Found alphanumeric/hyphenated path segment (potential "
             +:+ param_name_hint +:+ "): " +:+ segment +:+ " in " +:+ url_str);;
      mret (acc ∪ {[param_name_hint]})
  | None => mret acc
  end.

(** ** Form fields (source lines 170-179) *)

(** Where a form element goes: its bucket and its name, or nowhere. *)
Definition classify_field (element : Bs4.node) : option (category * string) :=
  match Bs4.get element "name" with
  | Some name =>
      if PyStr.nonempty name then
        if bool_decide (Bs4.name_of element = Some "input")
           && bool_decide (Bs4.get element "type" = Some "hidden")
        then Some (FormHidden, name)
        else Some (FormVisible, name)
      else None
  | None => None
  end.

Definition field_line (element : Bs4.node) (c : category) (name : string) : string :=
  match c with
  | FormHidden => "    [+] Hidden Form Parameter: " +:+ name
  | _ =>
      "    [+] Visible Form Parameter: " +:+ name +:+ " (Type: "
      +:+ (if bool_decide (Bs4.name_of element = Some "input")
           then default "text" (Bs4.get element "type")
           else default "" (Bs4.name_of element))
      +:+ ")"
  end.

Definition collect_field (element : Bs4.node) : Run unit :=
  match classify_field element with
  | Some (c, name) =>
      modify (update_found c {[name]});;
      print (field_line element c name)
  | None => mret tt
  end.

(** ** The methods of [WebParameterFinder] *)

(** The places where the script walks a [set], whose order Python leaves
    open: the loop over [urls_to_analyze], the three [list(...)] in progress
    lines, and the [list(params_set)] of each bucket in the report. *)
Inductive site : Type :=
| UrlsToAnalyze
| PathParamsList
| JsParamsList
| CommentParamsList
| BucketList (c : category).

(** [sorted(l)] on strings. *)
Definition sorted (l : list string) : list string := merge_sort String.le l.

Definition common_words : list string :=
  ["this"; "that"; "the"; "and"; "or"; "not"; "for"; "in"; "with"; "is"; "of"; "to";
   "a"; "an"; "on"; "at"; "by"; "from"; "as"; "it"; "he"; "she"; "we"; "they"; "you";
   "my"; "your"; "his"; "her"; "our"; "their"; "its"; "up"; "down"; "left"; "right";
   "true"; "false"; "null"; "undefined"].

Definition rule : string := PyStr.join "" (replicate 50 "=").

(** [script.string if script.string else ''], joined by newlines. *)
Definition script_text (doc : Bs4.soup) : string :=
  PyStr.join (String "010" EmptyString)
    ((fun script => default "" (Bs4.string_ script)) <$> Bs4.find_all "script" doc).

(** The truthiness test [if not self.html_content]. *)
Definition page (st : finder) : option string :=
  match html_content st with
  | Some html => if PyStr.nonempty html then Some html else None
  | None => None
  end.

Section Finder.

(** The collaborators of the script: the network, the HTML parser,
    [urllib.parse.urljoin] ([None] when it raises [ValueError]) and the
    order in which a set is walked at each site. *)
Variable requests_get : string -> Requests.reply.
Variable BeautifulSoup : string -> Bs4.soup.
Variable urljoin : string -> string -> option string.
Variable order : site -> gset string -> list string.

Definition fetch_page : Run unit :=
  st ← get_self;
  print ("[*] Fetching page: " +:+ url st);;
  match requests_get (url st) with
  | Requests.Failed _ e =>
      print ("[-] Error fetching page " +:+ url st +:+ ": " +:+ e);;
      sys_exit 1
  | Requests.Replied response =>
      match Requests.raise_for_status response with
      | Some e =>
          print ("[-] Error fetching page " +:+ url st +:+ ": " +:+ e);;
          sys_exit 1
      | None =>
          modify (set_html_content (Requests.text response));;
          print "[*] Page fetched successfully."
      end
  end.

Definition extract_url_query_parameters : Run unit :=
  st ← get_self;
  parsed_url ← value_or_raise (Url.urlparse (url st));
  let query_params := Url.parse_qs (Url.query parsed_url) in
  for_each (fun _ param_name => modify (update_found UrlQuery {[param_name]}))
    tt (Url.keys query_params);;
  match query_params with
  | _ :: _ =>
      print ("[+] Found URL Query Parameters: "
             +:+ PyRepr.repr_list (Url.keys query_params))
  | [] => print "[-] No URL Query Parameters found in the initial URL."
  end.

(** [urls_to_analyze.add(urljoin(self.url, reference))] *)
Definition harvest (base : string) (urls_to_analyze : gset string)
    (reference : string) : Run (gset string) :=
  resolved ← value_or_raise (urljoin base reference);
  mret (urls_to_analyze ∪ {[resolved]}).

(** The body of the loop over [urls_to_analyze]. *)
Definition analyze_url (potential_path_params : gset string) (url_str : string)
    : Run (gset string) :=
  st ← get_self;
  if bool_decide (url_str ∈ processed_urls st) then mret potential_path_params
  else
    modify (mark_processed url_str);;
    parsed_url ← value_or_raise (Url.urlparse url_str);
    let path_segments := segments_of (Url.path parsed_url) in
    for_each (analyze_segment url_str path_segments) potential_path_params
      (enumerate path_segments).

Definition extract_potential_path_parameters : Run unit :=
  st ← get_self;
  match page st with
  | None => mret tt
  | Some html =>
      let soup := BeautifulSoup html in
      urls ← for_each (harvest (url st)) ∅
               (omap (fun a_tag => Bs4.get a_tag "href")
                     (Bs4.find_all_with "a" "href" soup));
      urls ← for_each (harvest (url st)) urls
               (omap (fun form_tag => Bs4.get form_tag "action")
                     (Bs4.find_all_with "form" "action" soup));
      urls_to_analyze ←
        for_each (fun urls found_url =>
                    if (2 <? PyStr.len found_url)%nat
                       && negb (PyStr.startswith found_url "//")
                    then harvest (url st) urls found_url
                    else mret urls)
          urls (Re.findall1 Patterns.js_url (script_text soup));
      print "[*] Analyzing URLs for potential path parameters...";;
      potential_path_params ←
        for_each analyze_url ∅ (order UrlsToAnalyze urls_to_analyze);
      if bool_decide (potential_path_params = ∅) then
        print "[-] No potential Path/Route Parameters found from URLs on the page."
      else
        print ("[+] Potential Path/Route Parameters found: "
               +:+ PyRepr.repr_list (order PathParamsList potential_path_params));;
        modify (update_found PathRoute potential_path_params)
  end.

Definition analyze_form (entry : nat * Bs4.node) : Run unit :=
  let '(i, form) := entry in
  print ("[*] Analyzing Form " +:+ pretty (i + 1)%nat
         +:+ " (Action: " +:+ default "N/A" (Bs4.get form "action")
         +:+ ", Method: " +:+ default "GET" (Bs4.get form "method") +:+ ")");;
  for_each (fun _ element => collect_field element) tt
    (Bs4.find_all_in ["input"; "select"; "textarea"] form).

Definition extract_form_parameters : Run unit :=
  st ← get_self;
  match page st with
  | None => mret tt
  | Some html =>
      match Bs4.find_all "form" (BeautifulSoup html) with
      | [] => print "[-] No forms found on the page."
      | forms => for_each (fun _ entry => analyze_form entry) tt (enumerate forms)
      end
  end.

(** The names the two sweeps over the script text find. *)
Definition js_names (js_content : string) : gset string :=
  let found_in_js :=
    foldl (fun found '(assigned, key_) =>
             let found := if PyStr.nonempty assigned then found ∪ {[assigned]} else found in
             if PyStr.nonempty key_ then found ∪ {[key_]} else found)
      (∅ : gset string) (Re.findall2 Patterns.js_param js_content) in
  foldl (fun found name => found ∪ {[name]}) found_in_js
    (Re.findall1 Patterns.js_name_attribute js_content).

Definition extract_js_parameters : Run unit :=
  st ← get_self;
  match page st with
  | None => mret tt
  | Some html =>
      let soup := BeautifulSoup html in
      match Bs4.find_all "script" soup with
      | [] => print "[-] No <script> tags found on the page."
      | _ =>
          let found_in_js := js_names (script_text soup) in
          if bool_decide (found_in_js = ∅) then
            print "[-] No JavaScript-like parameters found."
          else
            print ("[+] Potential JavaScript-like parameters found: "
                   +:+ PyRepr.repr_list (order JsParamsList found_in_js));;
            modify (update_found JavaScriptLike found_in_js)
      end
  end.

(** The names the two sweeps over one comment add. *)
Definition comment_names (found_in_comments : gset string) (comment : string)
    : gset string :=
  let found :=
    foldl (fun found p => found ∪ {[p]}) found_in_comments
      (Re.findall1 Patterns.comment_assignment comment) in
  foldl (fun found word =>
           if (2 <? PyStr.len word)%nat
              && negb (PyStr.among (PyStr.lower word) common_words)
           then found ∪ {[word]} else found)
    found (Re.findall1 Patterns.comment_word comment).

Definition extract_comment_parameters : Run unit :=
  st ← get_self;
  match page st with
  | None => mret tt
  | Some html =>
      match Bs4.find_comments (BeautifulSoup html) with
      | [] => print "[-] No HTML comments found on the page."
      | comments =>
          let found_in_comments := foldl comment_names ∅ comments in
          if bool_decide (found_in_comments = ∅) then
            print "[-] No Comment parameters found."
          else
            print ("[+] Potential Comment parameters found: "
                   +:+ PyRepr.repr_list (order CommentParamsList found_in_comments));;
            modify (update_found CommentWords found_in_comments)
      end
  end.

(** One turn of the loop over [found_parameters.items()]. *)
Definition report_category (p : parameters) (total_found : nat) (c : category)
    : Run nat :=
  let params_list := sorted (order (BucketList c) (bucket c p)) in
  print ("--- " +:+ key c +:+ " (" +:+ pretty (length params_list) +:+ " found) ---");;
  total_found ←
    match params_list with
    | _ :: _ =>
        for_each (fun _ param => print ("  - " +:+ param)) tt params_list;;
        mret (total_found + length params_list)%nat
    | [] => print "  (None)";; mret total_found
    end;
  print "";;
  mret total_found.

(** The loop over [found_parameters.items()]: it returns [total_found]. *)
Definition report_buckets (p : parameters) : Run nat :=
  for_each (report_category p) 0%nat categories.

Definition total_line (total_found : nat) : string :=
  "Total Unique Parameters Discovered: " +:+ pretty total_found.

Definition display_results : Run unit :=
  st ← get_self;
  print (String "010" rule);;
  print "           Parameter Discovery Results           ";;
  print rule;;
  print ("Target URL: " +:+ url st +:+ String "010" EmptyString);;
  total_found ← report_buckets (found_parameters st);
  print rule;;
  print (total_line total_found);;
  print rule;;
  print (String "010" "Note: Path/Route, JavaScript, and Comment parameters are heuristic and may contain false positives due to static analysis limitations.");;
  print "Consider dynamic analysis (e.g., using Selenium) for a more complete picture, especially for client-side rendered parameters.".

Definition find_all_parameters : Run unit :=
  fetch_page;;
  extract_url_query_parameters;;
  extract_potential_path_parameters;;
  extract_form_parameters;;
  extract_js_parameters;;
  extract_comment_parameters;;
  display_results.

End Finder.

(** ** Notions used to state the properties *)

(** The character before the cursor once the text [w] has been read. *)
Fixpoint before_after (b : option ascii) (w : string) : option ascii :=
  match w with
  | EmptyString => b
  | String c w' => before_after (Some c) w'
  end.

(** No character of the class [p] begins [s]. *)
Definition stops (p : ascii -> bool) (s : string) : Prop :=
  match s with
  | String c _ => p c = false
  | EmptyString => True
  end.

(** The plurals the numeric heuristic knows (source line 115). *)
Definition known_plurals : list string :=
  ["users"; "products"; "items"; "posts"; "orders"].

(** An order is admissible when, at every site, it lists the elements of the
    set once each: that is all Python promises of a walk over a [set]. *)
Definition valid_order (order : site -> gset string -> list string) : Prop :=
  ∀ (s : site) (X : gset string), order s X ≡ₚ elements X.

(** The six buckets as a list, in the order of [found_parameters.items()]. *)
Definition buckets (p : parameters) : list (gset string) :=
  (fun c => bucket c p) <$> categories.

(** The position of a key in [found_parameters]. *)
Definition position (c : category) : nat :=
  match c with
  | UrlQuery => 0 | PathRoute => 1 | FormVisible => 2
  | FormHidden => 3 | JavaScriptLike => 4 | CommentWords => 5
  end.

(** The request failed, as the code has it: [requests.get] raised a
    [RequestException], or [raise_for_status] raised its [HTTPError], which
    it does on a status from 400 to 599 and on no other. *)
Definition fetch_fails (reply : Requests.reply) : Prop :=
  match reply with
  | Requests.Failed _ _ => True
  | Requests.Replied response => (400 ≤ Requests.status_code response < 600)%Z
  end.



(** A method that only adds names to buckets: it returns, changes nothing
    but [found_parameters], and afterwards a name is in a bucket exactly when
    it was there before or [P] holds of the bucket and the name. *)
Definition adds (P : category -> string -> Prop) (m : Run unit) : Prop :=
  ∀ st : finder,
    out (m st) = Returned tt
    ∧ url (self (m st)) = url st
    ∧ html_content (self (m st)) = html_content st
    ∧ processed_urls (self (m st)) = processed_urls st
    ∧ ∀ c name, name ∈ bucket c (found_parameters (self (m st))) ↔
                 name ∈ bucket c (found_parameters st) ∨ P c name.

(** The names the segments of a path add to [potential_path_params]. *)
Definition hints_of (path_segments : list string) : gset string :=
  list_to_set (enumerate path_segments
               ≫= fun entry => segment_hints path_segments entry.1 entry.2).

(** The names a URL adds when it is analysed: those of its path, when it
    parses. *)
Definition url_names (url_str : string) : gset string :=
  match Url.urlparse url_str with
  | Some parsed_url => hints_of (segments_of (Url.path parsed_url))
  | None => ∅
  end.

(** Two runs agree: they end the same way, with the same buckets, and in the
    same object when they return. *)
Definition agree {A : Type} (r1 r2 : result A) : Prop :=
  out r1 = out r2
  ∧ url (self r1) = url (self r2)
  ∧ found_parameters (self r1) = found_parameters (self r2)
  ∧ ∀ a, out r1 = Returned a → self r1 = self r2.

(** The fields of the form pass (source line 168). *)
Definition form_fields : list string := ["input"; "select"; "textarea"].

(** A pass is tame on a list of buckets when it returns or raises
    [ValueError] (it never calls [sys.exit]), keeps the URL and the page,
    only adds names to buckets, and leaves every bucket outside the list as
    it was. *)
Definition tame (own : list category) (m : Run unit) : Prop :=
  ∀ st : finder,
    (out (m st) = Returned tt ∨ out (m st) = Raised "ValueError")
    ∧ url (self (m st)) = url st
    ∧ html_content (self (m st)) = html_content st
    ∧ (∀ c, bucket c (found_parameters st) ⊆ bucket c (found_parameters (self (m st))))
    ∧ (∀ c, c ∉ own →
         bucket c (found_parameters (self (m st))) = bucket c (found_parameters st)).

(** A step is quiet when it returns or raises [ValueError] and leaves the
    URL, the page and every bucket as they were. *)
Definition quiet {A : Type} (m : Run A) : Prop :=
  ∀ st : finder,
    ((∃ a, out (m st) = Returned a) ∨ out (m st) = Raised "ValueError")
    ∧ url (self (m st)) = url st
    ∧ html_content (self (m st)) = html_content st
    ∧ found_parameters (self (m st)) = found_parameters st.

(** A reference the path pass harvests: the [href] of an anchor, the
    [action] of a form, or a quoted string of the scripts that is longer
    than two characters and does not begin with two slashes. *)
Definition harvested (doc : Bs4.soup) (reference : string) : Prop :=
  (∃ a_tag, a_tag ∈ Bs4.find_all_with "a" "href" doc
            ∧ Bs4.get a_tag "href" = Some reference)
  ∨ (∃ form_tag, form_tag ∈ Bs4.find_all_with "form" "action" doc
                 ∧ Bs4.get form_tag "action" = Some reference)
  ∨ (reference ∈ Re.findall1 Patterns.js_url (script_text doc)
     ∧ (2 <? PyStr.len reference)%nat && negb (PyStr.startswith reference "//") = true).

(** The set [urls_to_analyze] of a page, when harvesting raises nothing. *)
Definition urls_of_page (urljoin : string -> string -> option string) (base : string)
    (doc : Bs4.soup) (urls : gset string) : Prop :=
  ∃ urls1 urls2 st,
    out (for_each (harvest urljoin base) ∅
           (omap (fun a_tag => Bs4.get a_tag "href") (Bs4.find_all_with "a" "href" doc))
           st) = Returned urls1
    ∧ out (for_each (harvest urljoin base) urls1
             (omap (fun form_tag => Bs4.get form_tag "action")
                (Bs4.find_all_with "form" "action" doc)) st) = Returned urls2
    ∧ out (for_each (fun urls found_url =>
                       if (2 <? PyStr.len found_url)%nat
                          && negb (PyStr.startswith found_url "//")
                       then harvest urljoin base urls found_url
                       else mret urls)
             urls2 (Re.findall1 Patterns.js_url (script_text doc)) st) = Returned urls.

(** The lines the report prints for one bucket: the names are those of
    [sorted] on the set, whatever order [list] gave them in. *)
Definition report_block (p : parameters) (c : category) : list string :=
  ("--- " +:+ key c +:+ " (" +:+ pretty (size (bucket c p)) +:+ " found) ---")
  :: (if bool_decide (bucket c p = ∅) then ["  (None)"]
      else (fun name => "  - " +:+ name) <$> sorted (elements (bucket c p)))
  ++ [""].

(** Unfolds the primitive effects, so that a straight-line method computes. *)
Ltac run_unfold :=
  unfold mbind, mret, Run_bind, Run_ret, print, modify, get_self, sys_exit, raise,
    value_or_raise;
  cbn [out self printed].

(** * Properties *)

(** ** The library models on examples *)

Example urlparse_example :
  Url.urlparse "https://example.com/search;x?q=test&a=%41+b#top" =
  Some {| Url.scheme := "https"; Url.netloc := "example.com"; Url.path := "/search";
          Url.params := "x"; Url.query := "q=test&a=%41+b"; Url.fragment := "top" |}.
Proof. vm_compute. reflexivity. Qed.

Example parse_qs_example :
  Url.parse_qs "q=test&a%20=%41+b&&c&q=2&d=" = [("q", ["test"; "2"]); ("a ", ["A b"])].
Proof. vm_compute. reflexivity. Qed.

Example placeholder_braces :
  Re.match_ Patterns.explicit_placeholder "{id}" ≫= Re.group 1 = Some "id".
Proof. vm_compute. reflexivity. Qed.

Example js_param_example :
  Re.findall2 Patterns.js_param "const token = 'abc'; var x=1; o = {key : 5, this.y =2, athis.z = 3, letq=1}"
  = [("token", ""); ("x", ""); ("", "key"); ("y", ""); ("q", "")].
Proof. vm_compute. reflexivity. Qed.

Example comment_example :
  Re.findall1 Patterns.comment_assignment " debug: userId=5 a = 'x.y' 5b=1 c==2 d= " = ["userId"; "a"]
  /\ Re.findall1 Patterns.comment_word " debug: userId=5 5abc x_1" = ["debug"; "userId"; "x_1"].
Proof. vm_compute. split; reflexivity. Qed.

Example js_url_example :
  Re.findall1 Patterns.js_url "fetch('/api/v1/users'); x = 'a b'; y='/'+'//cdn.x/y.js'z'"
  = ["/api/v1/users"; "/"; "//cdn.x/y.js"].
Proof. vm_compute. reflexivity. Qed.


(** ** Strings *)

Section StringFacts.

Lemma app_nil (t : string) : "" +:+ t = t.
Proof. reflexivity. Qed.

Lemma app_cons (c : ascii) (s t : string) : String c s +:+ t = String c (s +:+ t).
Proof. reflexivity. Qed.

Lemma len_cons (c : ascii) (s : string) : PyStr.len (String c s) = S (PyStr.len s).
Proof. reflexivity. Qed.

Lemma len_app (s t : string) : PyStr.len (s +:+ t) = (PyStr.len s + PyStr.len t)%nat.
Proof.
  induction s as [|c s IH]; [reflexivity |].
  rewrite app_cons, !len_cons, IH. reflexivity.
Qed.

Lemma substring_all (s : string) : substring 0 (PyStr.len s) s = s.
Proof.
  induction s as [|c s IH]; [reflexivity |].
  rewrite len_cons. cbn [substring]. f_equal. exact IH.
Qed.

Lemma substring_app_l (s t : string) : substring 0 (PyStr.len s) (s +:+ t) = s.
Proof.
  induction s as [|c s IH].
  - rewrite app_nil. destruct t; reflexivity.
  - rewrite app_cons, len_cons. cbn [substring]. f_equal. exact IH.
Qed.

Lemma substring_app_r (s t : string) :
  substring (PyStr.len s) (PyStr.len t) (s +:+ t) = t.
Proof.
  induction s as [|c s IH]; [apply substring_all |].
  rewrite app_cons, len_cons. cbn [substring]. exact IH.
Qed.

Lemma app_cons_neq (s t : string) (c : ascii) : s ≠ s +:+ String c t.
Proof.
  intros H. apply (f_equal PyStr.len) in H. rewrite len_app, len_cons in H. lia.
Qed.

Lemma app_empty_r (s : string) : s +:+ "" = s.
Proof.
  induction s as [|c s IH]; [reflexivity |]. rewrite app_cons. f_equal. exact IH.
Qed.

Lemma app_assoc' (s t u : string) : (s +:+ t) +:+ u = s +:+ (t +:+ u).
Proof.
  induction s as [|c s IH]; [reflexivity |]. rewrite !app_cons. f_equal. exact IH.
Qed.

(** Every string is empty or ends in some character. *)
Lemma last_char (s : string) :
  s = "" ∨ ∃ stem c, s = stem +:+ String c "".
Proof.
  induction s as [|a s IH]; [left; reflexivity | right].
  destruct IH as [-> | (stem & c & ->)].
  - exists "", a. reflexivity.
  - exists (String a stem), c. reflexivity.
Qed.

Lemma among_spec (x : string) (l : list string) :
  PyStr.among x l = true ↔ x ∈ l.
Proof.
  unfold PyStr.among. rewrite existsb_exists. split.
  - intros (y & Hy & Heq). apply String.eqb_eq in Heq. subst.
    apply list_elem_of_In. exact Hy.
  - intros H. exists x. split; [apply list_elem_of_In; exact H | apply String.eqb_refl].
Qed.

Lemma among_false (x : string) (l : list string) :
  PyStr.among x l = false ↔ x ∉ l.
Proof.
  rewrite <- among_spec. destruct (PyStr.among x l); split; congruence.
Qed.

(** [s.endswith('s')] holds exactly of the strings [stem + 's']. *)
Lemma endswith_char (s : string) (c : ascii) :
  PyStr.endswith s (String c "") = true ↔ ∃ stem, s = stem +:+ String c "".
Proof.
  unfold PyStr.endswith. split.
  - intros H. apply andb_true_iff in H as [_ H]. apply String.eqb_eq in H.
    destruct (last_char s) as [-> | (stem & d & ->)]; [discriminate H |].
    exists stem. rewrite len_app, !len_cons in H. change (PyStr.len "") with 0%nat in H.
    replace (PyStr.len stem + 1 - 1)%nat with (PyStr.len stem) in H by lia.
    pose proof (substring_app_r stem (String d "")) as E.
    change (PyStr.len (String d "")) with 1%nat in E. rewrite E in H. congruence.
  - intros (stem & ->). rewrite len_app, !len_cons. change (PyStr.len "") with 0%nat.
    replace (PyStr.len stem + 1 - 1)%nat with (PyStr.len stem) by lia.
    pose proof (substring_app_r stem (String c "")) as E.
    change (PyStr.len (String c "")) with 1%nat in E. rewrite E.
    rewrite String.eqb_refl, andb_true_r. apply Nat.leb_le. lia.
Qed.

Lemma drop_last_app (stem : string) (c : ascii) :
  PyStr.drop_last (stem +:+ String c "") = stem.
Proof.
  unfold PyStr.drop_last. rewrite len_app, len_cons. change (PyStr.len "") with 0%nat.
  replace (PyStr.len stem + 1 - 1)%nat with (PyStr.len stem) by lia.
  apply substring_app_l.
Qed.

End StringFacts.

(** ** The matcher *)

Section MatcherFacts.
Context {R : Type}.


(** A star is greedy: it reads the whole run of the class when what follows
    the pattern matches there. *)
Lemma star_greedy (p : ascii -> bool) (k : Re.cursor -> option R)
    (w s : string) (b : option ascii) (x : R) :
  PyStr.all p w = true → stops p s →
  k (Re.Cursor (before_after b w) s) = Some x →
  Re.star p k b (w +:+ s) = Some x.
Proof.
  revert b. induction w as [|c w IH]; intros b Hall Hstop Hk.
  - rewrite app_nil. cbn [before_after] in Hk.
    destruct s as [|c s]; cbn [Re.star stops] in *; [exact Hk | rewrite Hstop; exact Hk].
  - rewrite app_cons. cbn [PyStr.all before_after Re.star] in *.
    apply andb_true_iff in Hall as [Hc Hall]. rewrite Hc.
    rewrite (IH (Some c) Hall Hstop Hk). reflexivity.
Qed.

End MatcherFacts.

Lemma ident_start_not_opening (a : ascii) :
  Patterns.ident_start a = true → PyStr.one_of "{:" a = false.
Proof.
  destruct a as [[] [] [] [] [] [] [] []]; vm_compute; congruence.
Qed.

(** The explicit-placeholder pattern on a segment that starts with an
    identifier [a w] followed by text [s] no identifier character begins:
    group 1 is the identifier. *)
Lemma placeholder_match_prefix (a : ascii) (w s : string) :
  Patterns.ident_start a = true → PyStr.all Patterns.ident_char w = true →
  stops Patterns.ident_char s →
  Re.match_ Patterns.explicit_placeholder (String a w +:+ s) ≫= Re.group 1
  = Some (String a w).
Proof.
  intros Ha Hw Hs.
  unfold Re.match_, Re.match_at, Patterns.explicit_placeholder.
  rewrite app_cons. cbn [Re.seq Re.run Re.ahead Re.before].
  rewrite (ident_start_not_opening a Ha), Ha.
  set (cur0 := Re.Cursor None (String a (w +:+ s))).
  assert (Hcons : ∀ b, Re.consumed cur0 (Re.Cursor b s) = String a w).
  { intros b. unfold Re.consumed, cur0. cbn [Re.ahead].
    rewrite <- app_cons, len_app.
    replace (PyStr.len (String a w) + PyStr.len s - PyStr.len s)%nat
      with (PyStr.len (String a w)) by lia.
    apply substring_app_l. }
  destruct s as [|c s'].
  - erewrite star_greedy; [| exact Hw | exact I | reflexivity].
    rewrite Hcons. reflexivity.
  - destruct (Ascii.eqb "}" c) eqn:Hc.
    + erewrite star_greedy; [| exact Hw | exact Hs |].
      2:{ cbn [Re.run Re.Chr Re.ahead]. rewrite Hc. reflexivity. }
      rewrite Hcons. reflexivity.
    + erewrite star_greedy; [| exact Hw | exact Hs |].
      2:{ cbn [Re.run Re.Chr Re.ahead]. rewrite Hc. reflexivity. }
      rewrite Hcons. reflexivity.
Qed.

(** ** Running a method *)

Section RunFacts.
Context {A B : Type}.

Lemma out_bind (m : Run A) (f : A -> Run B) (st : finder) :
  out ((m ≫= f) st) =
  match out (m st) with
  | Returned a => out (f a (self (m st)))
  | SystemExit code => SystemExit code
  | Raised e => Raised e
  end.
Proof. unfold mbind, Run_bind. destruct (out (m st)); reflexivity. Qed.

Lemma self_bind (m : Run A) (f : A -> Run B) (st : finder) :
  self ((m ≫= f) st) =
  match out (m st) with
  | Returned a => self (f a (self (m st)))
  | _ => self (m st)
  end.
Proof. unfold mbind, Run_bind. destruct (out (m st)); reflexivity. Qed.

Lemma printed_bind (m : Run A) (f : A -> Run B) (st : finder) :
  printed ((m ≫= f) st) =
  match out (m st) with
  | Returned a => printed (m st) ++ printed (f a (self (m st)))
  | _ => printed (m st)
  end.
Proof. unfold mbind, Run_bind. destruct (out (m st)); reflexivity. Qed.

(** A method that returns [a] in state [st'] hands both to what follows. *)
Lemma bind_returned (m : Run A) (f : A -> Run B) (st st' : finder) (a : A) :
  out (m st) = Returned a → self (m st) = st' →
  out ((m ≫= f) st) = out (f a st') ∧ self ((m ≫= f) st) = self (f a st').
Proof. intros Ho Hs. rewrite out_bind, self_bind, Ho, Hs. split; reflexivity. Qed.

End RunFacts.

Lemma result_eq {A : Type} (r r' : result A) :
  out r = out r' → self r = self r' → printed r = printed r' → r = r'.
Proof. destruct r, r'; cbn; congruence. Qed.

Section PrimitiveFacts.
Context {A : Type}.

Lemma out_ret (a : A) (st : finder) : out ((mret a : Run A) st) = Returned a.
Proof. reflexivity. Qed.
Lemma self_ret (a : A) (st : finder) : self ((mret a : Run A) st) = st.
Proof. reflexivity. Qed.
Lemma printed_ret (a : A) (st : finder) : printed ((mret a : Run A) st) = [].
Proof. reflexivity. Qed.
Lemma out_sys_exit (code : Z) (st : finder) : out (sys_exit (A:=A) code st) = SystemExit code.
Proof. reflexivity. Qed.
Lemma self_sys_exit (code : Z) (st : finder) : self (sys_exit (A:=A) code st) = st.
Proof. reflexivity. Qed.
Lemma printed_sys_exit (code : Z) (st : finder) : printed (sys_exit (A:=A) code st) = [].
Proof. reflexivity. Qed.
Lemma out_raise (e : string) (st : finder) : out (raise (A:=A) e st) = Raised e.
Proof. reflexivity. Qed.
Lemma self_raise (e : string) (st : finder) : self (raise (A:=A) e st) = st.
Proof. reflexivity. Qed.
Lemma value_or_raise_some (a : A) : value_or_raise (Some a) = mret a.
Proof. reflexivity. Qed.
Lemma value_or_raise_none : value_or_raise (A:=A) None = raise "ValueError".
Proof. reflexivity. Qed.

End PrimitiveFacts.

Lemma out_get_self (st : finder) : out (get_self st) = Returned st.
Proof. reflexivity. Qed.
Lemma self_get_self (st : finder) : self (get_self st) = st.
Proof. reflexivity. Qed.
Lemma printed_get_self (st : finder) : printed (get_self st) = [].
Proof. reflexivity. Qed.
Lemma out_modify (f : finder -> finder) (st : finder) : out (modify f st) = Returned tt.
Proof. reflexivity. Qed.
Lemma self_modify (f : finder -> finder) (st : finder) : self (modify f st) = f st.
Proof. reflexivity. Qed.
Lemma printed_modify (f : finder -> finder) (st : finder) : printed (modify f st) = [].
Proof. reflexivity. Qed.
Lemma out_print (text : string) (st : finder) : out (print text st) = Returned tt.
Proof. reflexivity. Qed.
Lemma self_print (text : string) (st : finder) : self (print text st) = st.
Proof. reflexivity. Qed.
Lemma printed_print (text : string) (st : finder) : printed (print text st) = [text].
Proof. reflexivity. Qed.

Create Rewrite HintDb run.
#[local] Hint Rewrite @out_bind @self_bind @printed_bind @out_ret @self_ret @printed_ret
  @out_sys_exit @self_sys_exit @printed_sys_exit @out_raise @self_raise
  @value_or_raise_some @value_or_raise_none
  out_get_self self_get_self printed_get_self out_modify self_modify printed_modify
  out_print self_print printed_print : run.

(** One step through a method: the projections of a bind and of the
    primitive effects. *)
Ltac run_step := repeat (progress (autorewrite with run; cbv beta iota)).


(** The loop body over a segment returns, leaves the object alone and adds
    exactly the names of [segment_hints]. *)
Lemma analyze_segment_spec (url_str : string) (path_segments : list string)
    (acc : gset string) (i : nat) (segment : string) (st : finder) :
  out (analyze_segment url_str path_segments acc (i, segment) st)
  = Returned (acc ∪ list_to_set (segment_hints path_segments i segment))
  ∧ self (analyze_segment url_str path_segments acc (i, segment) st) = st.
Proof.
  unfold analyze_segment, segment_hints. cbv beta iota.
  destruct (explicit_placeholder segment) as [g|],
    (numeric_hint path_segments i segment) as [h|],
    (slug_hint path_segments i segment) as [k|];
    (split; [run_unfold; f_equal; set_solver | reflexivity]).
Qed.

(** ** Path heuristics *)

(** C1 (as the code has it): for [/api/v1] the slug heuristic gives no hint
    for either segment, both being in the static stop-set; for [/css/style]
    it gives none for [css], which is in the stop-set, and gives [slug] for
    [style], which is longer than two characters and not in the stop-set. *)
Theorem slug_hints_of_static_paths :
  segments_of "/api/v1" = ["api"; "v1"]
  ∧ imap (slug_hint ["api"; "v1"]) ["api"; "v1"] = [None; None]
  ∧ Forall (fun s => PyStr.among (PyStr.lower s) common_static_segments = true)
      ["api"; "v1"]
  ∧ segments_of "/css/style" = ["css"; "style"]
  ∧ imap (slug_hint ["css"; "style"]) ["css"; "style"] = [None; Some "slug"]
  ∧ PyStr.among (PyStr.lower "css") common_static_segments = true
  ∧ PyStr.among (PyStr.lower "style") common_static_segments = false
  ∧ PyStr.len "style" = 5%nat.
Proof.
  split; [reflexivity |]. split; [reflexivity |].
  split; [repeat (constructor; [reflexivity |]); constructor |].
  repeat (split; [reflexivity |]). reflexivity.
Qed.

(** C1 as stated fails: [style], a segment of [/css/style], is neither in the
    stop-set nor of length at most two, and the slug heuristic gives a hint
    for it. *)
Lemma slug_hint_css_style_counterexample :
  ¬ (∀ (i : nat) (segment : string),
       segments_of "/css/style" !! i = Some segment →
       slug_hint (segments_of "/css/style") i segment = None
       ∧ (PyStr.among (PyStr.lower segment) common_static_segments = true
          ∨ (PyStr.len segment <= 2)%nat)).
Proof.
  intros H. destruct (H 1%nat "style" eq_refl) as [Hhint _].
  vm_compute in Hhint. discriminate Hhint.
Qed.

(** C2: on the segment [{id}] the explicit-placeholder heuristic gives [id];
    on the bare segment [id] the pattern matches with the identifier [id],
    which equals the whole segment, and the heuristic gives nothing. *)
Theorem explicit_placeholder_braces_and_bare :
  explicit_placeholder "{id}" = Some "id"
  ∧ Re.match_ Patterns.explicit_placeholder "id" ≫= Re.group 1 = Some "id"
  ∧ explicit_placeholder "id" = None.
Proof. vm_compute. repeat split. Qed.


(** C3: for a numeric segment (all digits, more than one of them) at index
    [i] of the path, the numeric heuristic gives [prev + '_id'] when the
    lower-cased previous segment [prev] is one of users, products, items,
    posts, orders; [stem + '_id'] when [prev] is not one of them and is
    [stem + 's']; and [id] otherwise, that is when there is no previous
    segment or [prev] does not end in [s]. *)
Theorem numeric_segment_hint_cases (path_segments : list string) (i : nat)
    (segment : string) :
  path_segments !! i = Some segment →
  PyStr.isdigit segment = true → (1 < PyStr.len segment)%nat →
  (∀ p, (0 < i)%nat → path_segments !! (i - 1)%nat = Some p →
        PyStr.lower p ∈ known_plurals →
        numeric_hint path_segments i segment = Some (PyStr.lower p +:+ "_id"))
  ∧ (∀ p stem, (0 < i)%nat → path_segments !! (i - 1)%nat = Some p →
        PyStr.lower p ∉ known_plurals → PyStr.lower p = stem +:+ "s" →
        numeric_hint path_segments i segment = Some (stem +:+ "_id"))
  ∧ (i = 0%nat
     ∨ (∃ p, path_segments !! (i - 1)%nat = Some p
             ∧ (PyStr.lower p ∉ known_plurals)
             ∧ ¬ (∃ stem, PyStr.lower p = stem +:+ "s")) →
     numeric_hint path_segments i segment = Some "id").
Proof.
  intros _ Hdigit Hlen. unfold numeric_hint. rewrite Hdigit.
  apply Nat.ltb_lt in Hlen. rewrite Hlen. cbn [andb].
  split; [| split].
  - intros p Hi Hp Hin. apply Nat.ltb_lt in Hi. rewrite Hi, Hp. cbn zeta.
    apply among_spec in Hin. unfold known_plurals in Hin. rewrite Hin. reflexivity.
  - intros p stem Hi Hp Hnin Hs. apply Nat.ltb_lt in Hi. rewrite Hi, Hp. cbn zeta.
    apply among_false in Hnin. unfold known_plurals in Hnin. rewrite Hnin.
    assert (He : PyStr.endswith (PyStr.lower p) "s" = true)
      by (apply endswith_char; exists stem; exact Hs).
    rewrite He, Hs, drop_last_app. reflexivity.
  - intros [-> | (p & Hp & Hnin & Hns)]; [reflexivity |].
    destruct (0 <? i)%nat; [| reflexivity]. rewrite Hp. cbn zeta.
    apply among_false in Hnin. unfold known_plurals in Hnin. rewrite Hnin.
    destruct (PyStr.endswith (PyStr.lower p) "s") eqn:He; [| reflexivity].
    apply endswith_char in He. contradiction.
Qed.

(** [/users/42] gives [users_id] and [/widgets/42] gives [widget_id]. *)
Lemma numeric_segment_hint_witness :
  numeric_hint (segments_of "/users/42") 1 "42" = Some "users_id"
  ∧ numeric_hint (segments_of "/widgets/42") 1 "42" = Some "widget_id"
  ∧ numeric_hint (segments_of "/42") 0 "42" = Some "id".
Proof.
  assert (Hlen : (1 < PyStr.len "42")%nat) by (vm_compute; lia).
  split; [| split].
  - destruct (numeric_segment_hint_cases (segments_of "/users/42") 1 "42"
                eq_refl eq_refl Hlen) as (Hknown & _ & _).
    apply (Hknown "users"); [lia | reflexivity |].
    apply among_spec. reflexivity.
  - destruct (numeric_segment_hint_cases (segments_of "/widgets/42") 1 "42"
                eq_refl eq_refl Hlen) as (_ & Hplural & _).
    apply (Hplural "widgets" "widget"); [lia | reflexivity | | reflexivity].
    apply among_false. reflexivity.
  - destruct (numeric_segment_hint_cases (segments_of "/42") 0 "42"
                eq_refl eq_refl Hlen) as (_ & _ & Hother).
    apply Hother. left. reflexivity.
Defined.

(** A segment that begins with an identifier [a w] and goes on with a
    character [c] outside [[a-zA-Z0-9_$]] makes the explicit-placeholder
    heuristic give the identifier, as for a delimited placeholder, and the
    loop body over that segment adds it to [potential_path_params]. *)
Lemma identifier_prefix_found (a c : ascii) (w rest : string)
    (url_str : string) (path_segments : list string) (i : nat)
    (acc : gset string) (st : finder) :
  Patterns.ident_start a = true → PyStr.all Patterns.ident_char w = true →
  Patterns.ident_char c = false →
  explicit_placeholder (String a w +:+ String c rest) = Some (String a w)
  ∧ ∃ found,
      out (analyze_segment url_str path_segments acc
             (i, String a w +:+ String c rest) st) = Returned found
      ∧ String a w ∈ found.
Proof.
  intros Ha Hw Hc.
  assert (He : explicit_placeholder (String a w +:+ String c rest) = Some (String a w)).
  { unfold explicit_placeholder.
    pose proof (placeholder_match_prefix a w (String c rest) Ha Hw Hc) as Hm.
    destruct (Re.match_ Patterns.explicit_placeholder (String a w +:+ String c rest))
      as [m|]; [| discriminate Hm].
    cbn in Hm. rewrite Hm.
    destruct (String.eqb_spec (String a w) (String a w +:+ String c rest)) as [E|_];
      [| reflexivity].
    exfalso. exact (app_cons_neq _ _ _ E). }
  split; [exact He |].
  destruct (analyze_segment_spec url_str path_segments acc i
              (String a w +:+ String c rest) st) as [Hout _].
  eexists. split; [exact Hout |].
  unfold segment_hints. rewrite He. set_solver.
Qed.

(** ** The buckets *)

Lemma bucket_update (c c' : category) (xs : gset string) (p : parameters) :
  bucket c' (update c xs p) = if decide (c' = c) then bucket c' p ∪ xs else bucket c' p.
Proof. destruct c, c'; reflexivity. Qed.

Lemma bucket_update_eq (c : category) (xs : gset string) (p : parameters) :
  bucket c (update c xs p) = bucket c p ∪ xs.
Proof. rewrite bucket_update. destruct (decide (c = c)); [reflexivity | congruence]. Qed.

Lemma bucket_update_ne (c c' : category) (xs : gset string) (p : parameters) :
  c' ≠ c → bucket c' (update c xs p) = bucket c' p.
Proof. intros H. rewrite bucket_update. destruct (decide (c' = c)); [congruence | reflexivity]. Qed.

(** Two records of buckets with the same six sets are equal. *)
Lemma parameters_eq (p q : parameters) :
  (∀ c, bucket c p = bucket c q) → p = q.
Proof.
  intros H. destruct p, q.
  pose proof (H UrlQuery). pose proof (H PathRoute). pose proof (H FormVisible).
  pose proof (H FormHidden). pose proof (H JavaScriptLike). pose proof (H CommentWords).
  cbn in *. congruence.
Qed.

(** Adding names one by one to a bucket, as the loops over keys and fields
    do, adds their set and touches nothing else. *)
Lemma add_each_spec (c : category) (l : list string) (st : finder) :
  let r := for_each (fun _ x => modify (update_found c {[x]})) tt l st in
  out r = Returned tt
  ∧ self r = update_found c (list_to_set l) st.
Proof.
  revert st. induction l as [|x l IH]; intros st; cbn zeta.
  - split; [reflexivity |]. destruct st as [u h p pr]. unfold update_found. cbn.
    f_equal. apply parameters_eq. intros c'. rewrite bucket_update.
    destruct (decide (c' = c)); [set_solver | reflexivity].
  - cbn [for_each]. destruct (IH (update_found c {[x]} st)) as [Ho Hs].
    rewrite out_bind, self_bind. cbn [modify out self]. split; [exact Ho |].
    rewrite Hs. destruct st as [u h p pr]. unfold update_found. cbn.
    f_equal. apply parameters_eq. intros c'. rewrite !bucket_update.
    destruct (decide (c' = c)); [set_solver | reflexivity].
Qed.

(** What the query pass does to an object whose URL parses. *)
Lemma extract_url_query_parameters_spec (st : finder) (parsed : Url.ParseResult) :
  Url.urlparse (url st) = Some parsed →
  let r := extract_url_query_parameters st in
  out r = Returned tt
  ∧ self r = update_found UrlQuery
               (list_to_set (Url.keys (Url.parse_qs (Url.query parsed)))) st.
Proof.
  intros Hp. cbn zeta. unfold extract_url_query_parameters.
  run_step. rewrite Hp. run_step.
  destruct (add_each_spec UrlQuery (Url.keys (Url.parse_qs (Url.query parsed))) st)
    as [Ho Hs].
  cbn zeta in Ho, Hs. rewrite Ho, Hs.
  destruct (Url.parse_qs (Url.query parsed)); split; reflexivity.
Qed.

(** C6: for every target URL whose query string is [a=1&b=2&a=3], the query
    pass, run on an object whose query bucket is still empty, returns and
    leaves exactly the set of [a] and [b] in that bucket: the parser keeps
    the two values of [a] under one key, and only the keys are added. *)
Theorem query_keys_collapse_duplicates (st : finder) (parsed : Url.ParseResult) :
  Url.urlparse (url st) = Some parsed →
  Url.query parsed = "a=1&b=2&a=3" →
  bucket UrlQuery (found_parameters st) = ∅ →
  Url.parse_qs (Url.query parsed) = [("a", ["1"; "3"]); ("b", ["2"])]
  ∧ out (extract_url_query_parameters st) = Returned tt
  ∧ bucket UrlQuery (found_parameters (self (extract_url_query_parameters st)))
    = {["a"; "b"]}.
Proof.
  intros Hp Hq Hempty.
  destruct (extract_url_query_parameters_spec st parsed Hp) as [Ho Hs].
  cbn zeta in Ho, Hs. rewrite Hs, Hq.
  split; [reflexivity |]. split; [exact Ho |].
  cbn [update_found found_parameters]. rewrite bucket_update_eq, Hempty.
  change (Url.keys (Url.parse_qs "a=1&b=2&a=3")) with ["a"; "b"].
  set_solver.
Qed.

Lemma query_keys_collapse_duplicates_witness :
  bucket UrlQuery (found_parameters (self (extract_url_query_parameters
    (__init__ "https://example.com/search?a=1&b=2&a=3")))) = {["a"; "b"]}.
Proof.
  exact (proj2 (proj2 (query_keys_collapse_duplicates
    (__init__ "https://example.com/search?a=1&b=2&a=3")
    {| Url.scheme := "https"; Url.netloc := "example.com"; Url.path := "/search";
       Url.params := ""; Url.query := "a=1&b=2&a=3"; Url.fragment := "" |}
    eq_refl eq_refl eq_refl))).
Defined.

(** ** Fetching *)

(** A reply fails exactly when [raise_for_status] raises. *)
Lemma fetch_fails_raise_for_status (response : Requests.Response) :
  fetch_fails (Requests.Replied response)
  ↔ is_Some (Requests.raise_for_status response).
Proof.
  unfold fetch_fails, Requests.raise_for_status.
  destruct (bool_decide (400 ≤ Requests.status_code response < 500)%Z) eqn:H4;
    [apply bool_decide_eq_true in H4; split; [eexists; reflexivity | lia] |].
  destruct (bool_decide (500 ≤ Requests.status_code response < 600)%Z) eqn:H5;
    [apply bool_decide_eq_true in H5; split; [eexists; reflexivity | lia] |].
  apply bool_decide_eq_false in H4, H5.
  split; [lia | intros [e He]; discriminate He].
Qed.




(** ** Form fields *)

Lemma nonempty_spec (s : string) : PyStr.nonempty s = true ↔ s ≠ "".
Proof. destruct s; cbn; split; congruence. Qed.

(** Where a field goes, read off its attributes. *)
Lemma classify_field_spec (element : Bs4.node) :
  (∀ name, classify_field element = Some (FormHidden, name) ↔
     Bs4.get element "name" = Some name ∧ name ≠ ""
     ∧ Bs4.name_of element = Some "input" ∧ Bs4.get element "type" = Some "hidden")
  ∧ (∀ name, classify_field element = Some (FormVisible, name) ↔
     Bs4.get element "name" = Some name ∧ name ≠ ""
     ∧ ¬ (Bs4.name_of element = Some "input" ∧ Bs4.get element "type" = Some "hidden"))
  ∧ (classify_field element = None ↔
     Bs4.get element "name" = None ∨ Bs4.get element "name" = Some "")
  ∧ (∀ c name, classify_field element = Some (c, name) → c = FormHidden ∨ c = FormVisible).
Proof.
  unfold classify_field.
  destruct (Bs4.get element "name") as [n|].
  2:{ repeat split; try discriminate; try tauto; intros; intuition discriminate. }
  destruct (PyStr.nonempty n) eqn:Hn.
  - apply nonempty_spec in Hn.
    destruct (bool_decide (Bs4.name_of element = Some "input")) eqn:Hi;
      destruct (bool_decide (Bs4.get element "type" = Some "hidden")) eqn:Ht;
      cbn [andb];
      try apply bool_decide_eq_true in Hi; try apply bool_decide_eq_false in Hi;
      try apply bool_decide_eq_true in Ht; try apply bool_decide_eq_false in Ht;
      (split; [| split; [| split]]);
      try (intros name; split; [intros [= <-] | intros (Hname & Hne & H)]);
      try (intros c name [= <- <-]);
      try (split; [discriminate | intros [H | H]; congruence]);
      try tauto; try (repeat split; solve [auto | tauto | congruence]);
      try (injection Hname as ->; try reflexivity; tauto).
  - assert (n = "") as -> by (destruct n; [reflexivity | discriminate Hn]).
    repeat split; try discriminate; try tauto; intros; intuition congruence.
Qed.

Section Adds.

Lemma adds_ret : adds (fun _ _ => False) (mret tt).
Proof. intros st. run_step. repeat split; tauto. Qed.

Lemma adds_print (text : string) : adds (fun _ _ => False) (print text).
Proof. intros st. run_step. repeat split; tauto. Qed.

Lemma adds_update (c : category) (xs : gset string) :
  adds (fun c' name => c' = c ∧ name ∈ xs) (modify (update_found c xs)).
Proof.
  intros st. run_step. repeat split; try reflexivity;
    cbn [update_found found_parameters] in *; rewrite bucket_update in *;
    destruct (decide (c0 = c)); set_solver.
Qed.

Lemma adds_weaken (P Q : category -> string -> Prop) (m : Run unit) :
  (∀ c name, P c name ↔ Q c name) → adds P m → adds Q m.
Proof.
  intros HPQ Hm st. destruct (Hm st) as (Ho & Hu & Hh & Hp & Hb).
  repeat split; try assumption; rewrite Hb, HPQ; tauto.
Qed.

Lemma adds_bind (P Q : category -> string -> Prop) (m k : Run unit) :
  adds P m → adds Q k → adds (fun c name => P c name ∨ Q c name) (m ;; k).
Proof.
  intros Hm Hk st. destruct (Hm st) as (Ho & Hu & Hh & Hp & Hb).
  destruct (Hk (self (m st))) as (Ho' & Hu' & Hh' & Hp' & Hb').
  rewrite out_bind, self_bind, Ho.
  repeat split; try congruence; rewrite Hb', Hb; tauto.
Qed.

Lemma adds_for_each {X : Type} (P : X -> category -> string -> Prop)
    (body : X -> Run unit) (l : list X) :
  (∀ x, x ∈ l → adds (P x) (body x)) →
  adds (fun c name => ∃ x, x ∈ l ∧ P x c name) (for_each (fun _ x => body x) tt l).
Proof.
  induction l as [|x l IH]; intros Hbody.
  - apply (adds_weaken (fun _ _ => False)); [| exact adds_ret].
    intros c name. split; [tauto |]. intros (x & Hx & _).
    apply not_elem_of_nil in Hx. exact Hx.
  - cbn [for_each].
    apply (adds_weaken (fun c name => P x c name ∨ ∃ y, y ∈ l ∧ P y c name)).
    + intros c name. split.
      * intros [H | (y & Hy & H)]; [exists x | exists y]; (split; [| exact H]);
          [apply list_elem_of_here | apply list_elem_of_further; exact Hy].
      * intros (y & Hy & H). apply elem_of_cons in Hy as [-> | Hy];
          [left; exact H | right; exists y; split; assumption].
    + assert (Heq : ∀ st, (body x ≫= (fun acc' : unit =>
                     for_each (fun _ x => body x) acc' l)) st
                   = (body x ;; for_each (fun _ x => body x) tt l) st).
      { intros st. unfold mbind, Run_bind. destruct (out (body x st)) as [[]| |];
          reflexivity. }
      intros st. rewrite Heq. revert st.
      apply adds_bind.
      * apply Hbody, list_elem_of_here.
      * apply IH. intros y Hy. apply Hbody, list_elem_of_further, Hy.
Qed.

End Adds.

Lemma collect_field_adds (element : Bs4.node) :
  adds (fun c name => classify_field element = Some (c, name)) (collect_field element).
Proof.
  unfold collect_field. destruct (classify_field element) as [[c n]|].
  - apply (adds_weaken (fun c' name => (c' = c ∧ name ∈ ({[n]} : gset string)) ∨ False)).
    + intros c' name. rewrite elem_of_singleton. split.
      * intros [[-> ->] | []]. reflexivity.
      * intros [= -> ->]. left. split; reflexivity.
    + apply adds_bind; [apply adds_update | apply adds_print].
  - apply (adds_weaken (fun _ _ => False)); [| exact adds_ret].
    intros c name. split; [tauto | discriminate].
Qed.

Lemma elem_of_enumerate {X : Type} (l : list X) (x : X) :
  x ∈ l ↔ ∃ i, (i, x) ∈ enumerate l.
Proof.
  unfold enumerate. split.
  - intros H. apply list_elem_of_lookup in H as [i Hi]. exists i.
    apply (elem_of_lookup_imap_2 (fun i x => (i, x)) l x i Hi).
  - intros [i H]. apply elem_of_lookup_imap in H as (j & y & [= -> ->] & Hj).
    apply list_elem_of_lookup. exists j. exact Hj.
Qed.

(** What the form pass adds: the classified fields of every form. *)
Lemma extract_form_parameters_adds (BeautifulSoup : string -> Bs4.soup)
    (st : finder) (html : string) :
  page st = Some html →
  let r := extract_form_parameters BeautifulSoup st in
  out r = Returned tt
  ∧ ∀ c name, name ∈ bucket c (found_parameters (self r)) ↔
      name ∈ bucket c (found_parameters st)
      ∨ ∃ form element,
          form ∈ Bs4.find_all "form" (BeautifulSoup html)
          ∧ element ∈ Bs4.find_all_in form_fields form
          ∧ classify_field element = Some (c, name).
Proof.
  intros Hpage. cbn zeta. unfold extract_form_parameters. run_step. rewrite Hpage.
  set (forms := Bs4.find_all "form" (BeautifulSoup html)).
  assert (Hloop : adds (fun c name => ∃ entry, entry ∈ enumerate forms ∧
             ∃ element, element ∈ Bs4.find_all_in form_fields (snd entry)
                        ∧ classify_field element = Some (c, name))
           (for_each (fun _ entry => analyze_form entry) tt (enumerate forms))).
  { apply adds_for_each. intros [i form] _. unfold analyze_form.
    apply (adds_weaken (fun c name => False ∨ ∃ element,
             element ∈ Bs4.find_all_in form_fields form
             ∧ classify_field element = Some (c, name))); [intros; cbn; tauto |].
    apply adds_bind; [apply adds_print |].
    apply adds_for_each. intros element _. apply collect_field_adds. }
  assert (Hiff : ∀ c name,
    (∃ entry, entry ∈ enumerate forms ∧
       ∃ element, element ∈ Bs4.find_all_in form_fields (snd entry)
                  ∧ classify_field element = Some (c, name))
    ↔ ∃ form element, form ∈ forms ∧ element ∈ Bs4.find_all_in form_fields form
                      ∧ classify_field element = Some (c, name)).
  { intros c name. split.
    - intros ([i form] & Hin & element & He & Hc). exists form, element.
      split; [apply elem_of_enumerate; exists i; exact Hin | split; assumption].
    - intros (form & element & Hin & He & Hc). apply elem_of_enumerate in Hin as [i Hin].
      exists (i, form). split; [exact Hin | exists element; split; assumption]. }
  destruct forms as [|form forms'] eqn:Hforms.
  - run_step. split; [reflexivity |]. intros c name. split; [tauto |].
    intros [H | (form & element & Hin & _)]; [exact H |].
    apply not_elem_of_nil in Hin. destruct Hin.
  - destruct (Hloop st) as (Ho & _ & _ & _ & Hb). split; [exact Ho |].
    intros c name. rewrite Hb, Hiff. reflexivity.
Qed.

(** C5 (as the code has it): after the form pass on a fetched page, a name
    is in the hidden bucket exactly when it was there before or it is the
    non-empty [name] of an [input] element, below some form, whose [type]
    attribute is exactly [hidden]; it is in the visible bucket exactly when
    it was there before or it is the non-empty [name] of any other
    input/select/textarea element below some form; no other bucket changes.
    A field whose [name] attribute is absent or empty goes to neither
    bucket. *)
Theorem form_fields_hidden_or_visible (BeautifulSoup : string -> Bs4.soup)
    (st : finder) (html : string) :
  page st = Some html →
  let r := extract_form_parameters BeautifulSoup st in
  let fields form := Bs4.find_all_in ["input"; "select"; "textarea"] form in
  let forms := Bs4.find_all "form" (BeautifulSoup html) in
  let hidden element :=
    Bs4.name_of element = Some "input" ∧ Bs4.get element "type" = Some "hidden" in
  out r = Returned tt
  ∧ (∀ name, name ∈ bucket FormHidden (found_parameters (self r)) ↔
       name ∈ bucket FormHidden (found_parameters st)
       ∨ ∃ form element, form ∈ forms ∧ element ∈ fields form
           ∧ Bs4.get element "name" = Some name ∧ name ≠ "" ∧ hidden element)
  ∧ (∀ name, name ∈ bucket FormVisible (found_parameters (self r)) ↔
       name ∈ bucket FormVisible (found_parameters st)
       ∨ ∃ form element, form ∈ forms ∧ element ∈ fields form
           ∧ Bs4.get element "name" = Some name ∧ name ≠ "" ∧ ¬ hidden element)
  ∧ (∀ c, c ≠ FormHidden → c ≠ FormVisible →
       bucket c (found_parameters (self r)) = bucket c (found_parameters st))
  ∧ (∀ element, Bs4.get element "name" = None ∨ Bs4.get element "name" = Some "" →
       classify_field element = None).
Proof.
  intros Hpage. cbn zeta.
  destruct (extract_form_parameters_adds BeautifulSoup st html Hpage) as [Ho Hb].
  cbn zeta in Ho, Hb. unfold form_fields in Hb.
  split; [exact Ho |]. split; [| split; [| split]].
  - intros name. rewrite Hb. split.
    + intros [H | (form & element & Hf & He & Hc)]; [left; exact H | right].
      exists form, element.
      apply (proj1 (classify_field_spec element)) in Hc. tauto.
    + intros [H | (form & element & Hf & He & Hc)]; [left; exact H | right].
      exists form, element. split; [exact Hf | split; [exact He |]].
      apply (proj1 (classify_field_spec element)). tauto.
  - intros name. rewrite Hb. split.
    + intros [H | (form & element & Hf & He & Hc)]; [left; exact H | right].
      exists form, element.
      apply (proj1 (proj2 (classify_field_spec element))) in Hc. tauto.
    + intros [H | (form & element & Hf & He & Hc)]; [left; exact H | right].
      exists form, element. split; [exact Hf | split; [exact He |]].
      apply (proj1 (proj2 (classify_field_spec element))). tauto.
  - intros c Hh Hv. apply set_eq. intros name. rewrite Hb. split; [| tauto].
    intros [H | (form & element & _ & _ & Hc)]; [exact H |].
    apply (proj2 (proj2 (proj2 (classify_field_spec element)))) in Hc.
    destruct Hc; contradiction.
  - intros element H.
    apply (proj1 (proj2 (proj2 (classify_field_spec element)))). exact H.
Qed.

(** The page of one form with a hidden token, a password box and a field
    without a name. *)
Definition login_page : Bs4.soup :=
  [Bs4.Tag "form" {["action" := "/login"]}
     [Bs4.Tag "input" {["type" := "hidden"; "name" := "csrf_token"]} [];
      Bs4.Tag "input" {["type" := "Hidden"; "name" := "shown"]} [];
      Bs4.Tag "select" {["type" := "hidden"; "name" := "choice"]} [];
      Bs4.Tag "input" {["type" := "hidden"]} []]].

Lemma form_fields_hidden_or_visible_witness :
  let r := extract_form_parameters (fun _ => login_page)
             (set_html_content "<form>" (__init__ "http://h/")) in
  "csrf_token" ∈ bucket FormHidden (found_parameters (self r))
  ∧ "shown" ∈ bucket FormVisible (found_parameters (self r))
  ∧ "choice" ∈ bucket FormVisible (found_parameters (self r)).
Proof.
  cbn zeta.
  destruct (form_fields_hidden_or_visible (fun _ => login_page)
              (set_html_content "<form>" (__init__ "http://h/")) "<form>" eq_refl)
    as (_ & Hh & Hv & _).
  cbn zeta in Hh, Hv.
  split; [| split].
  - apply Hh. right.
    exists (Bs4.Tag "form" {["action" := "/login"]}
     [Bs4.Tag "input" {["type" := "hidden"; "name" := "csrf_token"]} [];
      Bs4.Tag "input" {["type" := "Hidden"; "name" := "shown"]} [];
      Bs4.Tag "select" {["type" := "hidden"; "name" := "choice"]} [];
      Bs4.Tag "input" {["type" := "hidden"]} []]),
      (Bs4.Tag "input" {["type" := "hidden"; "name" := "csrf_token"]} []).
    split; [apply list_elem_of_here |].
    split; [apply list_elem_of_here |].
    split; [reflexivity |]. split; [discriminate |]. split; reflexivity.
  - apply Hv. right.
    exists (Bs4.Tag "form" {["action" := "/login"]}
     [Bs4.Tag "input" {["type" := "hidden"; "name" := "csrf_token"]} [];
      Bs4.Tag "input" {["type" := "Hidden"; "name" := "shown"]} [];
      Bs4.Tag "select" {["type" := "hidden"; "name" := "choice"]} [];
      Bs4.Tag "input" {["type" := "hidden"]} []]),
      (Bs4.Tag "input" {["type" := "Hidden"; "name" := "shown"]} []).
    split; [apply list_elem_of_here |].
    split; [apply list_elem_of_further, list_elem_of_here |].
    split; [reflexivity |]. split; [discriminate |].
    intros [_ H]. discriminate H.
  - apply Hv. right.
    exists (Bs4.Tag "form" {["action" := "/login"]}
     [Bs4.Tag "input" {["type" := "hidden"; "name" := "csrf_token"]} [];
      Bs4.Tag "input" {["type" := "Hidden"; "name" := "shown"]} [];
      Bs4.Tag "select" {["type" := "hidden"; "name" := "choice"]} [];
      Bs4.Tag "input" {["type" := "hidden"]} []]),
      (Bs4.Tag "select" {["type" := "hidden"; "name" := "choice"]} []).
    split; [apply list_elem_of_here |].
    split; [apply list_elem_of_further, list_elem_of_further, list_elem_of_here |].
    split; [reflexivity |]. split; [discriminate |].
    intros [H _]. discriminate H.
Defined.

(** C5 as stated fails on a field whose [name] attribute is present and
    empty: [<input type=hidden name=>] has a name attribute and is a hidden
    input, yet the guard [if name:] sends it to neither bucket. *)
Lemma empty_name_field_counterexample :
  ¬ (∀ element : Bs4.node,
       is_Some (Bs4.get element "name") →
       (Bs4.name_of element = Some "input" ∧ Bs4.get element "type" = Some "hidden"
        ↔ ∃ name, classify_field element = Some (FormHidden, name))
       ∧ (¬ (Bs4.name_of element = Some "input"
             ∧ Bs4.get element "type" = Some "hidden")
          ↔ ∃ name, classify_field element = Some (FormVisible, name))).
Proof.
  intros H.
  destruct (H (Bs4.Tag "input" {["type" := "hidden"; "name" := ""]} []))
    as [[Hh _] _].
  - exists "". reflexivity.
  - destruct Hh as [name Hname]; [split; reflexivity |]. discriminate Hname.
Qed.

(** ** The report *)

Lemma length_sorted (order : site -> gset string -> list string) (s : site)
    (X : gset string) :
  valid_order order → length (sorted (order s X)) = size X.
Proof.
  intros Hv. unfold sorted.
  rewrite (Permutation_length (merge_sort_Permutation String.le (order s X))).
  rewrite (Permutation_length (Hv s X)). reflexivity.
Qed.

(** Sorting forgets the order in which a set was listed. *)
Lemma sorted_order_irrelevant (o1 o2 : site -> gset string -> list string)
    (s : site) (X : gset string) :
  valid_order o1 → valid_order o2 → sorted (o1 s X) = sorted (o2 s X).
Proof.
  intros H1 H2. unfold sorted.
  apply (Sorted_unique String.le).
  - apply Sorted_merge_sort; apply _.
  - apply Sorted_merge_sort; apply _.
  - rewrite !merge_sort_Permutation, (H1 s X), (H2 s X). reflexivity.
Qed.

Lemma print_each_spec (l : list string) (st : finder) :
  out (for_each (fun _ param => print ("  - " +:+ param)) tt l st) = Returned tt
  ∧ self (for_each (fun _ param => print ("  - " +:+ param)) tt l st) = st.
Proof.
  revert st. induction l as [|x l IH]; intros st; [split; reflexivity |].
  cbn [for_each]. run_step. apply IH.
Qed.

Lemma report_category_spec (order : site -> gset string -> list string)
    (p : parameters) (total_found : nat) (c : category) (st : finder) :
  valid_order order →
  out (report_category order p total_found c st)
  = Returned (total_found + size (bucket c p))%nat
  ∧ self (report_category order p total_found c st) = st.
Proof.
  intros Hv. unfold report_category.
  pose proof (length_sorted order (BucketList c) (bucket c p) Hv) as Hlen.
  destruct (sorted (order (BucketList c) (bucket c p))) as [|x l] eqn:Hs.
  - run_step. cbn [length] in Hlen. rewrite <- Hlen, Nat.add_0_r. split; reflexivity.
  - run_step.
    destruct (print_each_spec (x :: l) st) as [Ho Hself].
    repeat (rewrite ?Ho, ?Hself; run_step). rewrite Hlen.
    split; reflexivity.
Qed.

Lemma report_loop_spec (order : site -> gset string -> list string)
    (p : parameters) (cs : list category) (total_found : nat) (st : finder) :
  valid_order order →
  out (for_each (report_category order p) total_found cs st)
  = Returned (total_found + sum_list ((fun c => size (bucket c p)) <$> cs))%nat
  ∧ self (for_each (report_category order p) total_found cs st) = st.
Proof.
  intros Hv. revert total_found st.
  induction cs as [|c cs IH]; intros total_found st.
  - cbn. rewrite Nat.add_0_r. split; reflexivity.
  - cbn [for_each fmap list_fmap sum_list sum_list_with].
    destruct (report_category_spec order p total_found c st Hv) as [Ho Hs].
    run_step. rewrite Ho, Hs. run_step.
    destruct (IH (total_found + size (bucket c p))%nat st) as [Ho' Hs'].
    rewrite Ho', Hs'. split; [f_equal; cbn; lia | reflexivity].
Qed.

(** The size of a union is at most the sum of the sizes, and less when two
    of the sets share an element. *)
Lemma size_union_list_le (Xs : list (gset string)) :
  (size (⋃ Xs) ≤ sum_list (size <$> Xs))%nat.
Proof.
  induction Xs as [|X Xs IH]; cbn.
  - rewrite size_empty. lia.
  - rewrite size_union_alt.
    assert (Hsub : ⋃ Xs ∖ X ⊆ ⋃ Xs) by set_solver.
    pose proof (subseteq_size _ _ Hsub) as Hle. lia.
Qed.

Lemma size_union_list_lt (Xs : list (gset string)) (i j : nat)
    (X Y : gset string) (x : string) :
  i ≠ j → Xs !! i = Some X → Xs !! j = Some Y → x ∈ X → x ∈ Y →
  (size (⋃ Xs) < sum_list (size <$> Xs))%nat.
Proof.
  assert (Hshared : ∀ (Z : gset string) (Zs : list (gset string)) k W,
            Zs !! k = Some W → x ∈ Z → x ∈ W →
            (size (⋃ (Z :: Zs)) < sum_list (size <$> Z :: Zs))%nat).
  { intros Z Zs k W Hk HZ HW. cbn. rewrite size_union_alt.
    pose proof (size_union_list_le Zs) as Hle.
    assert (Hin : x ∈ ⋃ Zs).
    { apply elem_of_union_list. exists W. split; [| exact HW].
      apply list_elem_of_lookup. exists k. exact Hk. }
    assert (Hlt : (size (⋃ Zs ∖ Z) < size (⋃ Zs))%nat).
    { apply subset_size. set_solver. }
    lia. }
  revert i j. induction Xs as [|Z Zs IH]; intros i j Hij Hi Hj HX HY;
    [discriminate Hi |].
  destruct i as [|i], j as [|j]; [congruence | | |].
  - injection Hi as ->. exact (Hshared X Zs j Y Hj HX HY).
  - injection Hj as ->. exact (Hshared Y Zs i X Hi HY HX).
  - cbn in Hi, Hj. assert (i ≠ j) by congruence.
    pose proof (IH i j ltac:(assumption) Hi Hj HX HY) as Hlt.
    cbn. rewrite size_union_alt.
    assert (Hsub : ⋃ Zs ∖ Z ⊆ ⋃ Zs) by set_solver.
    pose proof (subseteq_size _ _ Hsub) as Hle. lia.
Qed.

Lemma buckets_lookup (c : category) (p : parameters) :
  buckets p !! position c = Some (bucket c p).
Proof. destruct c; reflexivity. Qed.

Lemma position_inj (c1 c2 : category) : position c1 = position c2 → c1 = c2.
Proof. destruct c1, c2; cbn; congruence. Qed.

(** C4: the number the report prints as the total is the sum of the sizes
    of the six buckets ([report_buckets] returns it and the total line shows
    it); it is at least the size of their union, and greater as soon as one
    string is in two different buckets. *)
Theorem total_is_sum_of_bucket_sizes (order : site -> gset string -> list string)
    (st : finder) :
  valid_order order →
  let p := found_parameters st in
  let total := (size (url_query p) + size (path_route p) + size (form_visible p)
                + size (form_hidden p) + size (javascript_like p)
                + size (comment_words p))%nat in
  out (report_buckets order p st) = Returned total
  ∧ total_line total ∈ printed (display_results order st)
  ∧ (size (⋃ buckets p) ≤ total)%nat
  ∧ (∀ x c1 c2, c1 ≠ c2 → x ∈ bucket c1 p → x ∈ bucket c2 p →
       (size (⋃ buckets p) < total)%nat).
Proof.
  intros Hv. cbn zeta. set (p := found_parameters st).
  destruct (report_loop_spec order p categories 0 st Hv) as [Ho Hs].
  assert (Hsum : sum_list (size <$> buckets p)
                 = (size (url_query p) + size (path_route p) + size (form_visible p)
                    + size (form_hidden p) + size (javascript_like p)
                    + size (comment_words p))%nat) by (cbn; lia).
  assert (Hreturn : out (report_buckets order p st) = Returned (sum_list (size <$> buckets p))).
  { unfold report_buckets. rewrite Ho. reflexivity. }
  rewrite <- Hsum.
  split; [exact Hreturn |]. split; [| split].
  - unfold display_results. run_step. fold p. rewrite Hreturn. run_step.
    rewrite !elem_of_app, !list_elem_of_singleton. tauto.
  - apply size_union_list_le.
  - intros x c1 c2 Hne H1 H2.
    apply (size_union_list_lt (buckets p) (position c1) (position c2)
             (bucket c1 p) (bucket c2 p) x);
      [intros E; apply Hne, position_inj, E | apply buckets_lookup
      | apply buckets_lookup | exact H1 | exact H2].
Qed.

(** A hidden field and a comment word with the same name are counted twice. *)
Lemma total_is_sum_of_bucket_sizes_witness :
  let st := update_found CommentWords {["token"]}
              (update_found FormHidden {["token"]} (__init__ "http://h/")) in
  out (report_buckets (fun _ X => elements X) (found_parameters st) st) = Returned 2%nat
  ∧ (size (⋃ buckets (found_parameters st)) < 2)%nat.
Proof.
  cbn zeta.
  assert (Hv : valid_order (fun _ X => elements X)) by (intros s X; reflexivity).
  destruct (total_is_sum_of_bucket_sizes (fun _ X => elements X)
              (update_found CommentWords {["token"]}
                 (update_found FormHidden {["token"]} (__init__ "http://h/"))) Hv)
    as (Hreturn & _ & _ & Hlt).
  cbn zeta in Hreturn, Hlt. split.
  - exact Hreturn.
  - apply (Hlt "token" FormHidden CommentWords); [discriminate | |];
      cbn; set_solver.
Defined.

(** ** The loop over the URLs of the page *)

Lemma for_each_segments_spec (url_str : string) (path_segments : list string)
    (entries : list (nat * string)) (acc : gset string) (st : finder) :
  out (for_each (analyze_segment url_str path_segments) acc entries st)
  = Returned (acc ∪ list_to_set
                (entries ≫= fun entry => segment_hints path_segments entry.1 entry.2))
  ∧ self (for_each (analyze_segment url_str path_segments) acc entries st) = st.
Proof.
  revert acc st. induction entries as [|[i segment] entries IH]; intros acc st.
  - cbn. split; [f_equal; set_solver | reflexivity].
  - cbn [for_each].
    destruct (analyze_segment_spec url_str path_segments acc i segment st) as [Ho Hs].
    run_step. rewrite Ho, Hs. run_step.
    destruct (IH (acc ∪ list_to_set (segment_hints path_segments i segment)) st)
      as [Ho' Hs'].
    rewrite Ho', Hs'. split; [| reflexivity].
    f_equal. cbn [mbind list_bind fst snd]. rewrite list_to_set_app_L. set_solver.
Qed.

(** One turn of the loop over [urls_to_analyze]. *)
Lemma analyze_url_spec (acc : gset string) (url_str : string) (st : finder) :
  let r := analyze_url acc url_str st in
  (url_str ∈ processed_urls st → out r = Returned acc ∧ self r = st)
  ∧ ((url_str ∉ processed_urls st) → Url.urlparse url_str = None →
       out r = Raised "ValueError" ∧ self r = mark_processed url_str st)
  ∧ ((url_str ∉ processed_urls st) → is_Some (Url.urlparse url_str) →
       out r = Returned (acc ∪ url_names url_str)
       ∧ self r = mark_processed url_str st).
Proof.
  cbn zeta. unfold analyze_url, url_names. run_step.
  destruct (bool_decide (url_str ∈ processed_urls st)) eqn:Hin.
  - apply bool_decide_eq_true in Hin. run_step.
    split; [intros _; split; reflexivity |]. split; intros Hn; contradiction.
  - apply bool_decide_eq_false in Hin. run_step.
    split; [intros H; contradiction |].
    destruct (Url.urlparse url_str) as [parsed|].
    + split; [intros _ H; discriminate H |]. intros _ _. run_step.
      apply for_each_segments_spec.
    + split; [intros _ _; run_step; split; reflexivity |].
      intros _ [x H]. discriminate H.
Qed.

Lemma analyze_urls_spec (l : list string) (acc : gset string) (st : finder) :
  let r := for_each analyze_url acc l st in
  url (self r) = url st
  ∧ html_content (self r) = html_content st
  ∧ found_parameters (self r) = found_parameters st
  ∧ (Exists (fun u => (u ∉ processed_urls st) ∧ Url.urlparse u = None) l →
       out r = Raised "ValueError")
  ∧ (Forall (fun u => u ∈ processed_urls st ∨ is_Some (Url.urlparse u)) l →
       ∃ R, out r = Returned R
            ∧ processed_urls (self r) = processed_urls st ∪ list_to_set l
            ∧ ∀ x, x ∈ R ↔
                x ∈ acc ∨ ∃ u, u ∈ l ∧ (u ∉ processed_urls st) ∧ x ∈ url_names u).
Proof.
  cbn zeta. revert acc st. induction l as [|u l IH]; intros acc st.
  - cbn [for_each]. run_step. repeat split; try reflexivity.
    + intros H. inversion H.
    + intros _. exists acc. split; [reflexivity |]. split; [set_solver |].
      intros x. split; [tauto |]. intros [H | (v & Hv & _)]; [exact H |].
      apply not_elem_of_nil in Hv. destruct Hv.
  - cbn [for_each]. run_step.
    destruct (analyze_url_spec acc u st) as (Hseen & Hbad & Hgood). cbn zeta in *.
    destruct (decide (u ∈ processed_urls st)) as [Hin | Hin].
    + destruct (Hseen Hin) as [Ho Hs]. rewrite Ho, Hs.
      destruct (IH acc st) as (Hu & Hh & Hf & Hex & Hall).
      split; [exact Hu |]. split; [exact Hh |]. split; [exact Hf |]. split.
      * intros H. apply Hex. apply Exists_cons in H as [[Hn _] | H];
          [contradiction | exact H].
      * intros H. apply Forall_cons in H as [_ H].
        destruct (Hall H) as (R & HR & Hp & Hx). exists R.
        split; [exact HR |]. split; [rewrite Hp; set_solver |].
        intros x. rewrite Hx. split.
        -- intros [Ha | (v & Hv & Hnv & Hxv)]; [left; exact Ha | right].
           exists v. split; [apply list_elem_of_further, Hv | tauto].
        -- intros [Ha | (v & Hv & Hnv & Hxv)]; [left; exact Ha | right].
           apply elem_of_cons in Hv as [-> | Hv]; [contradiction |].
           exists v. tauto.
    + destruct (Url.urlparse u) as [parsed|] eqn:Hparse.
      * destruct (Hgood Hin ltac:(eexists; reflexivity)) as [Ho Hs]. rewrite Ho, Hs.
        destruct (IH (acc ∪ url_names u) (mark_processed u st))
          as (Hu & Hh & Hf & Hex & Hall).
        split; [exact Hu |]. split; [exact Hh |]. split; [exact Hf |].
        cbn [mark_processed processed_urls] in Hex, Hall. split.
        -- intros H. apply Hex. apply Exists_cons in H as [[_ Hn] | H];
             [congruence |].
           apply Exists_exists in H as (v & Hv & Hnv & Hpv).
           apply Exists_exists. exists v. split; [exact Hv |]. split; [| exact Hpv].
           intros Hv'. apply elem_of_union in Hv' as [Hv' | Hv']; [contradiction |].
           apply elem_of_singleton in Hv'. congruence.
        -- intros H. apply Forall_cons in H as [_ H].
           assert (Hall' : Forall (fun v => v ∈ processed_urls st ∪ {[u]}
                                            ∨ is_Some (Url.urlparse v)) l).
           { eapply Forall_impl; [exact H |]. cbn. intros v [Hv | Hv];
               [left; set_solver | right; exact Hv]. }
           destruct (Hall Hall') as (R & HR & Hp & Hx). exists R.
           split; [exact HR |]. split; [rewrite Hp; set_solver |].
           intros x. rewrite Hx. split.
           ++ intros [Ha | (v & Hv & Hnv & Hxv)].
              ** apply elem_of_union in Ha as [Ha | Ha]; [left; exact Ha | right].
                 exists u. split; [apply list_elem_of_here | tauto].
              ** right. exists v. split; [apply list_elem_of_further, Hv |].
                 split; [set_solver | exact Hxv].
           ++ intros [Ha | (v & Hv & Hnv & Hxv)]; [left; set_solver |].
              destruct (decide (v = u)) as [-> | Hne]; [left; set_solver |].
              apply elem_of_cons in Hv as [-> | Hv]; [congruence |].
              right. exists v. split; [exact Hv |]. split; [set_solver | exact Hxv].
      * destruct (Hbad Hin eq_refl) as [Ho Hs]. rewrite Ho, Hs.
        split; [reflexivity |]. split; [reflexivity |]. split; [reflexivity |].
        split; [intros _; reflexivity |].
        intros H. apply Forall_cons in H as [[H | [x H]] _];
          [contradiction | congruence].
Qed.

(** ** Two runs that walk their sets in different orders *)

Section Agree.
Context {A B : Type}.

Lemma agree_refl (r : result A) : agree r r.
Proof. repeat split. Qed.

(** Runs that agree so far and go on with methods that agree still agree. *)
Lemma agree_bind (m1 m2 : Run A) (f1 f2 : A -> Run B) (st : finder) :
  agree (m1 st) (m2 st) →
  (∀ a st', agree (f1 a st') (f2 a st')) →
  agree ((m1 ≫= f1) st) ((m2 ≫= f2) st).
Proof.
  intros (Ho & Hu & Hf & Hs) Hk. unfold agree.
  rewrite !out_bind, !self_bind, <- Ho.
  destruct (out (m1 st)) as [a | code | e] eqn:Hout.
  - rewrite <- (Hs a eq_refl). apply Hk.
  - repeat split; try assumption. intros a H. discriminate H.
  - repeat split; try assumption. intros a H. discriminate H.
Qed.

(** What a progress line says does not matter to what follows. *)
Lemma agree_print (t1 t2 : string) (k : Run A) (st : finder) :
  agree ((print t1 ;; k) st) ((print t2 ;; k) st).
Proof. unfold agree. run_step. repeat split. Qed.

End Agree.

Lemma bad_or_good (P : gset string) (l : list string) :
  Exists (fun u => (u ∉ P) ∧ Url.urlparse u = None) l
  ∨ Forall (fun u => u ∈ P ∨ is_Some (Url.urlparse u)) l.
Proof.
  induction l as [|u l [IH | IH]].
  - right. constructor.
  - left. apply Exists_cons. right. exact IH.
  - destruct (decide (u ∈ P)) as [Hin | Hin].
    + right. constructor; [left; exact Hin | exact IH].
    + destruct (Url.urlparse u) as [parsed|] eqn:Hp.
      * right. constructor; [right; rewrite Hp; eexists; reflexivity | exact IH].
      * left. apply Exists_cons. left. split; assumption.
Qed.

(** The loop over [urls_to_analyze] ends the same way, with the same names,
    in whatever order the set is walked. *)
Lemma analyze_urls_agree (l1 l2 : list string) (acc : gset string) (st : finder) :
  l1 ≡ₚ l2 →
  agree (for_each analyze_url acc l1 st) (for_each analyze_url acc l2 st).
Proof.
  intros Hperm.
  destruct (analyze_urls_spec l1 acc st) as (Hu1 & Hh1 & Hf1 & Hex1 & Hall1).
  destruct (analyze_urls_spec l2 acc st) as (Hu2 & Hh2 & Hf2 & Hex2 & Hall2).
  cbn zeta in *.
  assert (Hmem : ∀ u, u ∈ l1 ↔ u ∈ l2) by (intros u; rewrite Hperm; reflexivity).
  destruct (bad_or_good (processed_urls st) l1) as [Hbad | Hgood].
  - assert (Hbad2 : Exists (fun u => (u ∉ processed_urls st) ∧ Url.urlparse u = None) l2).
    { apply Exists_exists in Hbad as (u & Hin & H). apply Exists_exists.
      exists u. split; [apply Hmem, Hin | exact H]. }
    unfold agree. rewrite (Hex1 Hbad), (Hex2 Hbad2).
    split; [reflexivity |]. split; [congruence |]. split; [congruence |].
    intros a H. discriminate H.
  - assert (Hgood2 : Forall (fun u => u ∈ processed_urls st ∨ is_Some (Url.urlparse u)) l2).
    { rewrite Forall_forall in Hgood |- *. intros u Hin. apply Hgood, Hmem, Hin. }
    destruct (Hall1 Hgood) as (R1 & HR1 & Hp1 & Hx1).
    destruct (Hall2 Hgood2) as (R2 & HR2 & Hp2 & Hx2).
    assert (HR : R1 = R2).
    { apply set_eq. intros x. rewrite Hx1, Hx2. split;
        (intros [H | (u & Hin & H)]; [left; exact H | right]);
        exists u; (split; [apply Hmem, Hin | exact H]). }
    assert (Hself : self (for_each analyze_url acc l1 st)
                    = self (for_each analyze_url acc l2 st)).
    { destruct (self (for_each analyze_url acc l1 st)) as [u1 h1 f1 p1],
               (self (for_each analyze_url acc l2 st)) as [u2 h2 f2 p2].
      cbn in *. f_equal; try congruence.
      rewrite Hp1, Hp2. f_equal. apply set_eq. intros x.
      rewrite !elem_of_list_to_set. apply Hmem. }
    unfold agree. rewrite HR1, HR2, HR.
    split; [reflexivity |]. split; [congruence |]. split; [congruence |].
    intros _ _. exact Hself.
Qed.

Section Orders.
Variable BeautifulSoup : string -> Bs4.soup.
Variable urljoin : string -> string -> option string.
Variables o1 o2 : site -> gset string -> list string.
Hypothesis valid1 : valid_order o1.
Hypothesis valid2 : valid_order o2.

Lemma orders_permuted (s : site) (X : gset string) : o1 s X ≡ₚ o2 s X.
Proof. rewrite (valid1 s X), (valid2 s X). reflexivity. Qed.

Lemma path_pass_agree (st : finder) :
  agree (extract_potential_path_parameters BeautifulSoup urljoin o1 st)
        (extract_potential_path_parameters BeautifulSoup urljoin o2 st).
Proof.
  unfold extract_potential_path_parameters.
  apply agree_bind; [apply agree_refl |]. intros st0 st1.
  destruct (page st0) as [html|]; [| apply agree_refl].
  apply agree_bind; [apply agree_refl |]. intros urls st2.
  apply agree_bind; [apply agree_refl |]. intros urls' st3.
  apply agree_bind; [apply agree_refl |]. intros urls_to_analyze st4.
  apply agree_bind; [apply agree_refl |]. intros [] st5.
  apply agree_bind; [apply analyze_urls_agree, orders_permuted |].
  intros potential st6.
  destruct (bool_decide (potential = ∅)); [apply agree_refl |].
  apply agree_print.
Qed.

Lemma js_pass_agree (st : finder) :
  agree (extract_js_parameters BeautifulSoup o1 st)
        (extract_js_parameters BeautifulSoup o2 st).
Proof.
  unfold extract_js_parameters.
  apply agree_bind; [apply agree_refl |]. intros st0 st1.
  destruct (page st0) as [html|]; [| apply agree_refl].
  destruct (Bs4.find_all "script" (BeautifulSoup html)); [apply agree_refl |].
  destruct (bool_decide (js_names (script_text (BeautifulSoup html)) = ∅));
    [apply agree_refl | apply agree_print].
Qed.

Lemma comment_pass_agree (st : finder) :
  agree (extract_comment_parameters BeautifulSoup o1 st)
        (extract_comment_parameters BeautifulSoup o2 st).
Proof.
  unfold extract_comment_parameters.
  apply agree_bind; [apply agree_refl |]. intros st0 st1.
  destruct (page st0) as [html|]; [| apply agree_refl].
  destruct (Bs4.find_comments (BeautifulSoup html)) as [|comment comments];
    [apply agree_refl |].
  destruct (bool_decide (foldl comment_names ∅ (comment :: comments) = ∅));
    [apply agree_refl | apply agree_print].
Qed.

End Orders.

(** A loop whose bodies do the same does the same. *)
Lemma for_each_ext {X Y : Type} (body1 body2 : Y -> X -> Run Y) (l : list X) :
  (∀ acc x st, body1 acc x st = body2 acc x st) →
  ∀ acc st, for_each body1 acc l st = for_each body2 acc l st.
Proof.
  intros Hbody. induction l as [|x l IH]; intros acc st; [reflexivity |].
  cbn [for_each]. unfold mbind, Run_bind. rewrite Hbody.
  destruct (out (body2 acc x st)); [rewrite IH |..]; reflexivity.
Qed.

(** The report is the same in whatever order the buckets are listed: each
    list is sorted before it is printed. *)
Lemma display_results_order_irrelevant (o1 o2 : site -> gset string -> list string)
    (st : finder) :
  valid_order o1 → valid_order o2 →
  display_results o1 st = display_results o2 st.
Proof.
  intros H1 H2.
  assert (Hloop : ∀ p total st', report_buckets o1 p st' = report_buckets o2 p st'
            ∧ ∀ c, report_category o1 p total c st' = report_category o2 p total c st').
  { intros p total st'. split.
    - unfold report_buckets. apply for_each_ext. intros acc c st''.
      unfold report_category.
      rewrite (sorted_order_irrelevant o1 o2 (BucketList c) (bucket c p) H1 H2).
      reflexivity.
    - intros c. unfold report_category.
      rewrite (sorted_order_irrelevant o1 o2 (BucketList c) (bucket c p) H1 H2).
      reflexivity. }
  unfold display_results.
  apply result_eq; run_step;
    rewrite (proj1 (Hloop (found_parameters st) 0%nat st)); reflexivity.
Qed.

Lemma display_results_self (order : site -> gset string -> list string) (st : finder) :
  valid_order order →
  out (display_results order st) = Returned tt ∧ self (display_results order st) = st.
Proof.
  intros Hv. unfold display_results, report_buckets.
  destruct (report_loop_spec order (found_parameters st) categories 0 st Hv) as [Ho Hs].
  run_step. rewrite Ho. run_step. rewrite Hs. split; reflexivity.
Qed.

(** When a sequence returns, its first part returned and its output is the
    output of the first part followed by that of the rest. *)
Lemma bind_returned_inv {A B : Type} (m : Run A) (f : A -> Run B) (st : finder) (b : B) :
  out ((m ≫= f) st) = Returned b →
  ∃ a, out (m st) = Returned a
       ∧ out (f a (self (m st))) = Returned b
       ∧ self ((m ≫= f) st) = self (f a (self (m st)))
       ∧ printed ((m ≫= f) st) = printed (m st) ++ printed (f a (self (m st))).
Proof.
  rewrite out_bind, self_bind, printed_bind.
  destruct (out (m st)) as [a | code | e]; [| discriminate | discriminate].
  intros H. exists a. repeat split. exact H.
Qed.

Section WholeRun.
Variable requests_get : string -> Requests.reply.
Variable BeautifulSoup : string -> Bs4.soup.
Variable urljoin : string -> string -> option string.

(** Two runs that differ only in the order of their walks agree. *)
Lemma find_all_parameters_agree (o1 o2 : site -> gset string -> list string)
    (st : finder) :
  valid_order o1 → valid_order o2 →
  agree (find_all_parameters requests_get BeautifulSoup urljoin o1 st)
        (find_all_parameters requests_get BeautifulSoup urljoin o2 st).
Proof.
  intros H1 H2. unfold find_all_parameters.
  apply agree_bind; [apply agree_refl |]. intros [] st1.
  apply agree_bind; [apply agree_refl |]. intros [] st2.
  apply agree_bind; [apply path_pass_agree; assumption |]. intros [] st3.
  apply agree_bind; [apply agree_refl |]. intros [] st4.
  apply agree_bind; [apply js_pass_agree |]. intros [] st5.
  apply agree_bind; [apply comment_pass_agree |]. intros [] st6.
  rewrite (display_results_order_irrelevant o1 o2 st6 H1 H2). apply agree_refl.
Qed.

(** The output of a run that returns ends in the report on the object the
    run leaves. *)
Lemma output_ends_in_report (o : site -> gset string -> list string) (st : finder) :
  valid_order o →
  out (find_all_parameters requests_get BeautifulSoup urljoin o st) = Returned tt →
  ∃ progress,
    printed (find_all_parameters requests_get BeautifulSoup urljoin o st)
    = progress ++ printed (display_results o
        (self (find_all_parameters requests_get BeautifulSoup urljoin o st))).
Proof.
  intros Hv Hout. unfold find_all_parameters in *.
  apply bind_returned_inv in Hout as ([] & _ & Hout & -> & ->).
  apply bind_returned_inv in Hout as ([] & _ & Hout & -> & ->).
  apply bind_returned_inv in Hout as ([] & _ & Hout & -> & ->).
  apply bind_returned_inv in Hout as ([] & _ & Hout & -> & ->).
  apply bind_returned_inv in Hout as ([] & _ & Hout & -> & ->).
  apply bind_returned_inv in Hout as ([] & _ & Hout & -> & ->).
  rewrite (proj2 (display_results_self o _ Hv)).
  eexists. rewrite !app_assoc. reflexivity.
Qed.

End WholeRun.

(** C8: two runs on the same URL and the same reply, which may walk every
    set in a different order, end the same way and with the same six
    buckets; when they return, they leave the same object and both outputs
    end in the same report (the sorted lines of each bucket and the
    total). *)
Theorem pipeline_is_deterministic (requests_get : string -> Requests.reply)
    (BeautifulSoup : string -> Bs4.soup) (urljoin : string -> string -> option string)
    (o1 o2 : site -> gset string -> list string) (st : finder) :
  valid_order o1 → valid_order o2 →
  let r1 := find_all_parameters requests_get BeautifulSoup urljoin o1 st in
  let r2 := find_all_parameters requests_get BeautifulSoup urljoin o2 st in
  out r1 = out r2
  ∧ found_parameters (self r1) = found_parameters (self r2)
  ∧ (out r1 = Returned tt →
       self r1 = self r2
       ∧ ∃ progress1 progress2 report,
           printed r1 = progress1 ++ report
           ∧ printed r2 = progress2 ++ report
           ∧ report = printed (display_results o1 (self r1))
           ∧ report = printed (display_results o2 (self r2))).
Proof.
  intros H1 H2.
  pose proof (find_all_parameters_agree requests_get BeautifulSoup urljoin o1 o2 st H1 H2)
    as (Ho & _ & Hf & Hs).
  pose proof (output_ends_in_report requests_get BeautifulSoup urljoin o1 st H1) as Hp1.
  pose proof (output_ends_in_report requests_get BeautifulSoup urljoin o2 st H2) as Hp2.
  revert Ho Hf Hs Hp1 Hp2.
  generalize (find_all_parameters requests_get BeautifulSoup urljoin o1 st).
  generalize (find_all_parameters requests_get BeautifulSoup urljoin o2 st).
  intros r2 r1 Ho Hf Hs Hp1 Hp2. cbv zeta.
  split; [exact Ho |]. split; [exact Hf |].
  intros Hret. pose proof (Hs tt Hret) as Hself.
  split; [exact Hself |].
  destruct (Hp1 Hret) as [progress1 E1].
  assert (Hret2 : out r2 = Returned tt) by (rewrite <- Ho; exact Hret).
  destruct (Hp2 Hret2) as [progress2 E2].
  assert (Hreport : printed (display_results o1 (self r1))
                    = printed (display_results o2 (self r2))).
  { rewrite <- Hself. rewrite (display_results_order_irrelevant o1 o2 (self r1) H1 H2).
    reflexivity. }
  exists progress1, progress2, (printed (display_results o1 (self r1))).
  split; [exact E1 |]. split; [| split; [reflexivity | exact Hreport]].
  rewrite Hreport. exact E2.
Qed.

(** Walking every set forwards or backwards gives the same buckets. *)
Lemma pipeline_is_deterministic_witness :
  let reply := fun _ : string =>
    Requests.Replied {| Requests.status_code := 200; Requests.reason := "OK";
                        Requests.url := "http://h/?q=1"; Requests.text := "<a>" |} in
  let soup := fun _ : string =>
    [Bs4.Tag "a" {["href" := "/users/42"]} [];
     Bs4.Tag "a" {["href" := "/css/style.css"]} []] in
  let join := fun _ reference : string => Some ("http://h" +:+ reference) in
  found_parameters (self (find_all_parameters reply soup join
                            (fun _ X => elements X) (__init__ "http://h/?q=1")))
  = found_parameters (self (find_all_parameters reply soup join
                              (fun _ X => reverse (elements X)) (__init__ "http://h/?q=1"))).
Proof.
  cbv zeta.
  refine (proj1 (proj2 (pipeline_is_deterministic _ _ _
            (fun _ X => elements X) (fun _ X => reverse (elements X))
            (__init__ "http://h/?q=1") _ _))).
  - intros s X. reflexivity.
  - intros s X. apply reverse_Permutation.
Defined.

(** ** From a link on the page to the Path/Route bucket *)

Section Harvest.
Variable urljoin : string -> string -> option string.

Lemma harvest_spec (base : string) (urls : gset string) (reference : string)
    (st : finder) :
  out (harvest urljoin base urls reference st)
  = match urljoin base reference with
    | Some resolved => Returned (urls ∪ {[resolved]})
    | None => Raised "ValueError"
    end
  ∧ self (harvest urljoin base urls reference st) = st.
Proof.
  unfold harvest. destruct (urljoin base reference); run_step; split; reflexivity.
Qed.

(** A harvesting loop that returns keeps what was collected and adds every
    resolved reference whose test [keep] passes; it leaves the object
    alone. *)
Lemma harvest_loop_spec (keep : string -> bool) (base : string)
    (references : list string) (acc : gset string) (st : finder) :
  let r := for_each (fun urls reference =>
                       if keep reference then harvest urljoin base urls reference
                       else mret urls) acc references st in
  self r = st
  ∧ ∀ R, out r = Returned R →
      acc ⊆ R
      ∧ ∀ reference resolved,
          reference ∈ references → keep reference = true →
          urljoin base reference = Some resolved → resolved ∈ R.
Proof.
  cbn zeta. revert acc. induction references as [|x l IH]; intros acc.
  - cbn [for_each]. run_step. split; [reflexivity |]. intros R [= <-].
    split; [reflexivity |]. intros reference resolved H.
    apply not_elem_of_nil in H. destruct H.
  - cbn [for_each]. run_step.
    destruct (keep x) eqn:Hkeep.
    + destruct (harvest_spec base acc x st) as [Ho Hs]. rewrite Ho, Hs.
      destruct (urljoin base x) as [u|] eqn:Hjoin.
      * destruct (IH (acc ∪ {[u]})) as [Hs' HR]. split; [exact Hs' |].
        intros R Hout. destruct (HR R Hout) as [Hsub Hall].
        split; [set_solver |]. intros reference resolved Hin Hk Hj.
        apply elem_of_cons in Hin as [-> | Hin]; [| exact (Hall _ _ Hin Hk Hj)].
        assert (resolved = u) as -> by congruence. set_solver.
      * split; [reflexivity |]. intros R H. discriminate H.
    + run_step. destruct (IH acc) as [Hs HR]. split; [exact Hs |].
      intros R Hout. destruct (HR R Hout) as [Hsub Hall].
      split; [exact Hsub |]. intros reference resolved Hin Hk Hj.
      apply elem_of_cons in Hin as [-> | Hin]; [congruence |].
      exact (Hall _ _ Hin Hk Hj).
Qed.

End Harvest.

(** * Further properties of the code *)

(** ** The explicit-placeholder heuristic in general (source lines 102-106) *)

(** The pattern on an identifier [a w] that follows an opening brace or
    colon: group 1 is the identifier. *)
Lemma placeholder_match_opened (o a : ascii) (w s : string) :
  PyStr.one_of "{:" o = true →
  Patterns.ident_start a = true → PyStr.all Patterns.ident_char w = true →
  stops Patterns.ident_char s →
  Re.match_ Patterns.explicit_placeholder (String o (String a w +:+ s)) ≫= Re.group 1
  = Some (String a w).
Proof.
  intros Ho Ha Hw Hs.
  unfold Re.match_, Re.match_at, Patterns.explicit_placeholder.
  rewrite app_cons. cbn [Re.seq Re.run Re.ahead Re.before].
  rewrite Ho. cbn [Re.ahead Re.before]. rewrite Ha.
  set (cur0 := Re.Cursor (Some o) (String a (w +:+ s))).
  assert (Hcons : ∀ b, Re.consumed cur0 (Re.Cursor b s) = String a w).
  { intros b. unfold Re.consumed, cur0. cbn [Re.ahead].
    rewrite <- app_cons, len_app.
    replace (PyStr.len (String a w) + PyStr.len s - PyStr.len s)%nat
      with (PyStr.len (String a w)) by lia.
    apply substring_app_l. }
  destruct s as [|c s'].
  - erewrite star_greedy; [| exact Hw | exact I | reflexivity].
    rewrite Hcons. reflexivity.
  - destruct (Ascii.eqb "}" c) eqn:Hc.
    + erewrite star_greedy; [| exact Hw | exact Hs |].
      2:{ cbn [Re.run Re.Chr Re.ahead]. rewrite Hc. reflexivity. }
      rewrite Hcons. reflexivity.
    + erewrite star_greedy; [| exact Hw | exact Hs |].
      2:{ cbn [Re.run Re.Chr Re.ahead]. rewrite Hc. reflexivity. }
      rewrite Hcons. reflexivity.
Qed.

Lemma explicit_placeholder_of_group (segment g : string) :
  Re.match_ Patterns.explicit_placeholder segment ≫= Re.group 1 = Some g →
  explicit_placeholder segment = if String.eqb g segment then None else Some g.
Proof.
  unfold explicit_placeholder. intros H.
  destruct (Re.match_ Patterns.explicit_placeholder segment) as [m|]; [| discriminate H].
  cbn in H. rewrite H. destruct (String.eqb g segment); reflexivity.
Qed.

(** For every identifier [a w]: the segments [{a w}], [:a w] and the
    unclosed [{a w] all give the identifier; so does the identifier followed
    by any text it cannot absorb; the bare identifier gives nothing. *)
Theorem explicit_placeholder_on_identifiers (a : ascii) (w s : string) :
  Patterns.ident_start a = true → PyStr.all Patterns.ident_char w = true →
  stops Patterns.ident_char s →
  (∀ o, PyStr.one_of "{:" o = true →
        explicit_placeholder (String o (String a w +:+ s)) = Some (String a w))
  ∧ explicit_placeholder (String a w +:+ s)
    = match s with EmptyString => None | _ => Some (String a w) end.
Proof.
  intros Ha Hw Hs. split.
  - intros o Ho.
    rewrite (explicit_placeholder_of_group _ _ (placeholder_match_opened o a w s Ho Ha Hw Hs)).
    destruct (String.eqb_spec (String a w) (String o (String a w +:+ s))) as [E|_];
      [| reflexivity].
    exfalso. apply (f_equal PyStr.len) in E.
    rewrite (len_cons o), len_app in E. lia.
  - rewrite (explicit_placeholder_of_group _ _ (placeholder_match_prefix a w s Ha Hw Hs)).
    destruct s as [|c s'].
    + rewrite app_empty_r, String.eqb_refl. reflexivity.
    + destruct (String.eqb_spec (String a w) (String a w +:+ String c s')) as [E|_];
        [| reflexivity].
      exfalso. exact (app_cons_neq _ _ _ E).
Qed.

Lemma explicit_placeholder_on_identifiers_witness :
  explicit_placeholder "{user_id}" = Some "user_id"
  ∧ explicit_placeholder ":slug" = Some "slug"
  ∧ explicit_placeholder "{id" = Some "id"
  ∧ explicit_placeholder "user_id" = None.
Proof.
  destruct (explicit_placeholder_on_identifiers "u" "ser_id" "}" eq_refl eq_refl eq_refl)
    as [Hbrace _].
  destruct (explicit_placeholder_on_identifiers "s" "lug" "" eq_refl eq_refl I)
    as [Hcolon _].
  destruct (explicit_placeholder_on_identifiers "i" "d" "" eq_refl eq_refl I)
    as [Hopen _].
  destruct (explicit_placeholder_on_identifiers "u" "ser_id" "" eq_refl eq_refl I)
    as [_ Hbare].
  split; [exact (Hbrace "{"%char eq_refl) |].
  split; [exact (Hcolon ":"%char eq_refl) |].
  split; [exact (Hopen "{"%char eq_refl) | exact Hbare].
Defined.

(** ** Numeric segments (source lines 103-129) *)

Lemma digit_not_ident_start (d : ascii) :
  PyStr.is_digit d = true →
  Patterns.ident_start d = false ∧ PyStr.one_of "{:" d = false.
Proof. destruct d as [[] [] [] [] [] [] [] []]; vm_compute; intros H; split; congruence. Qed.

(** A purely numeric segment triggers neither the explicit-placeholder nor
    the slug heuristic: it adds its [..._id] hint when it has more than one
    digit and nothing at all when it is a single digit. *)
Theorem numeric_segment_adds_only_its_id (path_segments : list string) (i : nat)
    (segment : string) :
  PyStr.isdigit segment = true →
  explicit_placeholder segment = None
  ∧ slug_hint path_segments i segment = None
  ∧ segment_hints path_segments i segment
    = option_list (numeric_hint path_segments i segment)
  ∧ (PyStr.len segment = 1%nat → segment_hints path_segments i segment = [])
  ∧ ((1 < PyStr.len segment)%nat →
       ∃ hint, segment_hints path_segments i segment = [hint]
               ∧ (hint = "id" ∨ ∃ stem, hint = stem +:+ "_id")).
Proof.
  intros Hd.
  assert (He : explicit_placeholder segment = None).
  { destruct segment as [|d rest]; [discriminate Hd |].
    cbn [PyStr.isdigit PyStr.all] in Hd. apply andb_true_iff in Hd as [Hd _].
    destruct (digit_not_ident_start d Hd) as [Hs Ho].
    unfold explicit_placeholder, Re.match_, Re.match_at, Patterns.explicit_placeholder.
    cbn [Re.seq Re.run Re.ahead Re.before]. rewrite Ho, Hs. reflexivity. }
  assert (Hs : slug_hint path_segments i segment = None).
  { unfold slug_hint. rewrite Hd. cbn [negb]. rewrite andb_false_r. reflexivity. }
  split; [exact He |]. split; [exact Hs |].
  assert (Hh : segment_hints path_segments i segment
               = option_list (numeric_hint path_segments i segment)).
  { unfold segment_hints. rewrite He, Hs. cbn [option_list app]. apply app_nil_r. }
  split; [exact Hh |]. split.
  - intros Hlen. rewrite Hh. unfold numeric_hint. rewrite Hd, Hlen. reflexivity.
  - intros Hlen. rewrite Hh. unfold numeric_hint. rewrite Hd.
    apply Nat.ltb_lt in Hlen. rewrite Hlen. cbn [andb option_list].
    eexists. split; [reflexivity |].
    destruct (0 <? i)%nat; [| left; reflexivity].
    destruct (path_segments !! (i - 1)%nat) as [p|]; [| left; reflexivity].
    cbn zeta.
    destruct (PyStr.among _ _); [right; eexists; reflexivity |].
    destruct (PyStr.endswith _ _); [right; eexists; reflexivity | left; reflexivity].
Qed.

Lemma numeric_segment_adds_only_its_id_witness :
  segment_hints ["orders"; "2024"] 1 "2024" = ["orders_id"]
  ∧ segment_hints ["page"; "7"] 1 "7" = [].
Proof.
  split.
  - rewrite (proj1 (proj2 (proj2 (numeric_segment_adds_only_its_id
               ["orders"; "2024"] 1 "2024" eq_refl)))). reflexivity.
  - exact (proj1 (proj2 (proj2 (proj2 (numeric_segment_adds_only_its_id
               ["page"; "7"] 1 "7" eq_refl)))) eq_refl).
Defined.

(** ** The segments of a path (source line 96) *)


(** ** The segments of a path (source line 96) *)

Lemma split_pieces_have_no_separator (sep : ascii) (s : string) :
  Forall (fun piece => PyStr.contains sep piece = false) (PyStr.split sep s).
Proof.
  induction s as [|c s IH]; cbn [PyStr.split].
  - constructor; [reflexivity | constructor].
  - destruct (Ascii.eqb c sep) eqn:Hc.
    + constructor; [reflexivity | exact IH].
    + destruct (PyStr.split sep s) as [|piece pieces].
      * constructor; [| constructor]. cbn. rewrite Ascii.eqb_sym, Hc. reflexivity.
      * apply Forall_cons in IH as [Hp Hps]. constructor; [| exact Hps].
        cbn. rewrite Ascii.eqb_sym, Hc. exact Hp.
Qed.

(** [split] never gives an empty list. *)
Lemma split_not_nil (sep : ascii) (s : string) : PyStr.split sep s ≠ [].
Proof.
  destruct s as [|c s]; cbn [PyStr.split]; [discriminate |].
  destruct (Ascii.eqb c sep); [discriminate |].
  destruct (PyStr.split sep s); discriminate.
Qed.

Lemma split_trailing_separator (sep : ascii) (s : string) :
  PyStr.split sep (s +:+ String sep "") = PyStr.split sep s ++ [""].
Proof.
  induction s as [|c s IH].
  - rewrite app_nil. cbn. rewrite Ascii.eqb_refl. reflexivity.
  - rewrite app_cons. cbn [PyStr.split]. rewrite IH.
    destruct (Ascii.eqb c sep); [reflexivity |].
    pose proof (split_not_nil sep s) as Hne.
    destruct (PyStr.split sep s); [congruence | reflexivity].
Qed.

(** No segment of a path is empty or holds a slash, and a slash in front
    of the path or behind it changes nothing. *)
Theorem segments_of_path (path : string) :
  Forall (fun segment => segment ≠ "" ∧ PyStr.contains "/" segment = false)
    (segments_of path)
  ∧ segments_of (String "/" path) = segments_of path
  ∧ segments_of (path +:+ "/") = segments_of path.
Proof.
  unfold segments_of. split; [| split].
  - apply Forall_forall. intros segment Hin.
    apply list_elem_of_In, filter_In in Hin as [Hin Hne].
    split; [apply nonempty_spec, Hne |].
    pose proof (split_pieces_have_no_separator "/" path) as H.
    rewrite Forall_forall in H. apply H, list_elem_of_In, Hin.
  - reflexivity.
  - rewrite split_trailing_separator, List.filter_app. cbn. apply app_nil_r.
Qed.

(** ** The query string (source lines 44-47) *)

Lemma keys_dict_append (name value : string) (d : list (string * list string)) :
  Url.keys (Url.dict_append name value d)
  = if bool_decide (name ∈ Url.keys d) then Url.keys d else Url.keys d ++ [name].
Proof.
  induction d as [|[k vs] d IH]; [reflexivity |].
  cbn [Url.dict_append]. unfold Url.keys in *. cbn [fmap list_fmap fst].
  destruct (String.eqb_spec k name) as [-> | Hne].
  - cbn [fmap list_fmap fst]. rewrite bool_decide_eq_true_2; [reflexivity |].
    apply list_elem_of_here.
  - cbn [fmap list_fmap fst]. rewrite IH.
    destruct (bool_decide (name ∈ fst <$> d)) eqn:Hin.
    + apply bool_decide_eq_true in Hin. rewrite bool_decide_eq_true_2; [reflexivity |].
      apply list_elem_of_further, Hin.
    + apply bool_decide_eq_false in Hin. rewrite bool_decide_eq_false_2; [reflexivity |].
      intros H. apply elem_of_cons in H as [H | H]; [congruence | contradiction].
Qed.

Lemma keys_of_pairs (pairs : list (string * string)) (d : list (string * list string)) :
  NoDup (Url.keys d) →
  let d' := foldl (fun parsed_result '(name, value) =>
                     Url.dict_append name value parsed_result) d pairs in
  NoDup (Url.keys d')
  ∧ ∀ k, k ∈ Url.keys d' ↔ k ∈ Url.keys d ∨ ∃ v, (k, v) ∈ pairs.
Proof.
  cbn zeta. revert d. induction pairs as [|[n v] pairs IH]; intros d Hd.
  - cbn. split; [exact Hd |]. intros k. split; [tauto |].
    intros [H | [w H]]; [exact H |]. apply not_elem_of_nil in H. destruct H.
  - cbn [foldl].
    assert (Hd' : NoDup (Url.keys (Url.dict_append n v d))).
    { rewrite keys_dict_append. destruct (bool_decide (n ∈ Url.keys d)) eqn:Hin;
        [exact Hd |].
      apply bool_decide_eq_false in Hin. apply NoDup_app. split; [exact Hd |].
      split; [| apply NoDup_singleton].
      intros x Hx Hx'. apply list_elem_of_singleton in Hx'. congruence. }
    destruct (IH _ Hd') as [Hnd Hk]. split; [exact Hnd |].
    intros k. rewrite Hk, keys_dict_append. split.
    + intros [H | [w H]].
      * destruct (bool_decide (n ∈ Url.keys d)); [left; exact H |].
        apply elem_of_app in H as [H | H]; [left; exact H | right].
        apply list_elem_of_singleton in H as ->. exists v. apply list_elem_of_here.
      * right. exists w. apply list_elem_of_further, H.
    + intros [H | [w H]].
      * left. destruct (bool_decide (n ∈ Url.keys d)); [exact H |].
        apply elem_of_app. left. exact H.
      * apply elem_of_cons in H as [[= -> ->] | H]; [| right; exists w; exact H].
        left. destruct (bool_decide (n ∈ Url.keys d)) eqn:Hin.
        -- apply bool_decide_eq_true in Hin. exact Hin.
        -- apply elem_of_app. right. apply list_elem_of_here.
Qed.

(** [s.split(sep, 1)] finds the first separator. *)
Lemma split1_spec (sep : ascii) (s before after : string) :
  PyStr.split1 sep s = (before, Some after) ↔
  s = before +:+ String sep after ∧ PyStr.contains sep before = false.
Proof.
  revert before. induction s as [|c s IH]; intros before; cbn [PyStr.split1].
  - split; [discriminate |]. intros [H _]. destruct before; discriminate H.
  - destruct (Ascii.eqb_spec c sep) as [-> | Hne].
    + split.
      * intros [= <- <-]. split; reflexivity.
      * intros [H Hc]. destruct before as [|b before'].
        -- rewrite app_nil in H. injection H as ->. reflexivity.
        -- rewrite app_cons in H. injection H as <- _.
           cbn in Hc. rewrite Ascii.eqb_refl in Hc. discriminate Hc.
    + destruct (PyStr.split1 sep s) as [a b] eqn:Hs. split.
      * intros [= <- ->]. destruct (proj1 (IH a) eq_refl) as [-> Hc].
        split; [reflexivity |]. cbn.
        destruct (Ascii.eqb_spec sep c) as [E | _]; [congruence | exact Hc].
      * intros [H Hc]. destruct before as [|b' before'].
        -- rewrite app_nil in H. injection H as E _. congruence.
        -- rewrite app_cons in H. injection H as <- ->.
           cbn in Hc. apply orb_false_iff in Hc as [_ Hc].
           pose proof (proj2 (IH before') (conj eq_refl Hc)) as E.
           injection E as -> ->. reflexivity.
Qed.

(** The pair a field of the query gives: it needs an equals sign and a
    non-blank value. *)
Lemma parse_field_spec (name_value k v : string) :
  Url.parse_field name_value = Some (k, v) ↔
  ∃ n raw, name_value = n +:+ String "=" raw ∧ PyStr.contains "=" n = false
           ∧ raw ≠ ""
           ∧ k = Url.unquote (PyStr.replace "+" " " n)
           ∧ v = Url.unquote (PyStr.replace "+" " " raw).
Proof.
  unfold Url.parse_field. split.
  - destruct (PyStr.nonempty name_value); [| discriminate]. cbn [negb].
    destruct (PyStr.split1 "=" name_value) as [n [raw|]] eqn:Hs; [| discriminate].
    destruct (PyStr.nonempty raw) eqn:Hraw; [| discriminate].
    intros [= <- <-]. exists n, raw. apply split1_spec in Hs as [-> Hc].
    repeat split; try assumption; try reflexivity. apply nonempty_spec, Hraw.
  - intros (n & raw & -> & Hc & Hraw & -> & ->).
    assert (Hne : PyStr.nonempty (n +:+ String "=" raw) = true).
    { destruct n; reflexivity. }
    rewrite Hne. cbn [negb].
    rewrite (proj2 (split1_spec "=" _ n raw) (conj eq_refl Hc)).
    apply nonempty_spec in Hraw. rewrite Hraw. reflexivity.
Qed.

Lemma parse_qsl_spec (qs k v : string) :
  (k, v) ∈ Url.parse_qsl qs ↔
  ∃ name_value, name_value ∈ PyStr.split "&" qs
                ∧ Url.parse_field name_value = Some (k, v).
Proof.
  unfold Url.parse_qsl. rewrite list_elem_of_omap.
  destruct qs as [|c qs]; [| reflexivity].
  cbn. split.
  - intros (x & H & _). apply not_elem_of_nil in H. destruct H.
  - intros (x & H & Hf). apply list_elem_of_singleton in H as ->. discriminate Hf.
Qed.

Lemma update_found_empty (c : category) (st : finder) : update_found c ∅ st = st.
Proof.
  destruct st as [u h p pr]. unfold update_found. cbn. f_equal.
  apply parameters_eq. intros c'. rewrite bucket_update.
  destruct (decide (c' = c)); [set_solver | reflexivity].
Qed.

(** The query bucket after the pass: what was there, and the decoded name
    of every field [n=raw] of the query whose raw value is not blank. *)
Lemma query_bucket_spec (st : finder) (parsed : Url.ParseResult) :
  Url.urlparse (url st) = Some parsed →
  ∀ name,
    name ∈ bucket UrlQuery (found_parameters (self (extract_url_query_parameters st)))
    ↔ name ∈ bucket UrlQuery (found_parameters st)
      ∨ ∃ n raw, n +:+ String "=" raw ∈ PyStr.split "&" (Url.query parsed)
                 ∧ PyStr.contains "=" n = false ∧ raw ≠ ""
                 ∧ name = Url.unquote (PyStr.replace "+" " " n).
Proof.
  intros Hp name.
  destruct (extract_url_query_parameters_spec st parsed Hp) as [_ Hs].
  cbn zeta in Hs. rewrite Hs.
  destruct (keys_of_pairs (Url.parse_qsl (Url.query parsed)) [] (NoDup_nil_2))
    as [_ Hk].
  cbn zeta in Hk. fold (Url.parse_qs (Url.query parsed)) in Hk.
  cbn [update_found found_parameters].
  rewrite bucket_update_eq, elem_of_union, elem_of_list_to_set, Hk.
  split.
  - intros [H | [H | [v H]]]; [left; exact H | | right].
    + apply not_elem_of_nil in H. destruct H.
    + apply parse_qsl_spec in H as (name_value & Hin & Hf).
      apply parse_field_spec in Hf as (n & raw & -> & Hc & Hraw & -> & _).
      exists n, raw. repeat split; assumption.
  - intros [H | (n & raw & Hin & Hc & Hraw & ->)]; [left; exact H | right; right].
    exists (Url.unquote (PyStr.replace "+" " " raw)).
    apply parse_qsl_spec. exists (n +:+ String "=" raw). split; [exact Hin |].
    apply parse_field_spec. exists n, raw. repeat split; assumption.
Qed.

(** C10: the query pass on a URL that parses returns, and a name is in the
    query bucket afterwards exactly when it was there before or it is the
    decoded name of a field [n=raw] of the query, cut at its first equals
    sign, whose raw value is not blank.  A field whose value is absent (it
    has no equals sign) or empty (nothing follows the equals sign) gives no
    pair, so a key that has no field with a non-blank value is not surfaced;
    for the queries [a=&b=2] and [a&b=2] the bucket gets [b] and not [a]. *)
Theorem blank_query_value_is_dropped (st : finder) (parsed : Url.ParseResult) :
  Url.urlparse (url st) = Some parsed →
  let r := extract_url_query_parameters st in
  let before := bucket UrlQuery (found_parameters st) in
  let after := bucket UrlQuery (found_parameters (self r)) in
  let fields := PyStr.split "&" (Url.query parsed) in
  let decoded n := Url.unquote (PyStr.replace "+" " " n) in
  out r = Returned tt
  ∧ (∀ name, name ∈ after ↔
       name ∈ before
       ∨ ∃ n raw, n +:+ String "=" raw ∈ fields
                  ∧ PyStr.contains "=" n = false ∧ raw ≠ "" ∧ name = decoded n)
  ∧ (∀ field, PyStr.contains "=" field = false → Url.parse_field field = None)
  ∧ (∀ n, PyStr.contains "=" n = false → Url.parse_field (n +:+ "=") = None)
  ∧ (∀ name, (name ∉ before) →
       (∀ n raw, n +:+ String "=" raw ∈ fields → PyStr.contains "=" n = false →
                 name = decoded n → raw = "") →
       name ∉ after)
  ∧ (before = ∅ → Url.query parsed = "a=&b=2" ∨ Url.query parsed = "a&b=2" →
       "b" ∈ after ∧ ("a" ∉ after)).
Proof.
  intros Hp. cbn zeta.
  pose proof (query_bucket_spec st parsed Hp) as Hb.
  destruct (extract_url_query_parameters_spec st parsed Hp) as [Ho _].
  cbn zeta in Ho.
  assert (Habsent : ∀ field, PyStr.contains "=" field = false →
            Url.parse_field field = None).
  { intros field Hc. destruct (Url.parse_field field) as [[k v]|] eqn:Hf; [| reflexivity].
    apply parse_field_spec in Hf as (n & raw & -> & _ & _).
    exfalso. clear -Hc. induction n as [|x n IH].
    - rewrite app_nil in Hc. cbn in Hc. discriminate Hc.
    - rewrite app_cons in Hc. cbn in Hc. apply orb_false_iff in Hc as [_ Hc].
      exact (IH Hc). }
  assert (Hempty : ∀ n, PyStr.contains "=" n = false →
            Url.parse_field (n +:+ "=") = None).
  { intros n Hc. destruct (Url.parse_field (n +:+ "=")) as [[k v]|] eqn:Hf;
      [| reflexivity].
    apply parse_field_spec in Hf as (n' & raw & Heq & Hc' & Hraw & _).
    pose proof (proj2 (split1_spec "=" (n +:+ "=") n "") (conj eq_refl Hc)) as H1.
    pose proof (proj2 (split1_spec "=" (n +:+ "=") n' raw) (conj Heq Hc')) as H2.
    rewrite H1 in H2. injection H2 as _ <-. contradiction. }
  split; [exact Ho |]. split; [exact Hb |]. split; [exact Habsent |].
  split; [exact Hempty |]. split.
  - intros name Hnot Hblank Hin. apply Hb in Hin as [Hin | (n & raw & Hin & Hc & Hraw & Hn)];
      [contradiction |].
    exact (Hraw (Hblank n raw Hin Hc Hn)).
  - intros Hnone Hq. split.
    + apply Hb. right. exists "b", "2".
      split; [destruct Hq as [-> | ->]; apply list_elem_of_further, list_elem_of_here |].
      repeat split. discriminate.
    + intros Hin. apply Hb in Hin as [Hin | (n & raw & Hin & Hc & Hraw & Hn)].
      * rewrite Hnone in Hin. apply not_elem_of_empty in Hin. destruct Hin.
      * assert (Hcases : n +:+ String "=" raw = "a=" ∨ n +:+ String "=" raw = "a"
                         ∨ n +:+ String "=" raw = "b=2").
        { destruct Hq as [Hq | Hq]; rewrite Hq in Hin;
            apply elem_of_cons in Hin as [Hin | Hin]; [tauto | | tauto |];
            apply list_elem_of_singleton in Hin; tauto. }
        destruct Hcases as [Heq | [Heq | Heq]].
        -- pose proof (proj2 (split1_spec "=" _ n raw) (conj eq_refl Hc)) as H1.
           rewrite Heq in H1. injection H1 as _ <-. contradiction.
        -- pose proof (proj2 (split1_spec "=" _ n raw) (conj eq_refl Hc)) as H1.
           rewrite Heq in H1. discriminate H1.
        -- pose proof (proj2 (split1_spec "=" _ n raw) (conj eq_refl Hc)) as H1.
           rewrite Heq in H1. injection H1 as <- _. discriminate Hn.
Qed.

Lemma blank_query_value_is_dropped_witness :
  let after url_str :=
    bucket UrlQuery (found_parameters (self (extract_url_query_parameters
                                               (__init__ url_str)))) in
  ("b" ∈ after "https://example.com/search?a=&b=2"
   ∧ ("a" ∉ after "https://example.com/search?a=&b=2"))
  ∧ ("b" ∈ after "https://example.com/search?a&b=2"
     ∧ ("a" ∉ after "https://example.com/search?a&b=2")).
Proof.
  cbn zeta. split.
  - refine (proj2 (proj2 (proj2 (proj2 (proj2 (blank_query_value_is_dropped
      (__init__ "https://example.com/search?a=&b=2")
      {| Url.scheme := "https"; Url.netloc := "example.com"; Url.path := "/search";
         Url.params := ""; Url.query := "a=&b=2"; Url.fragment := "" |}
      eq_refl))))) eq_refl (or_introl eq_refl)).
  - refine (proj2 (proj2 (proj2 (proj2 (proj2 (blank_query_value_is_dropped
      (__init__ "https://example.com/search?a&b=2")
      {| Url.scheme := "https"; Url.netloc := "example.com"; Url.path := "/search";
         Url.params := ""; Url.query := "a&b=2"; Url.fragment := "" |}
      eq_refl))))) eq_refl (or_intror eq_refl)).
Defined.

(** The query pass on a URL that parses returns and changes the query
    bucket alone: a name is in it afterwards exactly when it was there or it
    is the decoded name of a field [n=raw] of the query, cut at its first
    equals sign, whose raw value is not blank.  The keys of the parsed query
    are distinct.  Without a query the object is left as it was and the only
    output is the line that says so. *)
Theorem query_pass_collects_named_fields (st : finder) (parsed : Url.ParseResult) :
  Url.urlparse (url st) = Some parsed →
  let r := extract_url_query_parameters st in
  out r = Returned tt
  ∧ url (self r) = url st ∧ html_content (self r) = html_content st
  ∧ processed_urls (self r) = processed_urls st
  ∧ (∀ c, c ≠ UrlQuery →
       bucket c (found_parameters (self r)) = bucket c (found_parameters st))
  ∧ NoDup (Url.keys (Url.parse_qs (Url.query parsed)))
  ∧ (∀ name, name ∈ bucket UrlQuery (found_parameters (self r)) ↔
       name ∈ bucket UrlQuery (found_parameters st)
       ∨ ∃ n raw, n +:+ String "=" raw ∈ PyStr.split "&" (Url.query parsed)
                  ∧ PyStr.contains "=" n = false ∧ raw ≠ ""
                  ∧ name = Url.unquote (PyStr.replace "+" " " n))
  ∧ (Url.query parsed = "" →
       r = Result (Returned tt) st
             ["[-] No URL Query Parameters found in the initial URL."]).
Proof.
  intros Hp. cbn zeta.
  destruct (extract_url_query_parameters_spec st parsed Hp) as [Ho Hs].
  cbn zeta in Ho, Hs.
  destruct (keys_of_pairs (Url.parse_qsl (Url.query parsed)) [] (NoDup_nil_2))
    as [Hnd Hk].
  cbn zeta in Hnd, Hk. fold (Url.parse_qs (Url.query parsed)) in Hnd, Hk.
  split; [exact Ho |]. rewrite Hs.
  split; [reflexivity |]. split; [reflexivity |]. split; [reflexivity |].
  split; [| split; [exact Hnd | split]].
  - intros c Hc. cbn [update_found found_parameters]. apply bucket_update_ne, Hc.
  - intros name. cbn [update_found found_parameters].
    rewrite bucket_update_eq, elem_of_union, elem_of_list_to_set, Hk.
    split.
    + intros [H | [H | [v H]]]; [left; exact H | | right].
      * apply not_elem_of_nil in H. destruct H.
      * apply parse_qsl_spec in H as (name_value & Hin & Hf).
        apply parse_field_spec in Hf as (n & raw & -> & Hc & Hraw & -> & _).
        exists n, raw. repeat split; assumption.
    + intros [H | (n & raw & Hin & Hc & Hraw & ->)]; [left; exact H | right; right].
      exists (Url.unquote (PyStr.replace "+" " " raw)).
      apply parse_qsl_spec. exists (n +:+ String "=" raw). split; [exact Hin |].
      apply parse_field_spec. exists n, raw. repeat split; assumption.
  - intros Hq. apply result_eq.
    + rewrite Ho. reflexivity.
    + rewrite Hs, Hq. apply update_found_empty.
    + unfold extract_url_query_parameters. run_step. rewrite Hp. run_step.
      rewrite Hq.
      destruct (add_each_spec UrlQuery (Url.keys (Url.parse_qs "")) st) as [Ho' _].
      cbn zeta in Ho'. rewrite Ho'. run_step.
      change (Url.parse_qs "") with (@nil (string * list string)). run_step.
      reflexivity.
Qed.

Lemma query_pass_collects_named_fields_witness :
  "user name" ∈ bucket UrlQuery (found_parameters (self (extract_url_query_parameters
                   (__init__ "http://h/s?user+name=bob&x=&y"))))
  ∧ extract_url_query_parameters (__init__ "http://h/s")
    = Result (Returned tt) (__init__ "http://h/s")
        ["[-] No URL Query Parameters found in the initial URL."].
Proof.
  split.
  - destruct (query_pass_collects_named_fields (__init__ "http://h/s?user+name=bob&x=&y")
      {| Url.scheme := "http"; Url.netloc := "h"; Url.path := "/s"; Url.params := "";
         Url.query := "user+name=bob&x=&y"; Url.fragment := "" |} eq_refl)
      as (_ & _ & _ & _ & _ & _ & Hin & _).
    cbn zeta in Hin. apply Hin. right. exists "user+name", "bob".
    split; [apply list_elem_of_here |]. repeat split. discriminate.
  - destruct (query_pass_collects_named_fields (__init__ "http://h/s")
      {| Url.scheme := "http"; Url.netloc := "h"; Url.path := "/s"; Url.params := "";
         Url.query := ""; Url.fragment := "" |} eq_refl)
      as (_ & _ & _ & _ & _ & _ & _ & Hnone).
    exact (Hnone eq_refl).
Defined.

(** ** A fetch that succeeds (source lines 30-35) *)

Lemma fetch_page_replied (requests_get : string -> Requests.reply)
    (st : finder) (response : Requests.Response) :
  requests_get (url st) = Requests.Replied response →
  ¬ (400 ≤ Requests.status_code response < 600)%Z →
  fetch_page requests_get st
  = Result (Returned tt) (set_html_content (Requests.text response) st)
      ["[*] Fetching page: " +:+ url st; "[*] Page fetched successfully."].
Proof.
  intros Hreply Hstatus.
  assert (Hraise : Requests.raise_for_status response = None).
  { unfold Requests.raise_for_status.
    rewrite !bool_decide_eq_false_2; [reflexivity | lia | lia]. }
  apply result_eq; unfold fetch_page; run_step; rewrite Hreply, Hraise; run_step;
    reflexivity.
Qed.

(** Every status outside 400-599 counts as a success, whatever it is: the
    body becomes [html_content], nothing else changes and the two progress
    lines are printed. *)
Theorem fetch_success_stores_body (requests_get : string -> Requests.reply)
    (st : finder) (response : Requests.Response) :
  requests_get (url st) = Requests.Replied response →
  ¬ (400 ≤ Requests.status_code response < 600)%Z →
  fetch_page requests_get st
  = Result (Returned tt) (set_html_content (Requests.text response) st)
      ["[*] Fetching page: " +:+ url st; "[*] Page fetched successfully."].
Proof. exact (fetch_page_replied requests_get st response). Qed.

Lemma fetch_success_stores_body_witness :
  fetch_page (fun _ => Requests.Replied
                {| Requests.status_code := 999; Requests.reason := "Request denied";
                   Requests.url := "http://h/"; Requests.text := "<p>" |})
    (__init__ "http://h/")
  = Result (Returned tt) (set_html_content "<p>" (__init__ "http://h/"))
      ["[*] Fetching page: http://h/"; "[*] Page fetched successfully."].
Proof.
  apply (fetch_success_stores_body _ (__init__ "http://h/")
           {| Requests.status_code := 999; Requests.reason := "Request denied";
              Requests.url := "http://h/"; Requests.text := "<p>" |} eq_refl).
  cbn. lia.
Defined.

(** ** What a pass may do to the object *)

Lemma tame_ret (own : list category) : tame own (mret tt).
Proof. intros st. run_step. repeat split; auto. Qed.

Lemma tame_print (own : list category) (text : string) : tame own (print text).
Proof. intros st. run_step. repeat split; auto. Qed.

Lemma tame_update (own : list category) (c : category) (xs : gset string) :
  c ∈ own → tame own (modify (update_found c xs)).
Proof.
  intros Hc st. run_step. split; [left; reflexivity |].
  split; [reflexivity |]. split; [reflexivity |]. split.
  - intros c'. cbn [update_found found_parameters]. rewrite bucket_update.
    destruct (decide (c' = c)); set_solver.
  - intros c' Hc'. cbn [update_found found_parameters]. apply bucket_update_ne.
    intros ->. contradiction.
Qed.

Lemma tame_bind (own : list category) (m k : Run unit) :
  tame own m → tame own k → tame own (m ;; k).
Proof.
  intros Hm Hk st. destruct (Hm st) as (Ho & Hu & Hh & Hg & Hf).
  rewrite out_bind, self_bind.
  destruct Ho as [Ho | Ho]; rewrite Ho.
  - destruct (Hk (self (m st))) as (Ho' & Hu' & Hh' & Hg' & Hf').
    split; [exact Ho' |]. split; [congruence |]. split; [congruence |]. split.
    + intros c. etransitivity; [apply Hg | apply Hg'].
    + intros c Hc. rewrite (Hf' c Hc). apply Hf, Hc.
  - split; [right; reflexivity |]. repeat split; assumption.
Qed.

Lemma tame_adds (own : list category) (P : category -> string -> Prop) (m : Run unit) :
  (∀ c name, P c name → c ∈ own) → adds P m → tame own m.
Proof.
  intros Hown Hm st. destruct (Hm st) as (Ho & Hu & Hh & _ & Hb).
  split; [left; exact Ho |]. split; [exact Hu |]. split; [exact Hh |]. split.
  - intros c name Hin. apply Hb. left. exact Hin.
  - intros c Hc. apply set_eq. intros name. rewrite Hb. split; [| tauto].
    intros [H | H]; [exact H |]. exfalso. apply Hc, (Hown c name H).
Qed.

Lemma quiet_ret {A : Type} (a : A) : quiet (mret a).
Proof. intros st. run_step. repeat split. left. eexists. reflexivity. Qed.

Lemma quiet_value_or_raise {A : Type} (v : option A) : quiet (value_or_raise v).
Proof.
  intros st. destruct v; run_step; repeat split;
    [left; eexists; reflexivity | right; reflexivity].
Qed.

Lemma quiet_bind {A B : Type} (m : Run A) (k : A -> Run B) :
  quiet m → (∀ a, quiet (k a)) → quiet (m ≫= k).
Proof.
  intros Hm Hk st. destruct (Hm st) as (Ho & Hu & Hh & Hf).
  rewrite out_bind, self_bind.
  destruct Ho as [[a Ho] | Ho]; rewrite Ho.
  - destruct (Hk a (self (m st))) as (Ho' & Hu' & Hh' & Hf').
    split; [exact Ho' |]. repeat split; congruence.
  - split; [right; reflexivity |]. repeat split; assumption.
Qed.

Lemma quiet_for_each {A B : Type} (body : B -> A -> Run B) (l : list A) (acc : B) :
  (∀ acc x, quiet (body acc x)) → quiet (for_each body acc l).
Proof.
  intros Hbody. revert acc. induction l as [|x l IH]; intros acc.
  - apply quiet_ret.
  - cbn [for_each]. apply quiet_bind; [apply Hbody | exact IH].
Qed.


Lemma quiet_print (text : string) : quiet (print text).
Proof. intros st. run_step. repeat split. left. eexists. reflexivity. Qed.

Lemma quiet_get_self : quiet get_self.
Proof. intros st. run_step. repeat split. left. eexists. reflexivity. Qed.

Lemma quiet_mark_processed (url_str : string) : quiet (modify (mark_processed url_str)).
Proof. intros st. run_step. repeat split. left. eexists. reflexivity. Qed.

(** A quiet step followed by a tame continuation is tame. *)
Lemma tame_after_quiet {A : Type} (own : list category) (m : Run A) (k : A -> Run unit) :
  quiet m → (∀ a, tame own (k a)) → tame own (m ≫= k).
Proof.
  intros Hm Hk st. destruct (Hm st) as (Ho & Hu & Hh & Hf).
  rewrite out_bind, self_bind.
  destruct Ho as [[a Ho] | Ho]; rewrite Ho.
  - destruct (Hk a (self (m st))) as (Ho' & Hu' & Hh' & Hg' & Hf').
    split; [exact Ho' |]. split; [congruence |]. split; [congruence |].
    rewrite <- Hf. split; assumption.
  - split; [right; reflexivity |]. split; [exact Hu |]. split; [exact Hh |].
    rewrite Hf. split; [reflexivity | intros; reflexivity].
Qed.

Lemma quiet_analyze_segment (url_str : string) (path_segments : list string)
    (acc : gset string) (entry : nat * string) :
  quiet (analyze_segment url_str path_segments acc entry).
Proof.
  intros st. destruct entry as [i segment].
  destruct (analyze_segment_spec url_str path_segments acc i segment st) as [Ho Hs].
  rewrite Ho, Hs. repeat split. left. eexists. reflexivity.
Qed.

Lemma quiet_analyze_url (acc : gset string) (url_str : string) :
  quiet (analyze_url acc url_str).
Proof.
  unfold analyze_url. apply quiet_bind; [apply quiet_get_self |]. intros st0.
  destruct (bool_decide (url_str ∈ processed_urls st0)); [apply quiet_ret |].
  apply quiet_bind; [apply quiet_mark_processed |]. intros [].
  apply quiet_bind; [apply quiet_value_or_raise |]. intros parsed.
  apply quiet_for_each. intros acc' entry. apply quiet_analyze_segment.
Qed.

Section TamePasses.
Variable BeautifulSoup : string -> Bs4.soup.
Variable urljoin : string -> string -> option string.
Variable order : site -> gset string -> list string.

Lemma tame_query_pass : tame [UrlQuery] extract_url_query_parameters.
Proof.
  unfold extract_url_query_parameters.
  apply tame_after_quiet; [apply quiet_get_self |]. intros st0.
  apply tame_after_quiet; [apply quiet_value_or_raise |]. intros parsed.
  apply tame_bind.
  - apply (tame_adds _ (fun c name => ∃ x, x ∈ Url.keys (Url.parse_qs (Url.query parsed))
                                          ∧ (c = UrlQuery ∧ name ∈ ({[x]} : gset string)))).
    + intros c name (x & _ & -> & _). apply list_elem_of_here.
    + apply adds_for_each. intros x _. apply adds_update.
  - destruct (Url.parse_qs (Url.query parsed)); apply tame_print.
Qed.

Lemma quiet_harvest (base : string) (urls : gset string) (reference : string) :
  quiet (harvest urljoin base urls reference).
Proof.
  unfold harvest. apply quiet_bind; [apply quiet_value_or_raise |].
  intros resolved. apply quiet_ret.
Qed.

Lemma tame_path_pass :
  tame [PathRoute] (extract_potential_path_parameters BeautifulSoup urljoin order).
Proof.
  unfold extract_potential_path_parameters.
  apply tame_after_quiet; [apply quiet_get_self |]. intros st0.
  destruct (page st0) as [html|]; [| apply tame_ret].
  apply tame_after_quiet; [apply quiet_for_each; intros; apply quiet_harvest |].
  intros urls.
  apply tame_after_quiet; [apply quiet_for_each; intros; apply quiet_harvest |].
  intros urls'.
  apply tame_after_quiet.
  { apply quiet_for_each. intros acc x.
    destruct (_ && _); [apply quiet_harvest | apply quiet_ret]. }
  intros urls_to_analyze.
  apply tame_after_quiet; [apply quiet_print |]. intros [].
  apply tame_after_quiet; [apply quiet_for_each; intros; apply quiet_analyze_url |].
  intros potential.
  destruct (bool_decide (potential = ∅)); [apply tame_print |].
  apply tame_bind; [apply tame_print | apply tame_update, list_elem_of_here].
Qed.

Lemma tame_form_pass : tame [FormVisible; FormHidden] (extract_form_parameters BeautifulSoup).
Proof.
  unfold extract_form_parameters.
  apply tame_after_quiet; [apply quiet_get_self |]. intros st0.
  destruct (page st0) as [html|]; [| apply tame_ret].
  assert (Hfield : ∀ element, tame [FormVisible; FormHidden] (collect_field element)).
  { intros element.
    apply (tame_adds _ (fun c name => classify_field element = Some (c, name)));
      [| apply collect_field_adds].
    intros c name Hc.
    destruct (proj2 (proj2 (proj2 (classify_field_spec element))) c name Hc) as [-> | ->];
      [apply list_elem_of_further, list_elem_of_here | apply list_elem_of_here]. }
  assert (Hloop : ∀ (l : list (nat * Bs4.node)),
            tame [FormVisible; FormHidden]
              (for_each (fun _ entry => analyze_form entry) tt l)).
  { induction l as [|[i form] l IH]; [apply tame_ret |].
    cbn [for_each].
    assert (Hform : tame [FormVisible; FormHidden] (analyze_form (i, form))).
    { unfold analyze_form. apply tame_bind; [apply tame_print |].
      generalize (Bs4.find_all_in ["input"; "select"; "textarea"] form).
      induction l0 as [|element elements IHe]; [apply tame_ret |].
      cbn [for_each]. intros st. 
      assert (Heq : (collect_field element ≫= fun acc' : unit =>
                       for_each (fun _ element => collect_field element) acc' elements) st
                    = (collect_field element ;;
                       for_each (fun _ element => collect_field element) tt elements) st).
      { unfold mbind, Run_bind. destruct (out (collect_field element st)) as [[]| |];
          reflexivity. }
      rewrite Heq. clear Heq. revert st. apply tame_bind; [apply Hfield | exact IHe]. }
    intros st.
    assert (Heq : (analyze_form (i, form) ≫= fun acc' : unit =>
                     for_each (fun _ entry => analyze_form entry) acc' l) st
                  = (analyze_form (i, form) ;;
                     for_each (fun _ entry => analyze_form entry) tt l) st).
    { unfold mbind, Run_bind. destruct (out (analyze_form (i, form) st)) as [[]| |];
        reflexivity. }
    rewrite Heq. clear Heq. revert st. apply tame_bind; [exact Hform | exact IH]. }
  destruct (Bs4.find_all "form" (BeautifulSoup html)) as [|form forms];
    [apply tame_print | apply Hloop].
Qed.

Lemma tame_js_pass : tame [JavaScriptLike] (extract_js_parameters BeautifulSoup order).
Proof.
  unfold extract_js_parameters.
  apply tame_after_quiet; [apply quiet_get_self |]. intros st0.
  destruct (page st0) as [html|]; [| apply tame_ret].
  destruct (Bs4.find_all "script" (BeautifulSoup html)); [apply tame_print |].
  destruct (bool_decide _); [apply tame_print |].
  apply tame_bind; [apply tame_print | apply tame_update, list_elem_of_here].
Qed.

Lemma tame_comment_pass :
  tame [CommentWords] (extract_comment_parameters BeautifulSoup order).
Proof.
  unfold extract_comment_parameters.
  apply tame_after_quiet; [apply quiet_get_self |]. intros st0.
  destruct (page st0) as [html|]; [| apply tame_ret].
  destruct (Bs4.find_comments (BeautifulSoup html)) as [|comment comments];
    [apply tame_print |].
  destruct (bool_decide _); [apply tame_print |].
  apply tame_bind; [apply tame_print | apply tame_update, list_elem_of_here].
Qed.

Lemma quiet_report_category (p : parameters) (total_found : nat) (c : category) :
  quiet (report_category order p total_found c).
Proof.
  unfold report_category.
  apply quiet_bind; [apply quiet_print |]. intros [].
  apply quiet_bind.
  - destruct (sorted _).
    + apply quiet_bind; [apply quiet_print | intros; apply quiet_ret].
    + apply quiet_bind; [| intros; apply quiet_ret].
      apply quiet_for_each. intros acc x. apply quiet_print.
  - intros total. apply quiet_bind; [apply quiet_print | intros; apply quiet_ret].
Qed.

Lemma tame_display_results : tame [] (display_results order).
Proof.
  unfold display_results.
  apply tame_after_quiet; [apply quiet_get_self |]. intros st0.
  repeat (apply tame_bind; [apply tame_print |]).
  apply tame_after_quiet.
  { unfold report_buckets. apply quiet_for_each. intros. apply quiet_report_category. }
  intros total. repeat (apply tame_bind; [apply tame_print |]). apply tame_print.
Qed.

End TamePasses.

Lemma tame_mono (own own' : list category) (m : Run unit) :
  own ⊆ own' → tame own m → tame own' m.
Proof.
  intros Hsub Hm st. destruct (Hm st) as (Ho & Hu & Hh & Hg & Hf).
  repeat split; try assumption. intros c Hc. apply Hf. intros H. apply Hc, Hsub, H.
Qed.

(** Each pass only adds names, and only to its own bucket or buckets; the
    report changes nothing.  No pass calls [sys.exit]: a pass returns or
    dies of the [ValueError] of a URL that does not parse or resolve. *)
Theorem passes_write_their_own_buckets (BeautifulSoup : string -> Bs4.soup)
    (urljoin : string -> string -> option string)
    (order : site -> gset string -> list string) :
  tame [UrlQuery] extract_url_query_parameters
  ∧ tame [PathRoute] (extract_potential_path_parameters BeautifulSoup urljoin order)
  ∧ tame [FormVisible; FormHidden] (extract_form_parameters BeautifulSoup)
  ∧ tame [JavaScriptLike] (extract_js_parameters BeautifulSoup order)
  ∧ tame [CommentWords] (extract_comment_parameters BeautifulSoup order)
  ∧ tame [] (display_results order).
Proof.
  split; [apply tame_query_pass |].
  split; [apply tame_path_pass |].
  split; [apply tame_form_pass |].
  split; [apply tame_js_pass |].
  split; [apply tame_comment_pass | apply tame_display_results].
Qed.

(** When the fetch succeeds the run never ends in [sys.exit]: it returns or
    dies of an uncaught [ValueError].  However it ends, the URL of the
    object is unchanged and no name has left a bucket. *)
Theorem run_after_fetch_never_exits (requests_get : string -> Requests.reply)
    (BeautifulSoup : string -> Bs4.soup) (urljoin : string -> string -> option string)
    (order : site -> gset string -> list string) (st : finder) :
  ¬ fetch_fails (requests_get (url st)) →
  let r := find_all_parameters requests_get BeautifulSoup urljoin order st in
  (out r = Returned tt ∨ out r = Raised "ValueError")
  ∧ url (self r) = url st
  ∧ ∀ c, bucket c (found_parameters st) ⊆ bucket c (found_parameters (self r)).
Proof.
  intros Hok. cbn zeta. unfold find_all_parameters.
  destruct (requests_get (url st)) as [kind e | response] eqn:Hreply;
    [exfalso; apply Hok; exact I |].
  cbn [fetch_fails] in Hok.
  pose proof (fetch_page_replied requests_get st response Hreply Hok) as Hfetch.
  assert (Hrest : tame categories
            (extract_url_query_parameters;;
             extract_potential_path_parameters BeautifulSoup urljoin order;;
             extract_form_parameters BeautifulSoup;;
             extract_js_parameters BeautifulSoup order;;
             extract_comment_parameters BeautifulSoup order;;
             display_results order)).
  { assert (Hall : ∀ own, own ⊆ categories) by (intros own c _; destruct c; set_solver).
    apply tame_bind; [apply (tame_mono [UrlQuery]), tame_query_pass; apply Hall |].
    apply tame_bind; [apply (tame_mono [PathRoute]), tame_path_pass; apply Hall |].
    apply tame_bind;
      [apply (tame_mono [FormVisible; FormHidden]), tame_form_pass; apply Hall |].
    apply tame_bind; [apply (tame_mono [JavaScriptLike]), tame_js_pass; apply Hall |].
    apply tame_bind; [apply (tame_mono [CommentWords]), tame_comment_pass; apply Hall |].
    apply (tame_mono []), tame_display_results; apply Hall. }
  rewrite out_bind, self_bind, Hfetch. cbn [out self].
  destruct (Hrest (set_html_content (Requests.text response) st))
    as (Ho & Hu & _ & Hg & _).
  split; [exact Ho |]. split; [exact Hu |]. exact Hg.
Qed.

Lemma run_after_fetch_never_exits_witness :
  let r := find_all_parameters
    (fun _ => Requests.Replied {| Requests.status_code := 200; Requests.reason := "OK";
                                  Requests.url := "http://h/"; Requests.text := "<a>" |})
    (fun _ => [Bs4.Tag "a" {["href" := "/users/42"]} []])
    (fun _ reference => Some ("http://h" +:+ reference))
    (fun _ X => elements X)
    (update_found FormHidden {["kept"]} (__init__ "http://h/")) in
  "kept" ∈ bucket FormHidden (found_parameters (self r)).
Proof.
  cbn zeta.
  refine (proj2 (proj2 (run_after_fetch_never_exits _ _ _ _
            (update_found FormHidden {["kept"]} (__init__ "http://h/")) _))
            FormHidden "kept" _).
  - cbn. lia.
  - cbn. set_solver.
Defined.

(** ** What a link of the page adds to the Path/Route bucket
       (source lines 61-144) *)

Section PathPass.
Variable BeautifulSoup : string -> Bs4.soup.
Variable urljoin : string -> string -> option string.
Variable order : site -> gset string -> list string.
Hypothesis valid : valid_order order.

Lemma plain_harvest_loop_spec (base : string) (references : list string)
    (acc : gset string) (st : finder) :
  let r := for_each (harvest urljoin base) acc references st in
  self r = st
  ∧ ∀ R, out r = Returned R →
      acc ⊆ R
      ∧ ∀ reference resolved,
          reference ∈ references →
          urljoin base reference = Some resolved → resolved ∈ R.
Proof.
  cbn zeta.
  rewrite (for_each_ext (harvest urljoin base)
             (fun urls reference => if (fun _ => true) reference
                                    then harvest urljoin base urls reference
                                    else mret urls) references
             ltac:(reflexivity) acc st).
  destruct (harvest_loop_spec urljoin (fun _ => true) base references acc st) as [Hs HR].
  split; [exact Hs |]. intros R Hout. destruct (HR R Hout) as [Hsub Hall].
  split; [exact Hsub |]. intros reference resolved Hin Hj.
  exact (Hall reference resolved Hin eq_refl Hj).
Qed.

(** When the path pass returns, every name that a segment of a harvested,
    not yet processed URL gives is in the Path/Route bucket. *)
Theorem harvested_link_reaches_the_bucket (st : finder) (html reference resolved : string)
    (parsed : Url.ParseResult) (i : nat) (segment name : string) :
  page st = Some html →
  harvested (BeautifulSoup html) reference →
  urljoin (url st) reference = Some resolved →
  resolved ∉ processed_urls st →
  Url.urlparse resolved = Some parsed →
  segments_of (Url.path parsed) !! i = Some segment →
  name ∈ segment_hints (segments_of (Url.path parsed)) i segment →
  let r := extract_potential_path_parameters BeautifulSoup urljoin order st in
  out r = Returned tt →
  name ∈ bucket PathRoute (found_parameters (self r)).
Proof.
  intros Hpage Hharv Hjoin Hfresh Hparse Hseg Hname. cbn zeta.
  unfold extract_potential_path_parameters. rewrite out_bind, self_bind.
  rewrite out_get_self, self_get_self. cbv beta iota. rewrite Hpage.
  set (soup := BeautifulSoup html).
  intros Hout.
  apply bind_returned_inv in Hout as (urls1 & Ho1 & Hout & -> & _).
  destruct (plain_harvest_loop_spec (url st)
              (omap (fun a_tag => Bs4.get a_tag "href") (Bs4.find_all_with "a" "href" soup))
              ∅ st) as [Hs1 HR1].
  cbn zeta in Hs1, HR1. rewrite Hs1 in *. destruct (HR1 urls1 Ho1) as [_ Hall1].
  apply bind_returned_inv in Hout as (urls2 & Ho2 & Hout & -> & _).
  destruct (plain_harvest_loop_spec (url st)
              (omap (fun form_tag => Bs4.get form_tag "action")
                 (Bs4.find_all_with "form" "action" soup))
              urls1 st) as [Hs2 HR2].
  cbn zeta in Hs2, HR2. rewrite Hs2 in *. destruct (HR2 urls2 Ho2) as [Hsub2 Hall2].
  apply bind_returned_inv in Hout as (urls3 & Ho3 & Hout & -> & _).
  destruct (harvest_loop_spec urljoin
              (fun found_url => (2 <? PyStr.len found_url)%nat
                                && negb (PyStr.startswith found_url "//"))
              (url st) (Re.findall1 Patterns.js_url (script_text soup)) urls2 st)
    as [Hs3 HR3].
  cbn zeta in Hs3, HR3. rewrite Hs3 in *. destruct (HR3 urls3 Ho3) as [Hsub3 Hall3].
  assert (Hin : resolved ∈ urls3).
  { destruct Hharv as [(a_tag & Ha & Hg) | [(form_tag & Hf & Hg) | [Hj Hk]]].
    - apply Hsub3, Hsub2, (Hall1 reference resolved); [| exact Hjoin].
      apply list_elem_of_omap. exists a_tag. split; assumption.
    - apply Hsub3, (Hall2 reference resolved); [| exact Hjoin].
      apply list_elem_of_omap. exists form_tag. split; assumption.
    - exact (Hall3 reference resolved Hj Hk Hjoin). }
  apply bind_returned_inv in Hout as ([] & _ & Hout & -> & _).
  rewrite self_print in *.
  apply bind_returned_inv in Hout as (potential & Ho5 & Hout & -> & _).
  destruct (analyze_urls_spec (order UrlsToAnalyze urls3) ∅ st)
    as (_ & _ & Hf & Hbad & Hgood).
  cbn zeta in Hf, Hbad, Hgood.
  destruct (bad_or_good (processed_urls st) (order UrlsToAnalyze urls3)) as [Hb | Hg].
  { rewrite (Hbad Hb) in Ho5. discriminate Ho5. }
  destruct (Hgood Hg) as (R & HR & _ & Hx). rewrite HR in Ho5. injection Ho5 as <-.
  assert (HnameR : name ∈ R).
  { apply Hx. right. exists resolved. split; [| split; [exact Hfresh |]].
    - rewrite (valid UrlsToAnalyze urls3). apply elem_of_elements, Hin.
    - unfold url_names. rewrite Hparse. unfold hints_of.
      apply elem_of_list_to_set, list_elem_of_bind. exists (i, segment).
      split; [exact Hname |].
      apply (elem_of_lookup_imap_2 (fun i x => (i, x)) _ segment i Hseg). }
  rewrite bool_decide_eq_false_2 in Hout |- * by set_solver.
  rewrite self_bind, out_print, self_print, self_modify.
  cbn [update_found found_parameters]. rewrite bucket_update_eq. set_solver.
Qed.

End PathPass.

Lemma harvested_link_reaches_the_bucket_witness :
  let r := extract_potential_path_parameters
    (fun _ => [Bs4.Tag "a" {["href" := "/users/42"]} []])
    (fun _ reference => Some ("http://h" +:+ reference))
    (fun _ X => elements X)
    (set_html_content "<a>" (__init__ "http://h/")) in
  "users_id" ∈ bucket PathRoute (found_parameters (self r)).
Proof.
  cbn zeta.
  apply (harvested_link_reaches_the_bucket
    (fun _ => [Bs4.Tag "a" {["href" := "/users/42"]} []])
    (fun _ reference => Some ("http://h" +:+ reference))
    (fun _ X => elements X) ltac:(intros s X; reflexivity)
    (set_html_content "<a>" (__init__ "http://h/")) "<a>" "/users/42" "http://h/users/42"
    {| Url.scheme := "http"; Url.netloc := "h"; Url.path := "/users/42";
       Url.params := ""; Url.query := ""; Url.fragment := "" |} 1 "42" "users_id").
  - reflexivity.
  - left. exists (Bs4.Tag "a" {["href" := "/users/42"]} []).
    split; [apply list_elem_of_here | reflexivity].
  - reflexivity.
  - cbn. set_solver.
  - reflexivity.
  - reflexivity.
  - apply list_elem_of_here.
  - vm_compute. reflexivity.
Defined.

(** ** The Path/Route bucket, exactly *)

Section PathPassExact.
Variable BeautifulSoup : string -> Bs4.soup.
Variable urljoin : string -> string -> option string.
Variable order : site -> gset string -> list string.
Hypothesis valid : valid_order order.

(** A harvesting loop that returns has collected exactly the resolved
    references that pass [keep], on top of what it started from; how it ends
    does not depend on the object. *)
Lemma harvest_loop_exact (keep : string -> bool) (base : string)
    (references : list string) (acc : gset string) (st : finder) (R : gset string) :
  out (for_each (fun urls reference =>
                   if keep reference then harvest urljoin base urls reference
                   else mret urls) acc references st) = Returned R →
  ∀ x, x ∈ R ↔
    x ∈ acc ∨ ∃ reference, reference ∈ references ∧ keep reference = true
                           ∧ urljoin base reference = Some x.
Proof.
  revert acc. induction references as [|r l IH]; intros acc Hout x.
  - cbn [for_each] in Hout. rewrite out_ret in Hout. injection Hout as <-.
    split; [tauto |]. intros [H | (reference & H & _)]; [exact H |].
    apply not_elem_of_nil in H. destruct H.
  - cbn [for_each] in Hout. rewrite out_bind in Hout.
    destruct (keep r) eqn:Hkeep.
    + destruct (harvest_spec urljoin base acc r st) as [Ho Hs]. rewrite Ho, Hs in Hout.
      destruct (urljoin base r) as [u|] eqn:Hjoin; [| discriminate Hout].
      rewrite (IH _ Hout x). split.
      * intros [H | (reference & Hin & Hk & Hj)].
        -- apply elem_of_union in H as [H | H]; [left; exact H | right].
           apply elem_of_singleton in H as ->. exists r.
           split; [apply list_elem_of_here | split; assumption].
        -- right. exists reference. split; [apply list_elem_of_further, Hin |].
           split; assumption.
      * intros [H | (reference & Hin & Hk & Hj)]; [left; set_solver |].
        apply elem_of_cons in Hin as [-> | Hin].
        -- left. assert (x = u) as -> by congruence. set_solver.
        -- right. exists reference. split; [exact Hin | split; assumption].
    + rewrite out_ret, self_ret in Hout. rewrite (IH _ Hout x). split.
      * intros [H | (reference & Hin & Hk & Hj)]; [left; exact H | right].
        exists reference. split; [apply list_elem_of_further, Hin | split; assumption].
      * intros [H | (reference & Hin & Hk & Hj)]; [left; exact H | right].
        apply elem_of_cons in Hin as [-> | Hin]; [congruence |].
        exists reference. split; [exact Hin | split; assumption].
Qed.

Lemma harvest_loop_state_irrelevant (keep : string -> bool) (base : string)
    (references : list string) (acc : gset string) (st1 st2 : finder) :
  out (for_each (fun urls reference =>
                   if keep reference then harvest urljoin base urls reference
                   else mret urls) acc references st1)
  = out (for_each (fun urls reference =>
                     if keep reference then harvest urljoin base urls reference
                     else mret urls) acc references st2).
Proof.
  revert acc. induction references as [|r l IH]; intros acc; [reflexivity |].
  cbn [for_each]. rewrite !out_bind.
  destruct (keep r).
  - destruct (harvest_spec urljoin base acc r st1) as [Ho1 Hs1].
    destruct (harvest_spec urljoin base acc r st2) as [Ho2 Hs2].
    rewrite Ho1, Ho2, Hs1, Hs2. destruct (urljoin base r); [apply IH | reflexivity].
  - rewrite !out_ret, !self_ret. apply IH.
Qed.

Lemma plain_harvest_as_kept (base : string) (references : list string)
    (acc : gset string) (st : finder) :
  for_each (fun urls reference => if (fun _ : string => true) reference
                                  then harvest urljoin base urls reference
                                  else mret urls) acc references st
  = for_each (harvest urljoin base) acc references st.
Proof. apply for_each_ext. reflexivity. Qed.

Lemma plain_harvest_loop_exact (base : string) (references : list string)
    (acc : gset string) (st : finder) (R : gset string) :
  out (for_each (harvest urljoin base) acc references st) = Returned R →
  ∀ x, x ∈ R ↔
    x ∈ acc ∨ ∃ reference, reference ∈ references ∧ urljoin base reference = Some x.
Proof.
  intros Hout x.
  pose proof (harvest_loop_exact (fun _ => true) base references acc st R
                (eq_trans (f_equal out (plain_harvest_as_kept base references acc st)) Hout)
                x) as HE.
  rewrite HE. split.
  - intros [H | (reference & Hin & _ & Hj)]; [left; exact H | right].
    exists reference. split; assumption.
  - intros [H | (reference & Hin & Hj)]; [left; exact H | right].
    exists reference. split; [exact Hin | split; [reflexivity | exact Hj]].
Qed.

Lemma plain_harvest_loop_state_irrelevant (base : string) (references : list string)
    (acc : gset string) (st1 st2 : finder) :
  out (for_each (harvest urljoin base) acc references st1)
  = out (for_each (harvest urljoin base) acc references st2).
Proof.
  rewrite <- (plain_harvest_as_kept base references acc st1).
  rewrite <- (plain_harvest_as_kept base references acc st2).
  apply (harvest_loop_state_irrelevant (fun _ => true)).
Qed.

(** [urls_to_analyze] holds exactly the resolved harvested references. *)
Lemma urls_of_page_spec (base : string) (doc : Bs4.soup) (urls : gset string) :
  urls_of_page urljoin base doc urls →
  ∀ u, u ∈ urls ↔ ∃ reference, harvested doc reference ∧ urljoin base reference = Some u.
Proof.
  intros (urls1 & urls2 & st & H1 & H2 & H3) u.
  rewrite (harvest_loop_exact _ _ _ _ _ _ H3 u), (plain_harvest_loop_exact _ _ _ _ _ H2 u),
    (plain_harvest_loop_exact _ _ _ _ _ H1 u).
  unfold harvested. split.
  - intros [[[H | (reference & Hin & Hj)] | (reference & Hin & Hj)]
            | (reference & Hin & Hk & Hj)].
    + apply not_elem_of_empty in H. destruct H.
    + apply list_elem_of_omap in Hin as (a_tag & Ha & Hg).
      exists reference. split; [left; exists a_tag; split; assumption | exact Hj].
    + apply list_elem_of_omap in Hin as (form_tag & Hf & Hg).
      exists reference. split; [right; left; exists form_tag; split; assumption | exact Hj].
    + exists reference. split; [right; right; split; assumption | exact Hj].
  - intros (reference & [(a_tag & Ha & Hg) | [(form_tag & Hf & Hg) | [Hin Hk]]] & Hj).
    + left. left. right. exists reference.
      split; [apply list_elem_of_omap; exists a_tag; split; assumption | exact Hj].
    + left. right. exists reference.
      split; [apply list_elem_of_omap; exists form_tag; split; assumption | exact Hj].
    + right. exists reference. split; [exact Hin | split; assumption].
Qed.

(** The path pass, when it returns on a fetched page: the URLs were
    harvested, the loop over them returned some names, and these went to the
    bucket. *)
Lemma path_pass_returns_inv (st : finder) (html : string) :
  page st = Some html →
  out (extract_potential_path_parameters BeautifulSoup urljoin order st) = Returned tt →
  ∃ urls R,
    urls_of_page urljoin (url st) (BeautifulSoup html) urls
    ∧ out (for_each analyze_url ∅ (order UrlsToAnalyze urls) st) = Returned R
    ∧ self (extract_potential_path_parameters BeautifulSoup urljoin order st)
      = (if bool_decide (R = ∅) then fun st' => st' else update_found PathRoute R)
          (self (for_each analyze_url ∅ (order UrlsToAnalyze urls) st)).
Proof.
  intros Hpage. unfold extract_potential_path_parameters.
  rewrite out_bind, self_bind, out_get_self, self_get_self. cbv beta iota.
  rewrite Hpage. set (soup := BeautifulSoup html). intros Hout.
  apply bind_returned_inv in Hout as (urls1 & Ho1 & Hout & -> & _).
  rewrite (proj1 (plain_harvest_loop_spec urljoin (url st) _ ∅ st)) in *.
  apply bind_returned_inv in Hout as (urls2 & Ho2 & Hout & -> & _).
  rewrite (proj1 (plain_harvest_loop_spec urljoin (url st) _ urls1 st)) in *.
  apply bind_returned_inv in Hout as (urls3 & Ho3 & Hout & -> & _).
  rewrite (proj1 (harvest_loop_spec urljoin _ (url st) _ urls2 st)) in *.
  apply bind_returned_inv in Hout as ([] & _ & Hout & -> & _).
  rewrite self_print in *.
  apply bind_returned_inv in Hout as (R & Ho5 & Hout & -> & _).
  exists urls3, R. split; [exists urls1, urls2, st; repeat split; assumption |].
  split; [exact Ho5 |].
  destruct (bool_decide (R = ∅)).
  - rewrite self_print. reflexivity.
  - rewrite self_bind, out_print, self_print, self_modify. reflexivity.
Qed.

Lemma path_pass_spec (st : finder) (html : string) :
  page st = Some html →
  let r := extract_potential_path_parameters BeautifulSoup urljoin order st in
  out r = Returned tt →
  (∀ name, name ∈ bucket PathRoute (found_parameters (self r)) ↔
     name ∈ bucket PathRoute (found_parameters st)
     ∨ ∃ reference resolved,
         harvested (BeautifulSoup html) reference
         ∧ urljoin (url st) reference = Some resolved
         ∧ (resolved ∉ processed_urls st)
         ∧ name ∈ url_names resolved)
  ∧ (∀ reference resolved,
       harvested (BeautifulSoup html) reference →
       urljoin (url st) reference = Some resolved →
       resolved ∈ processed_urls (self r))
  ∧ processed_urls st ⊆ processed_urls (self r).
Proof.
  intros Hpage. cbn zeta. intros Hout.
  destruct (path_pass_returns_inv st html Hpage Hout) as (urls & R & Hurls & HoR & Hself).
  pose proof (urls_of_page_spec _ _ _ Hurls) as Hu.
  destruct (analyze_urls_spec (order UrlsToAnalyze urls) ∅ st)
    as (_ & _ & Hf & Hbad & Hgood).
  cbn zeta in Hf, Hbad, Hgood.
  destruct (bad_or_good (processed_urls st) (order UrlsToAnalyze urls)) as [Hb | Hg].
  { rewrite (Hbad Hb) in HoR. discriminate HoR. }
  destruct (Hgood Hg) as (R' & HR' & Hproc & Hx). rewrite HR' in HoR.
  injection HoR as ->.
  assert (Hlist : ∀ u, u ∈ order UrlsToAnalyze urls ↔ u ∈ urls).
  { intros u. rewrite (valid UrlsToAnalyze urls). apply elem_of_elements. }
  assert (HR : ∀ name, name ∈ R ↔
            ∃ reference resolved, harvested (BeautifulSoup html) reference
              ∧ urljoin (url st) reference = Some resolved
              ∧ (resolved ∉ processed_urls st) ∧ name ∈ url_names resolved).
  { intros name. rewrite Hx. split.
    - intros [H | (u & Hin & Hfresh & Hn)]; [apply not_elem_of_empty in H; destruct H |].
      apply Hlist, Hu in Hin as (reference & Hh & Hj).
      exists reference, u. repeat split; assumption.
    - intros (reference & resolved & Hh & Hj & Hfresh & Hn). right.
      exists resolved. split; [| split; assumption].
      apply Hlist, Hu. exists reference. split; assumption. }
  assert (Hprocessed : processed_urls
            (self (extract_potential_path_parameters BeautifulSoup urljoin order st))
          = processed_urls st ∪ list_to_set (order UrlsToAnalyze urls)).
  { rewrite Hself. destruct (bool_decide (R = ∅)); [exact Hproc |].
    cbn [update_found processed_urls]. exact Hproc. }
  split; [| split].
  - intros name. rewrite Hself, <- HR.
    destruct (bool_decide (R = ∅)) eqn:HRe.
    + apply bool_decide_eq_true in HRe. rewrite Hf, HRe. set_solver.
    + cbn [update_found found_parameters]. rewrite bucket_update_eq, Hf. set_solver.
  - intros reference resolved Hh Hj. rewrite Hprocessed.
    apply elem_of_union. right. apply elem_of_list_to_set, Hlist, Hu.
    exists reference. split; assumption.
  - rewrite Hprocessed. set_solver.
Qed.

(** When the path pass returns on a fetched page, a name is in the
    Path/Route bucket exactly when it was there before or some segment of a
    harvested, resolved, not yet processed URL gives it.  Every URL of the
    page is processed afterwards, and none is forgotten. *)
Theorem path_bucket_after_the_pass (st : finder) (html : string) :
  page st = Some html →
  let r := extract_potential_path_parameters BeautifulSoup urljoin order st in
  out r = Returned tt →
  (∀ name, name ∈ bucket PathRoute (found_parameters (self r)) ↔
     name ∈ bucket PathRoute (found_parameters st)
     ∨ ∃ reference resolved,
         harvested (BeautifulSoup html) reference
         ∧ urljoin (url st) reference = Some resolved
         ∧ (resolved ∉ processed_urls st)
         ∧ name ∈ url_names resolved)
  ∧ (∀ reference resolved,
       harvested (BeautifulSoup html) reference →
       urljoin (url st) reference = Some resolved →
       resolved ∈ processed_urls (self r))
  ∧ processed_urls st ⊆ processed_urls (self r).
Proof. exact (path_pass_spec st html). Qed.

(** Running the path pass again on the object a first run left changes no
    bucket: every URL of the page is now in [processed_urls] and is
    skipped. *)
Theorem path_pass_again_adds_nothing (st : finder) (html : string) :
  page st = Some html →
  let st' := self (extract_potential_path_parameters BeautifulSoup urljoin order st) in
  out (extract_potential_path_parameters BeautifulSoup urljoin order st) = Returned tt →
  out (extract_potential_path_parameters BeautifulSoup urljoin order st') = Returned tt
  ∧ found_parameters
      (self (extract_potential_path_parameters BeautifulSoup urljoin order st'))
    = found_parameters st'.
Proof.
  intros Hpage. cbn zeta. intros Hout.
  set (st' := self (extract_potential_path_parameters BeautifulSoup urljoin order st)).
  destruct (tame_path_pass BeautifulSoup urljoin order st) as (_ & Hurl & Hhtml & _ & _).
  fold st' in Hurl, Hhtml.
  assert (Hpage' : page st' = Some html).
  { unfold page in *. rewrite Hhtml. exact Hpage. }
  destruct (path_pass_spec st html Hpage Hout) as (_ & Hdone & _).
  fold st' in Hdone.
  destruct (path_pass_returns_inv st html Hpage Hout) as (urls & R & Hurls & _ & _).
  assert (Hurls' : urls_of_page urljoin (url st') (BeautifulSoup html) urls)
    by (rewrite Hurl; exact Hurls).
  pose proof (urls_of_page_spec _ _ _ Hurls) as Hu.
  (* the second run *)
  assert (Hloop : out (for_each analyze_url ∅ (order UrlsToAnalyze urls) st') = Returned ∅
                  ∧ found_parameters (self (for_each analyze_url ∅
                                              (order UrlsToAnalyze urls) st'))
                    = found_parameters st').
  { destruct (analyze_urls_spec (order UrlsToAnalyze urls) ∅ st')
      as (_ & _ & Hf & _ & Hgood).
    cbn zeta in Hf, Hgood. split; [| exact Hf].
    assert (Hall : Forall (fun u => u ∈ processed_urls st' ∨ is_Some (Url.urlparse u))
                     (order UrlsToAnalyze urls)).
    { apply Forall_forall. intros u Hin. left.
      rewrite (valid UrlsToAnalyze urls) in Hin. apply elem_of_elements, Hu in Hin.
      destruct Hin as (reference & Hh & Hj). exact (Hdone reference u Hh Hj). }
    destruct (Hgood Hall) as (R' & HR' & _ & Hx). rewrite HR'. f_equal.
    apply set_eq. intros x. rewrite Hx. split; [| intros H; left; exact H].
    intros [H | (u & Hin & Hfresh & _)]; [exact H |]. exfalso. apply Hfresh.
    rewrite (valid UrlsToAnalyze urls) in Hin. apply elem_of_elements, Hu in Hin.
    destruct Hin as (reference & Hh & Hj). exact (Hdone reference u Hh Hj). }
  destruct Hloop as [HoL HfL].
  destruct Hurls' as (urls1 & urls2 & st0 & H1 & H2 & H3).
  rewrite (plain_harvest_loop_state_irrelevant _ _ _ st0 st') in H1.
  rewrite (plain_harvest_loop_state_irrelevant _ _ _ st0 st') in H2.
  rewrite (harvest_loop_state_irrelevant _ _ _ _ st0 st') in H3.
  clearbody st'. unfold extract_potential_path_parameters.
  rewrite !out_bind, !self_bind, !out_get_self, !self_get_self. cbv beta iota.
  rewrite Hpage'.
  rewrite !out_bind, !self_bind, H1.
  rewrite (proj1 (plain_harvest_loop_spec urljoin (url st') _ ∅ st')).
  rewrite !out_bind, !self_bind, H2.
  rewrite (proj1 (plain_harvest_loop_spec urljoin (url st') _ urls1 st')).
  rewrite !out_bind, !self_bind, H3.
  rewrite (proj1 (harvest_loop_spec urljoin _ (url st') _ urls2 st')).
  rewrite !out_bind, !self_bind, !out_print, !self_print.
  rewrite HoL. rewrite bool_decide_eq_true_2 by reflexivity.
  rewrite out_print, self_print. split; [reflexivity | exact HfL].
Qed.

(** A harvesting loop returns exactly when every reference it keeps
    resolves. *)
Lemma harvest_loop_returns (keep : string -> bool) (base : string)
    (references : list string) (acc : gset string) (st : finder) :
  (∃ R, out (for_each (fun urls reference =>
                         if keep reference then harvest urljoin base urls reference
                         else mret urls) acc references st) = Returned R)
  ↔ ∀ reference, reference ∈ references → keep reference = true →
                 is_Some (urljoin base reference).
Proof.
  revert acc. induction references as [|r l IH]; intros acc.
  - cbn [for_each]. rewrite out_ret. split; [| intros _; eexists; reflexivity].
    intros _ reference H. apply not_elem_of_nil in H. destruct H.
  - cbn [for_each]. rewrite out_bind. destruct (keep r) eqn:Hkeep.
    + destruct (harvest_spec urljoin base acc r st) as [Ho Hs]. rewrite Ho, Hs.
      destruct (urljoin base r) as [u|] eqn:Hjoin.
      * rewrite IH. split.
        -- intros H reference Hin Hk. apply elem_of_cons in Hin as [-> | Hin];
             [rewrite Hjoin; eexists; reflexivity | exact (H reference Hin Hk)].
        -- intros H reference Hin Hk. apply H; [apply list_elem_of_further, Hin | exact Hk].
      * split; [intros [R HR]; discriminate HR |].
        intros H. destruct (H r (list_elem_of_here _ _) Hkeep) as [u Hu].
        rewrite Hjoin in Hu. discriminate Hu.
    + rewrite out_ret, self_ret, IH. split.
      * intros H reference Hin Hk. apply elem_of_cons in Hin as [-> | Hin];
          [congruence | exact (H reference Hin Hk)].
      * intros H reference Hin Hk. apply H; [apply list_elem_of_further, Hin | exact Hk].
Qed.

Lemma plain_harvest_loop_returns (base : string) (references : list string)
    (acc : gset string) (st : finder) :
  (∃ R, out (for_each (harvest urljoin base) acc references st) = Returned R)
  ↔ ∀ reference, reference ∈ references → is_Some (urljoin base reference).
Proof.
  rewrite <- (plain_harvest_as_kept base references acc st).
  rewrite (harvest_loop_returns (fun _ => true)). split.
  - intros H reference Hin. exact (H reference Hin eq_refl).
  - intros H reference Hin _. exact (H reference Hin).
Qed.

(** The harvesting returns exactly when every harvested reference
    resolves. *)
Lemma urls_of_page_exists (base : string) (doc : Bs4.soup) :
  (∃ urls, urls_of_page urljoin base doc urls)
  ↔ ∀ reference, harvested doc reference → is_Some (urljoin base reference).
Proof.
  split.
  - intros (urls & urls1 & urls2 & st & H1 & H2 & H3) reference Hh.
    destruct Hh as [(a_tag & Ha & Hg) | [(form_tag & Hf & Hg) | [Hin Hk]]].
    + apply (proj1 (plain_harvest_loop_returns _ _ _ _) (ex_intro _ urls1 H1)).
      apply list_elem_of_omap. exists a_tag. split; assumption.
    + apply (proj1 (plain_harvest_loop_returns _ _ _ _) (ex_intro _ urls2 H2)).
      apply list_elem_of_omap. exists form_tag. split; assumption.
    + exact (proj1 (harvest_loop_returns _ _ _ _ _) (ex_intro _ urls H3)
               reference Hin Hk).
  - intros H.
    destruct (proj2 (plain_harvest_loop_returns base
                (omap (fun a_tag => Bs4.get a_tag "href")
                   (Bs4.find_all_with "a" "href" doc)) ∅ (__init__ ""))) as [urls1 H1].
    { intros reference Hin. apply H. left.
      apply list_elem_of_omap in Hin as (a_tag & Ha & Hg). exists a_tag. split; assumption. }
    destruct (proj2 (plain_harvest_loop_returns base
                (omap (fun form_tag => Bs4.get form_tag "action")
                   (Bs4.find_all_with "form" "action" doc)) urls1 (__init__ "")))
      as [urls2 H2].
    { intros reference Hin. apply H. right. left.
      apply list_elem_of_omap in Hin as (form_tag & Hf & Hg).
      exists form_tag. split; assumption. }
    destruct (proj2 (harvest_loop_returns
                (fun found_url => (2 <? PyStr.len found_url)%nat
                                  && negb (PyStr.startswith found_url "//"))
                base (Re.findall1 Patterns.js_url (script_text doc)) urls2 (__init__ "")))
      as [urls H3].
    { intros reference Hin Hk. apply H. right. right. split; assumption. }
    exists urls, urls1, urls2, (__init__ ""). repeat split; assumption.
Qed.

(** How the path pass ends once the harvesting has returned. *)
Lemma path_pass_out (st : finder) (html : string) (urls : gset string) :
  page st = Some html →
  urls_of_page urljoin (url st) (BeautifulSoup html) urls →
  out (extract_potential_path_parameters BeautifulSoup urljoin order st)
  = match out (for_each analyze_url ∅ (order UrlsToAnalyze urls) st) with
    | Returned _ => Returned tt
    | SystemExit code => SystemExit code
    | Raised e => Raised e
    end.
Proof.
  intros Hpage (urls1 & urls2 & st0 & H1 & H2 & H3).
  rewrite (plain_harvest_loop_state_irrelevant _ _ _ st0 st) in H1.
  rewrite (plain_harvest_loop_state_irrelevant _ _ _ st0 st) in H2.
  rewrite (harvest_loop_state_irrelevant _ _ _ _ st0 st) in H3.
  unfold extract_potential_path_parameters.
  rewrite !out_bind, !out_get_self, !self_get_self. cbv beta iota. rewrite Hpage.
  rewrite !out_bind, H1.
  rewrite (proj1 (plain_harvest_loop_spec urljoin (url st) _ ∅ st)).
  rewrite !out_bind, H2.
  rewrite (proj1 (plain_harvest_loop_spec urljoin (url st) _ urls1 st)).
  rewrite !out_bind, H3.
  rewrite (proj1 (harvest_loop_spec urljoin _ (url st) _ urls2 st)).
  rewrite !out_bind, !out_print, !self_print.
  destruct (out (for_each analyze_url ∅ (order UrlsToAnalyze urls) st)) as [R | |];
    try reflexivity.
  destruct (bool_decide (R = ∅)); run_step; reflexivity.
Qed.

(** The path pass returns when every harvested reference resolves to a URL
    that was processed before or that parses. *)
Lemma path_pass_returns (st : finder) (html : string) :
  page st = Some html →
  (∀ reference, harvested (BeautifulSoup html) reference →
     ∃ resolved, urljoin (url st) reference = Some resolved
                 ∧ (resolved ∈ processed_urls st ∨ is_Some (Url.urlparse resolved))) →
  out (extract_potential_path_parameters BeautifulSoup urljoin order st) = Returned tt.
Proof.
  intros Hpage H.
  assert (Hlist : ∀ urls u, u ∈ order UrlsToAnalyze urls ↔ u ∈ urls).
  { intros urls u. rewrite (valid UrlsToAnalyze urls). apply elem_of_elements. }
  destruct (proj2 (urls_of_page_exists (url st) (BeautifulSoup html))) as [urls Hurls].
  { intros reference Hh. destruct (H reference Hh) as (resolved & Hj & _).
    rewrite Hj. eexists. reflexivity. }
  pose proof (urls_of_page_spec _ _ _ Hurls) as Hu.
  rewrite (path_pass_out st html urls Hpage Hurls).
  destruct (analyze_urls_spec (order UrlsToAnalyze urls) ∅ st)
    as (_ & _ & _ & _ & Hgood).
  cbn zeta in Hgood.
  destruct Hgood as (R & HR & _).
  { apply Forall_forall. intros u Hin.
    apply Hlist, Hu in Hin as (reference & Hh & Hj).
    destruct (H reference Hh) as (resolved & Hj' & Hgood').
    rewrite Hj in Hj'. injection Hj' as ->. exact Hgood'. }
  rewrite HR. reflexivity.
Qed.

(** A harvesting loop that does not return raised [ValueError]. *)
Lemma harvest_loop_raises (keep : string -> bool) (base : string)
    (references : list string) (acc : gset string) (st : finder) :
  (∃ R, out (for_each (fun urls reference =>
                         if keep reference then harvest urljoin base urls reference
                         else mret urls) acc references st) = Returned R)
  ∨ out (for_each (fun urls reference =>
                     if keep reference then harvest urljoin base urls reference
                     else mret urls) acc references st) = Raised "ValueError".
Proof.
  revert acc. induction references as [|r l IH]; intros acc.
  - left. eexists. reflexivity.
  - cbn [for_each]. rewrite out_bind. destruct (keep r).
    + destruct (harvest_spec urljoin base acc r st) as [Ho Hs]. rewrite Ho, Hs.
      destruct (urljoin base r); [apply IH | right; reflexivity].
    + rewrite out_ret, self_ret. apply IH.
Qed.

Lemma plain_harvest_loop_raises (base : string) (references : list string)
    (acc : gset string) (st : finder) :
  (∃ R, out (for_each (harvest urljoin base) acc references st) = Returned R)
  ∨ out (for_each (harvest urljoin base) acc references st) = Raised "ValueError".
Proof.
  rewrite <- (plain_harvest_as_kept base references acc st).
  apply (harvest_loop_raises (fun _ => true)).
Qed.

(** The path pass returns when every link of the page resolves to a URL
    that was processed before or that parses.  When some harvested reference
    does not resolve, [urljoin] raises [ValueError] while the URLs are still
    being collected: nothing catches it, and the pass dies with the object
    as it was, before any URL is analysed. *)
Theorem path_pass_returns_or_dies (st : finder) (html : string) :
  page st = Some html →
  let r := extract_potential_path_parameters BeautifulSoup urljoin order st in
  ((∀ reference, harvested (BeautifulSoup html) reference →
      ∃ resolved, urljoin (url st) reference = Some resolved
                  ∧ (resolved ∈ processed_urls st ∨ is_Some (Url.urlparse resolved))) →
   out r = Returned tt)
  ∧ ((∃ reference, harvested (BeautifulSoup html) reference
                   ∧ urljoin (url st) reference = None) →
     out r = Raised "ValueError" ∧ self r = st).
Proof.
  intros Hpage. cbn zeta. split; [apply path_pass_returns, Hpage |].
  intros (reference & Hh & Hnone).
  assert (Hno : ¬ ∃ urls, urls_of_page urljoin (url st) (BeautifulSoup html) urls).
  { intros Hurls.
    destruct (proj1 (urls_of_page_exists (url st) (BeautifulSoup html)) Hurls
                reference Hh) as [u Hu].
    congruence. }
  unfold extract_potential_path_parameters.
  rewrite out_bind, self_bind, out_get_self, self_get_self. cbv beta iota.
  rewrite Hpage. set (soup := BeautifulSoup html).
  rewrite out_bind, self_bind.
  pose proof (proj1 (plain_harvest_loop_spec urljoin (url st)
    (omap (fun a_tag => Bs4.get a_tag "href") (Bs4.find_all_with "a" "href" soup))
    ∅ st)) as Hs1.
  destruct (plain_harvest_loop_raises (url st)
    (omap (fun a_tag => Bs4.get a_tag "href") (Bs4.find_all_with "a" "href" soup))
    ∅ st) as [[urls1 H1] | H1]; rewrite H1; [| split; [reflexivity | exact Hs1]].
  cbn zeta in Hs1. rewrite Hs1. rewrite out_bind, self_bind.
  pose proof (proj1 (plain_harvest_loop_spec urljoin (url st)
    (omap (fun form_tag => Bs4.get form_tag "action")
       (Bs4.find_all_with "form" "action" soup)) urls1 st)) as Hs2.
  destruct (plain_harvest_loop_raises (url st)
    (omap (fun form_tag => Bs4.get form_tag "action")
       (Bs4.find_all_with "form" "action" soup)) urls1 st) as [[urls2 H2] | H2];
    rewrite H2; [| split; [reflexivity | exact Hs2]].
  cbn zeta in Hs2. rewrite Hs2. rewrite out_bind, self_bind.
  pose proof (proj1 (harvest_loop_spec urljoin
    (fun found_url => (2 <? PyStr.len found_url)%nat
                      && negb (PyStr.startswith found_url "//"))
    (url st) (Re.findall1 Patterns.js_url (script_text soup)) urls2 st)) as Hs3.
  destruct (harvest_loop_raises
    (fun found_url => (2 <? PyStr.len found_url)%nat
                      && negb (PyStr.startswith found_url "//"))
    (url st) (Re.findall1 Patterns.js_url (script_text soup)) urls2 st)
    as [[urls3 H3] | H3]; rewrite H3; [| split; [reflexivity | exact Hs3]].
  exfalso. apply Hno. exists urls3, urls1, urls2, st. repeat split; assumption.
Qed.

End PathPassExact.

(** C9: a harvested link whose URL has a path segment that begins with an
    identifier [a w] and goes on with a character [c] outside
    [[a-zA-Z0-9_$]] ([style.css], [my-page]) makes the explicit-placeholder
    heuristic give the identifier, as for a delimited placeholder, and the
    path pass, when it returns, has put it in the Path/Route bucket.  The
    pass returns whenever every link of the page resolves to a URL that was
    processed before or that parses. *)
Theorem identifier_prefix_is_emitted (BeautifulSoup : string -> Bs4.soup)
    (urljoin : string -> string -> option string)
    (order : site -> gset string -> list string) (st : finder)
    (html reference resolved : string) (parsed : Url.ParseResult) (i : nat)
    (a c : ascii) (w rest : string) :
  valid_order order →
  Patterns.ident_start a = true → PyStr.all Patterns.ident_char w = true →
  Patterns.ident_char c = false →
  page st = Some html →
  harvested (BeautifulSoup html) reference →
  urljoin (url st) reference = Some resolved →
  resolved ∉ processed_urls st →
  Url.urlparse resolved = Some parsed →
  segments_of (Url.path parsed) !! i = Some (String a w +:+ String c rest) →
  let r := extract_potential_path_parameters BeautifulSoup urljoin order st in
  explicit_placeholder (String a w +:+ String c rest) = Some (String a w)
  ∧ (out r = Returned tt →
     String a w ∈ bucket PathRoute (found_parameters (self r)))
  ∧ ((∀ other, harvested (BeautifulSoup html) other →
        ∃ u, urljoin (url st) other = Some u
             ∧ (u ∈ processed_urls st ∨ is_Some (Url.urlparse u))) →
     out r = Returned tt).
Proof.
  intros Hvalid Ha Hw Hc Hpage Hharv Hjoin Hfresh Hparse Hseg. cbn zeta.
  destruct (identifier_prefix_found a c w rest resolved
              (segments_of (Url.path parsed)) i ∅ st Ha Hw Hc) as [He _].
  split; [exact He |]. split.
  - intros Hout.
    destruct (path_pass_spec BeautifulSoup urljoin order Hvalid st html Hpage Hout)
      as (Hbucket & _ & _).
    apply Hbucket. right. exists reference, resolved.
    split; [exact Hharv |]. split; [exact Hjoin |]. split; [exact Hfresh |].
    unfold url_names. rewrite Hparse. unfold hints_of.
    apply elem_of_list_to_set, list_elem_of_bind.
    exists (i, String a w +:+ String c rest). split.
    + unfold segment_hints. cbn [fst snd]. rewrite He. apply list_elem_of_here.
    + apply (elem_of_lookup_imap_2 (fun i x => (i, x)) _ _ i Hseg).
  - apply (path_pass_returns BeautifulSoup urljoin order Hvalid st html Hpage).
Qed.

(** A page that links to [/static/style.css] and to [/my-page]: [style]
    and [my] are in the Path/Route bucket after the pass. *)
Lemma identifier_prefix_is_emitted_witness :
  let r := extract_potential_path_parameters
    (fun _ => [Bs4.Tag "a" {["href" := "/static/style.css"]} [];
               Bs4.Tag "a" {["href" := "/my-page"]} []])
    (fun _ reference => Some ("http://h" +:+ reference))
    (fun _ X => elements X)
    (set_html_content "<a>" (__init__ "http://h/")) in
  explicit_placeholder "style.css" = Some "style"
  ∧ explicit_placeholder "my-page" = Some "my"
  ∧ "style" ∈ bucket PathRoute (found_parameters (self r))
  ∧ "my" ∈ bucket PathRoute (found_parameters (self r)).
Proof.
  cbn zeta.
  destruct (identifier_prefix_is_emitted
    (fun _ => [Bs4.Tag "a" {["href" := "/static/style.css"]} [];
               Bs4.Tag "a" {["href" := "/my-page"]} []])
    (fun _ reference => Some ("http://h" +:+ reference))
    (fun _ X => elements X)
    (set_html_content "<a>" (__init__ "http://h/"))
    "<a>" "/static/style.css" "http://h/static/style.css"
    {| Url.scheme := "http"; Url.netloc := "h"; Url.path := "/static/style.css";
       Url.params := ""; Url.query := ""; Url.fragment := "" |} 1
    "s" "." "tyle" "css") as (He1 & Hin1 & _).
  { intros s X. reflexivity. }
  { reflexivity. }
  { reflexivity. }
  { reflexivity. }
  { reflexivity. }
  { left. exists (Bs4.Tag "a" {["href" := "/static/style.css"]} []).
    split; [apply list_elem_of_here | reflexivity]. }
  { reflexivity. }
  { cbn. apply not_elem_of_empty. }
  { reflexivity. }
  { reflexivity. }
  destruct (identifier_prefix_is_emitted
    (fun _ => [Bs4.Tag "a" {["href" := "/static/style.css"]} [];
               Bs4.Tag "a" {["href" := "/my-page"]} []])
    (fun _ reference => Some ("http://h" +:+ reference))
    (fun _ X => elements X)
    (set_html_content "<a>" (__init__ "http://h/"))
    "<a>" "/my-page" "http://h/my-page"
    {| Url.scheme := "http"; Url.netloc := "h"; Url.path := "/my-page";
       Url.params := ""; Url.query := ""; Url.fragment := "" |} 0
    "m" "-" "y" "page") as (He2 & Hin2 & _).
  { intros s X. reflexivity. }
  { reflexivity. }
  { reflexivity. }
  { reflexivity. }
  { reflexivity. }
  { left. exists (Bs4.Tag "a" {["href" := "/my-page"]} []).
    split; [apply list_elem_of_further, list_elem_of_here | reflexivity]. }
  { reflexivity. }
  { cbn. apply not_elem_of_empty. }
  { reflexivity. }
  { reflexivity. }
  split; [exact He1 |]. split; [exact He2 |].
  split; [apply Hin1 | apply Hin2]; vm_compute; reflexivity.
Defined.

Lemma path_bucket_after_the_pass_witness :
  let BeautifulSoup := fun _ : string => [Bs4.Tag "a" {["href" := "/users/42"]} []] in
  let urljoin := fun _ reference : string => Some ("http://h" +:+ reference) in
  let st := set_html_content "<a>" (__init__ "http://h/") in
  let r := extract_potential_path_parameters BeautifulSoup urljoin
             (fun _ X => elements X) st in
  (∀ name, name ∈ bucket PathRoute (found_parameters (self r)) ↔
     name ∈ bucket PathRoute (found_parameters st)
     ∨ ∃ reference resolved,
         harvested (BeautifulSoup "<a>") reference
         ∧ urljoin (url st) reference = Some resolved
         ∧ (resolved ∉ processed_urls st)
         ∧ name ∈ url_names resolved)
  ∧ (∀ reference resolved,
       harvested (BeautifulSoup "<a>") reference →
       urljoin (url st) reference = Some resolved →
       resolved ∈ processed_urls (self r))
  ∧ processed_urls st ⊆ processed_urls (self r).
Proof.
  cbn zeta.
  apply (path_bucket_after_the_pass
    (fun _ => [Bs4.Tag "a" {["href" := "/users/42"]} []])
    (fun _ reference => Some ("http://h" +:+ reference))
    (fun _ X => elements X) ltac:(intros s X; reflexivity)
    (set_html_content "<a>" (__init__ "http://h/")) "<a>").
  - reflexivity.
  - vm_compute. reflexivity.
Defined.

Lemma path_pass_again_adds_nothing_witness :
  let pass := extract_potential_path_parameters
    (fun _ => [Bs4.Tag "a" {["href" := "/users/42"]} []])
    (fun _ reference => Some ("http://h" +:+ reference))
    (fun _ X => elements X) in
  let st' := self (pass (set_html_content "<a>" (__init__ "http://h/"))) in
  out (pass st') = Returned tt
  ∧ found_parameters (self (pass st')) = found_parameters st'.
Proof.
  cbn zeta.
  apply (path_pass_again_adds_nothing
    (fun _ => [Bs4.Tag "a" {["href" := "/users/42"]} []])
    (fun _ reference => Some ("http://h" +:+ reference))
    (fun _ X => elements X) ltac:(intros s X; reflexivity)
    (set_html_content "<a>" (__init__ "http://h/")) "<a>").
  - reflexivity.
  - vm_compute. reflexivity.
Defined.

(** ** The slug heuristic (source lines 123-140) *)

(** A slug hint is one of six names.  The five previous segments that give
    a name of their own all end in [s], so the [_name] form of line 137 is
    never produced, and [categories] gives [categorie_slug].  A segment that
    gives a slug hint is longer than two characters and gives no numeric
    hint. *)
Theorem slug_hint_is_one_of_six (path_segments : list string) (i : nat)
    (segment name : string) :
  slug_hint path_segments i segment = Some name →
  name ∈ ["slug"; "product_slug"; "article_slug"; "post_slug"; "categorie_slug";
          "user_slug"]
  ∧ numeric_hint path_segments i segment = None
  ∧ (2 < PyStr.len segment)%nat.
Proof.
  unfold slug_hint, numeric_hint. intros H.
  destruct (bool_decide (is_Some (Re.match_ Patterns.slug segment)));
    [| discriminate H].
  destruct (PyStr.isdigit segment); [discriminate H |].
  destruct (2 <? PyStr.len segment)%nat eqn:Hlen; [| discriminate H].
  destruct (PyStr.among (PyStr.lower segment) common_static_segments);
    [discriminate H |].
  lazy beta iota delta [andb negb] in H |- *. apply (inj Some) in H as <-.
  split; [| split; [reflexivity | apply Nat.ltb_lt, Hlen]].
  destruct (0 <? i)%nat; [| apply list_elem_of_here].
  destruct (path_segments !! (i - 1)%nat) as [p|]; [| apply list_elem_of_here].
  cbv zeta. set (prev_segment := PyStr.lower p). clearbody prev_segment.
  destruct (PyStr.among prev_segment
              ["products"; "articles"; "posts"; "categories"; "users"]) eqn:Ha;
    [| apply list_elem_of_here].
  apply among_spec in Ha.
  repeat (apply elem_of_cons in Ha as [-> | Ha]);
    [.. | apply not_elem_of_nil in Ha; destruct Ha];
    match goal with
    | |- ?x ∈ _ => let y := eval vm_compute in x in change x with y
    end; set_solver.
Qed.

Lemma slug_hint_is_one_of_six_witness :
  "categorie_slug"
  ∈ ["slug"; "product_slug"; "article_slug"; "post_slug"; "categorie_slug"; "user_slug"]
  ∧ numeric_hint ["Categories"; "garden-tools"] 1 "garden-tools" = None
  ∧ (2 < PyStr.len "garden-tools")%nat.
Proof.
  apply (slug_hint_is_one_of_six ["Categories"; "garden-tools"] 1 "garden-tools").
  vm_compute. reflexivity.
Defined.

(** ** The text of the report (source lines 267-292) *)

Lemma printed_print_each (l : list string) (st : finder) :
  printed (for_each (fun _ param => print ("  - " +:+ param)) tt l st)
  = (fun name => "  - " +:+ name) <$> l.
Proof.
  revert st. induction l as [|x l IH]; intros st; [reflexivity |].
  cbn [for_each]. run_step. rewrite IH. reflexivity.
Qed.

Lemma printed_report_category (order : site -> gset string -> list string)
    (p : parameters) (total_found : nat) (c : category) (st : finder) :
  valid_order order →
  printed (report_category order p total_found c st) = report_block p c.
Proof.
  intros Hv. unfold report_category, report_block.
  pose proof (length_sorted order (BucketList c) (bucket c p) Hv) as Hlen.
  rewrite (sorted_order_irrelevant order (fun _ X => elements X) (BucketList c)
             (bucket c p) Hv ltac:(intros s X; reflexivity)) in *.
  destruct (sorted (elements (bucket c p))) as [|x l] eqn:Hs.
  - cbn [length] in Hlen. symmetry in Hlen. apply size_empty_iff in Hlen.
    rewrite bool_decide_eq_true_2 by (apply leibniz_equiv, Hlen).
    run_step. rewrite <- (size_empty_iff (bucket c p)) in Hlen. rewrite Hlen.
    reflexivity.
  - rewrite bool_decide_eq_false_2
      by (intros He; rewrite He, size_empty in Hlen; discriminate Hlen).
    run_step. destruct (print_each_spec (x :: l) st) as [Ho Hself].
    repeat (rewrite ?Ho, ?Hself; run_step).
    rewrite printed_print_each, Hlen. cbn [app]. f_equal.
    rewrite app_nil_r. reflexivity.
Qed.

Lemma printed_report_loop (order : site -> gset string -> list string)
    (p : parameters) (cs : list category) (total_found : nat) (st : finder) :
  valid_order order →
  printed (for_each (report_category order p) total_found cs st)
  = cs ≫= report_block p.
Proof.
  intros Hv. revert total_found st.
  induction cs as [|c cs IH]; intros total_found st; [reflexivity |].
  cbn [for_each]. run_step.
  destruct (report_category_spec order p total_found c st Hv) as [Ho Hs].
  rewrite Ho, Hs, (printed_report_category order p total_found c st Hv), IH.
  reflexivity.
Qed.

Lemma sorted_elements_spec (X : gset string) :
  Sorted String.le (sorted (elements X))
  ∧ NoDup (sorted (elements X))
  ∧ ∀ name, name ∈ sorted (elements X) ↔ name ∈ X.
Proof.
  unfold sorted. split; [apply Sorted_merge_sort; apply _ |]. split.
  - rewrite merge_sort_Permutation. apply NoDup_elements.
  - intros name. rewrite merge_sort_Permutation. apply elem_of_elements.
Qed.

(** The report is the banner, one block per bucket in the fixed order of
    the six keys, and the closing lines with the sum of the bucket sizes.
    A block depends on its bucket alone: it lists each name of the bucket
    once, in ascending order, whatever order Python walks the set in. *)
Theorem report_is_six_sorted_blocks (order : site -> gset string -> list string)
    (st : finder) :
  valid_order order →
  let p := found_parameters st in
  printed (display_results order st)
  = [String "010" rule; "           Parameter Discovery Results           "; rule;
     "Target URL: " +:+ url st +:+ String "010" EmptyString]
    ++ (categories ≫= report_block p)
    ++ [rule; total_line (sum_list ((fun c => size (bucket c p)) <$> categories)); rule;
        String "010" "Note: Path/Route, JavaScript, and Comment parameters are heuristic and may contain false positives due to static analysis limitations.";
        "Consider dynamic analysis (e.g., using Selenium) for a more complete picture, especially for client-side rendered parameters."]
  ∧ ∀ c, Sorted String.le (sorted (elements (bucket c p)))
         ∧ NoDup (sorted (elements (bucket c p)))
         ∧ ∀ name, name ∈ sorted (elements (bucket c p)) ↔ name ∈ bucket c p.
Proof.
  intros Hv. cbn zeta. split; [| intros c; apply sorted_elements_spec].
  unfold display_results, report_buckets.
  destruct (report_loop_spec order (found_parameters st) categories 0 st Hv) as [Ho Hs].
  pose proof (printed_report_loop order (found_parameters st) categories 0 st Hv) as Hl.
  run_step. rewrite Ho. run_step. rewrite Hl. reflexivity.
Qed.

Lemma report_is_six_sorted_blocks_witness :
  let st := update_found FormHidden {["token"]} (__init__ "http://h/") in
  Sorted String.le (sorted (elements (bucket FormHidden (found_parameters st))))
  ∧ NoDup (sorted (elements (bucket FormHidden (found_parameters st)))).
Proof.
  cbn zeta.
  destruct (proj2 (report_is_six_sorted_blocks (fun _ X => elements X)
              (update_found FormHidden {["token"]} (__init__ "http://h/"))
              ltac:(intros s X; reflexivity)) FormHidden) as (Hsorted & Hnodup & _).
  split; [exact Hsorted | exact Hnodup].
Defined.

(** ** A page with an empty body (source lines 58, 153, 187, 225) *)

(** A step that returns at once, printing nothing and leaving the object
    alone, can be dropped from a sequence. *)
Lemma bind_skip {B : Type} (m : Run unit) (k : Run B) (st : finder) :
  m st = Result (Returned tt) st [] → (m;; k) st = k st.
Proof.
  intros H. apply result_eq; run_step; rewrite H; reflexivity.
Qed.

(** Two sequences with the same first part are equal when what follows is
    equal on the object the first part leaves. *)
Lemma bind_ext_at {A B : Type} (m : Run A) (k1 k2 : A -> Run B) (st : finder) :
  (∀ a, out (m st) = Returned a → k1 a (self (m st)) = k2 a (self (m st))) →
  (m ≫= k1) st = (m ≫= k2) st.
Proof.
  intros H. apply result_eq; run_step; destruct (out (m st)) as [a | |];
    try reflexivity; rewrite (H a eq_refl); reflexivity.
Qed.

Section NoPage.
Variable BeautifulSoup : string -> Bs4.soup.
Variable urljoin : string -> string -> option string.
Variable order : site -> gset string -> list string.

(** The four passes over the page return at once when there is no page. *)
Lemma passes_without_page (st : finder) :
  page st = None →
  extract_potential_path_parameters BeautifulSoup urljoin order st
  = Result (Returned tt) st []
  ∧ extract_form_parameters BeautifulSoup st = Result (Returned tt) st []
  ∧ extract_js_parameters BeautifulSoup order st = Result (Returned tt) st []
  ∧ extract_comment_parameters BeautifulSoup order st = Result (Returned tt) st [].
Proof.
  intros Hpage.
  unfold extract_potential_path_parameters, extract_form_parameters,
    extract_js_parameters, extract_comment_parameters.
  repeat split; apply result_eq; run_step; rewrite Hpage; reflexivity.
Qed.

End NoPage.

(** When the server answers with an empty body, the four passes over the
    page do nothing at all: the run is the fetch, the pass over the query of
    the URL and the report, with the same outcome, object and output. *)
Theorem empty_body_run_is_fetch_query_report
    (requests_get : string -> Requests.reply) (BeautifulSoup : string -> Bs4.soup)
    (urljoin : string -> string -> option string)
    (order : site -> gset string -> list string) (st : finder)
    (response : Requests.Response) :
  requests_get (url st) = Requests.Replied response →
  ¬ (400 ≤ Requests.status_code response < 600)%Z →
  Requests.text response = "" →
  find_all_parameters requests_get BeautifulSoup urljoin order st
  = (fetch_page requests_get;; extract_url_query_parameters;; display_results order) st.
Proof.
  intros Hreply Hstatus Htext. unfold find_all_parameters.
  apply bind_ext_at. intros [] _.
  rewrite (fetch_page_replied requests_get st response Hreply Hstatus), Htext.
  cbn [self]. apply bind_ext_at. intros [] _.
  set (st1 := self (extract_url_query_parameters (set_html_content "" st))).
  assert (Hpage : page st1 = None).
  { destruct (tame_query_pass (set_html_content "" st)) as (_ & _ & Hh & _).
    unfold page. fold st1 in Hh. rewrite Hh. reflexivity. }
  destruct (passes_without_page BeautifulSoup urljoin order st1 Hpage)
    as (Hpath & Hform & Hjs & Hcomment).
  rewrite (bind_skip _ _ st1 Hpath), (bind_skip _ _ st1 Hform),
    (bind_skip _ _ st1 Hjs), (bind_skip _ _ st1 Hcomment).
  reflexivity.
Qed.

Lemma empty_body_run_is_fetch_query_report_witness :
  let requests_get := fun _ : string =>
    Requests.Replied {| Requests.status_code := 204; Requests.reason := "No Content";
                        Requests.url := "http://h/?q=1"; Requests.text := "" |} in
  let BeautifulSoup := fun _ : string => [Bs4.Tag "a" {["href" := "/users/42"]} []] in
  let urljoin := fun _ reference : string => Some ("http://h" +:+ reference) in
  find_all_parameters requests_get BeautifulSoup urljoin (fun _ X => elements X)
    (__init__ "http://h/?q=1")
  = (fetch_page requests_get;; extract_url_query_parameters;;
     display_results (fun _ X => elements X)) (__init__ "http://h/?q=1").
Proof.
  cbn zeta.
  apply (empty_body_run_is_fetch_query_report _ _ _ _ (__init__ "http://h/?q=1")
           {| Requests.status_code := 204; Requests.reason := "No Content";
              Requests.url := "http://h/?q=1"; Requests.text := "" |}).
  - reflexivity.
  - cbn. lia.
  - reflexivity.
Defined.

(** ** The names of the scripts and of the comments
       (source lines 196-219 and 236-253) *)

Lemma foldl_add_each (l : list string) (acc : gset string) (name : string) :
  name ∈ foldl (fun found x => found ∪ {[x]}) acc l ↔ name ∈ acc ∨ name ∈ l.
Proof.
  revert acc. induction l as [|x l IH]; intros acc; cbn [foldl].
  - split; [tauto |]. intros [H | H]; [exact H |]. apply not_elem_of_nil in H. destruct H.
  - rewrite IH, elem_of_cons. set_solver.
Qed.

Lemma nonempty_true (s : string) : PyStr.nonempty s = true ↔ s ≠ "".
Proof. destruct s; cbn; split; intros H; congruence. Qed.

Lemma js_names_spec (js_content name : string) :
  name ∈ js_names js_content ↔
    (name ≠ "" ∧ ∃ pair, pair ∈ Re.findall2 Patterns.js_param js_content
                         ∧ (pair.1 = name ∨ pair.2 = name))
    ∨ name ∈ Re.findall1 Patterns.js_name_attribute js_content.
Proof.
  unfold js_names. rewrite foldl_add_each.
  assert (Hpairs : ∀ (l : list (string * string)) (acc : gset string),
    name ∈ foldl (fun found '(assigned, key_) =>
                    let found := if PyStr.nonempty assigned
                                 then found ∪ {[assigned]} else found in
                    if PyStr.nonempty key_ then found ∪ {[key_]} else found) acc l
    ↔ name ∈ acc ∨ (name ≠ "" ∧ ∃ pair, pair ∈ l ∧ (pair.1 = name ∨ pair.2 = name))).
  { induction l as [|[assigned key_] l IH]; intros acc; cbn [foldl].
    - split; [tauto |]. intros [H | (_ & pair & H & _)]; [exact H |].
      apply not_elem_of_nil in H. destruct H.
    - rewrite IH. cbv zeta. split.
      + intros [H | (Hn & pair & Hin & Hp)].
        * destruct (PyStr.nonempty key_) eqn:Hk, (PyStr.nonempty assigned) eqn:Ha;
            rewrite ?elem_of_union, ?elem_of_singleton in H;
            try apply nonempty_true in Hk; try apply nonempty_true in Ha;
            repeat destruct H as [H | H]; subst;
            try (left; exact H);
            right; (split; [assumption |]); exists (assigned, key_);
            (split; [apply list_elem_of_here |]); cbn; tauto.
        * right. split; [exact Hn |]. exists pair.
          split; [apply list_elem_of_further, Hin | exact Hp].
      + intros [H | (Hn & pair & Hin & Hp)].
        * left. destruct (PyStr.nonempty key_), (PyStr.nonempty assigned); set_solver.
        * apply elem_of_cons in Hin as [-> | Hin];
            [| right; split; [exact Hn |]; exists pair; split; assumption].
          left. cbn [fst snd] in Hp. destruct Hp as [-> | ->].
          -- apply nonempty_true in Hn. rewrite Hn.
             destruct (PyStr.nonempty key_); set_solver.
          -- apply nonempty_true in Hn. rewrite Hn. set_solver. }
  rewrite Hpairs. set_solver.
Qed.

Lemma comment_names_spec (acc : gset string) (comment name : string) :
  name ∈ comment_names acc comment ↔
    name ∈ acc
    ∨ name ∈ Re.findall1 Patterns.comment_assignment comment
    ∨ (name ∈ Re.findall1 Patterns.comment_word comment
       ∧ (2 < PyStr.len name)%nat ∧ (PyStr.lower name ∉ common_words)).
Proof.
  unfold comment_names.
  set (found := foldl (fun found p => found ∪ {[p]}) acc
                  (Re.findall1 Patterns.comment_assignment comment)).
  assert (Hwords : ∀ (l : list string) (start : gset string),
    name ∈ foldl (fun found word =>
                    if (2 <? PyStr.len word)%nat
                       && negb (PyStr.among (PyStr.lower word) common_words)
                    then found ∪ {[word]} else found) start l
    ↔ name ∈ start ∨ (name ∈ l ∧ (2 < PyStr.len name)%nat
                      ∧ (PyStr.lower name ∉ common_words))).
  { induction l as [|word l IH]; intros start; cbn [foldl].
    - split; [tauto |]. intros [H | (H & _)]; [exact H |].
      apply not_elem_of_nil in H. destruct H.
    - rewrite IH, elem_of_cons.
      destruct ((2 <? PyStr.len word)%nat
                && negb (PyStr.among (PyStr.lower word) common_words)) eqn:Hkeep.
      + apply andb_true_iff in Hkeep as [Hlen Hcommon].
        apply Nat.ltb_lt in Hlen. apply negb_true_iff in Hcommon.
        assert (Hnot : PyStr.lower word ∉ common_words).
        { intros Hin. apply among_spec in Hin. congruence. }
        rewrite elem_of_union, elem_of_singleton. split.
        * intros [[H | ->] | H]; [left; exact H | right; tauto | right; tauto].
        * intros [H | ([-> | H] & Hl & Hc)]; tauto.
      + split; [tauto |]. intros [H | ([-> | H] & Hl & Hc)]; [tauto | | tauto].
        exfalso. apply andb_false_iff in Hkeep as [Hlen | Hcommon].
        * apply Nat.ltb_ge in Hlen. lia.
        * apply negb_false_iff, among_spec in Hcommon. contradiction. }
  rewrite Hwords. unfold found. rewrite foldl_add_each. tauto.
Qed.

Lemma comments_names_spec (comments : list string) (acc : gset string) (name : string) :
  name ∈ foldl comment_names acc comments ↔
    name ∈ acc
    ∨ ∃ comment, comment ∈ comments
        ∧ (name ∈ Re.findall1 Patterns.comment_assignment comment
           ∨ (name ∈ Re.findall1 Patterns.comment_word comment
              ∧ (2 < PyStr.len name)%nat ∧ (PyStr.lower name ∉ common_words))).
Proof.
  revert acc. induction comments as [|comment comments IH]; intros acc; cbn [foldl].
  - split; [tauto |]. intros [H | (comment & H & _)]; [exact H |].
    apply not_elem_of_nil in H. destruct H.
  - rewrite IH, comment_names_spec. split.
    + intros [[H | H] | (c & Hin & H)].
      * left. exact H.
      * right. exists comment. split; [apply list_elem_of_here | exact H].
      * right. exists c. split; [apply list_elem_of_further, Hin | exact H].
    + intros [H | (c & Hin & H)]; [tauto |].
      apply elem_of_cons in Hin as [-> | Hin]; [tauto |].
      right. exists c. split; assumption.
Qed.

Section ScriptsAndComments.
Variable BeautifulSoup : string -> Bs4.soup.
Variable order : site -> gset string -> list string.

(** The pass over the scripts always returns.  Afterwards a name is in the
    JavaScript bucket exactly when it was there before, or it is the
    non-empty first or second group of a match of the assignment-or-key
    pattern in the joined text of the script tags, or the group of a match of
    the [name=] pattern there. *)
Theorem js_bucket_after_the_pass (st : finder) (html : string) :
  page st = Some html →
  let r := extract_js_parameters BeautifulSoup order st in
  let js_content := script_text (BeautifulSoup html) in
  out r = Returned tt
  ∧ ∀ name, name ∈ bucket JavaScriptLike (found_parameters (self r)) ↔
      name ∈ bucket JavaScriptLike (found_parameters st)
      ∨ (name ≠ "" ∧ ∃ pair, pair ∈ Re.findall2 Patterns.js_param js_content
                             ∧ (pair.1 = name ∨ pair.2 = name))
      ∨ name ∈ Re.findall1 Patterns.js_name_attribute js_content.
Proof.
  intros Hpage. cbn zeta. unfold extract_js_parameters. run_step. rewrite Hpage.
  set (soup := BeautifulSoup html).
  destruct (Bs4.find_all "script" soup) as [|script scripts] eqn:Hscripts.
  - run_step. split; [reflexivity |]. intros name.
    rewrite <- js_names_spec. unfold script_text. rewrite Hscripts.
    split; [tauto |]. intros [H | H]; [exact H |].
    assert (Hnone : js_names (PyStr.join (String "010" EmptyString) []) = ∅)
      by (vm_compute; reflexivity).
    cbn [fmap list_fmap] in H. rewrite Hnone in H.
    apply not_elem_of_empty in H. destruct H.
  - destruct (bool_decide (js_names (script_text soup) = ∅)) eqn:Hempty.
    + apply bool_decide_eq_true in Hempty. run_step. split; [reflexivity |].
      intros name. rewrite <- js_names_spec, Hempty. set_solver.
    + run_step. split; [reflexivity |]. intros name.
      cbn [update_found found_parameters]. rewrite bucket_update_eq, <- js_names_spec.
      apply elem_of_union.
Qed.

(** The pass over the comments always returns.  Afterwards a name is in the
    comment bucket exactly when it was there before, or some comment of the
    page holds it as the name of an assignment, or as a word that is longer
    than two characters and, in lower case, is not one of the common words.
    The two filters apply to the words only: the name of an assignment is
    kept however short or common it is. *)
Theorem comment_bucket_after_the_pass (st : finder) (html : string) :
  page st = Some html →
  let r := extract_comment_parameters BeautifulSoup order st in
  out r = Returned tt
  ∧ ∀ name, name ∈ bucket CommentWords (found_parameters (self r)) ↔
      name ∈ bucket CommentWords (found_parameters st)
      ∨ ∃ comment, comment ∈ Bs4.find_comments (BeautifulSoup html)
          ∧ (name ∈ Re.findall1 Patterns.comment_assignment comment
             ∨ (name ∈ Re.findall1 Patterns.comment_word comment
                ∧ (2 < PyStr.len name)%nat ∧ (PyStr.lower name ∉ common_words))).
Proof.
  intros Hpage. cbn zeta. unfold extract_comment_parameters. run_step. rewrite Hpage.
  set (comments := Bs4.find_comments (BeautifulSoup html)).
  pose proof (comments_names_spec comments ∅) as Hspec.
  destruct comments as [|comment comments'] eqn:Hcomments.
  - run_step. split; [reflexivity |]. intros name. split; [tauto |].
    intros [H | (c & H & _)]; [exact H |]. apply not_elem_of_nil in H. destruct H.
  - destruct (bool_decide (foldl comment_names ∅ (comment :: comments') = ∅)) eqn:Hempty.
    + apply bool_decide_eq_true in Hempty. run_step. split; [reflexivity |].
      intros name. specialize (Hspec name). rewrite Hempty in Hspec.
      split; [tauto |]. intros [H | H]; [exact H |]. exfalso.
      apply (not_elem_of_empty (C:=gset string) name), Hspec. right. exact H.
    + run_step. split; [reflexivity |]. intros name.
      cbn [update_found found_parameters]. rewrite bucket_update_eq, elem_of_union.
      rewrite (Hspec name). split.
      * intros [H | [H | H]]; [left; exact H | | right; exact H].
        apply not_elem_of_empty in H. destruct H.
      * intros [H | H]; [left; exact H | right; right; exact H].
Qed.

End ScriptsAndComments.

Lemma js_bucket_after_the_pass_witness :
  let r := extract_js_parameters
    (fun _ => [Bs4.Tag "script" ∅ [Bs4.NavigableString "var token = 1; cfg = {id: 7}"]])
    (fun _ X => elements X) (set_html_content "<script>" (__init__ "http://h/")) in
  "token" ∈ bucket JavaScriptLike (found_parameters (self r))
  ∧ "id" ∈ bucket JavaScriptLike (found_parameters (self r)).
Proof.
  cbn zeta.
  destruct (js_bucket_after_the_pass
    (fun _ => [Bs4.Tag "script" ∅ [Bs4.NavigableString "var token = 1; cfg = {id: 7}"]])
    (fun _ X => elements X) (set_html_content "<script>" (__init__ "http://h/"))
    "<script>" eq_refl) as [_ H].
  split; apply H; right; left.
  - split; [discriminate |]. exists ("token", ""). split; [| left; reflexivity].
    vm_compute. apply list_elem_of_here.
  - split; [discriminate |]. exists ("", "id"). split; [| right; reflexivity].
    vm_compute. apply list_elem_of_further, list_elem_of_here.
Defined.

Lemma comment_bucket_after_the_pass_witness :
  let r := extract_comment_parameters
    (fun _ => [Bs4.Comment " the=1 and debug "])
    (fun _ X => elements X) (set_html_content "<!---->" (__init__ "http://h/")) in
  "the" ∈ bucket CommentWords (found_parameters (self r))
  ∧ "debug" ∈ bucket CommentWords (found_parameters (self r))
  ∧ ("and" ∉ bucket CommentWords (found_parameters (self r))).
Proof.
  cbn zeta.
  destruct (comment_bucket_after_the_pass
    (fun _ => [Bs4.Comment " the=1 and debug "])
    (fun _ X => elements X) (set_html_content "<!---->" (__init__ "http://h/"))
    "<!---->" eq_refl) as [_ H].
  split; [| split].
  - apply H. right. exists " the=1 and debug ". split; [apply list_elem_of_here |].
    left. apply among_spec. vm_compute. reflexivity.
  - apply H. right. exists " the=1 and debug ". split; [apply list_elem_of_here |].
    right. split; [apply among_spec; vm_compute; reflexivity |].
    split; [cbn; lia |].
    intros Hin. apply among_spec in Hin. vm_compute in Hin. discriminate Hin.
  - intros Hin. apply H in Hin as [Hin | (comment & Hc & Hin)].
    + change ("and" ∈ (∅ : gset string)) in Hin.
      apply not_elem_of_empty in Hin. destruct Hin.
    + apply list_elem_of_singleton in Hc. subst comment.
      destruct Hin as [Hin | (_ & _ & Hin)].
      * apply among_spec in Hin. vm_compute in Hin. discriminate Hin.
      * apply Hin. apply among_spec. vm_compute. reflexivity.
Defined.

Lemma path_pass_returns_or_dies_witness :
  let st := set_html_content "<a>" (__init__ "http://h/") in
  let r := extract_potential_path_parameters
    (fun _ => [Bs4.Tag "a" {["href" := "/style.css"]} [];
               Bs4.Tag "a" {["href" := "http://["]} []])
    (fun _ reference => if String.eqb reference "http://[" then None
                        else Some ("http://h" +:+ reference))
    (fun _ X => elements X) st in
  out r = Raised "ValueError" ∧ self r = st.
Proof.
  cbn zeta.
  apply (path_pass_returns_or_dies
    (fun _ => [Bs4.Tag "a" {["href" := "/style.css"]} [];
               Bs4.Tag "a" {["href" := "http://["]} []])
    (fun _ reference => if String.eqb reference "http://[" then None
                        else Some ("http://h" +:+ reference))
    (fun _ X => elements X) ltac:(intros s X; reflexivity)
    (set_html_content "<a>" (__init__ "http://h/")) "<a>" eq_refl).
  exists "http://[". split; [| reflexivity].
  left. exists (Bs4.Tag "a" {["href" := "http://["]} []).
  split; [apply list_elem_of_further, list_elem_of_here | reflexivity].
Defined.
